(** * Async PRAW model classes: request builders and comment-forest expansion

    A shallow embedding of the model classes of the client library
    ([MoreComments], [ReplyableMixin], [Multireddit], [Redditor], the rule
    classes) together with the properties their specification states.

    Python values are modelled as follows.
    - A [str] is a sequence of Unicode code points, [list N].
    - An [int] is a [Z].
    - A flat string-keyed [dict] is a [gmap pystr pyval].
    - A coroutine is a computation in a state-and-exception monad whose
      state carries the receiver object, the state of the HTTP transport and
      the log of the requests issued so far. *)

From Stdlib Require Import NArith ZArith List String Ascii Bool Lia.
From stdpp Require Import base option list gmap.
Import ListNotations.

Set Warnings "-register-all".

(* ================================================================== *)
(** * Python strings *)
(* ================================================================== *)

Module PyStr.

(** A Python [str]: a sequence of code points. *)
Abbreviation pystr := (list N).

(** An ASCII literal of the source as a [pystr]. *)
Definition lit (s : string) : pystr :=
  List.map N_of_ascii (list_ascii_of_string s).

Definition underscore : N := 95.
Definition comma : N := 44.

(** The rows of the Unicode character database the code consults through
    [re] (with [re.UNICODE]) and [str.lower].  The database belongs to the
    Python runtime, so it is a parameter of the development.
    - [isalnum c] is [Py_UNICODE_ISALNUM]: what [\w] accepts besides ['_'].
    - [lower_ucs4 before c after] is the lower-case mapping of the code
      point [c] standing between [before] and [after]; it yields between
      one and three code points, and the context only matters for the
      capital sigma. *)
Class UnicodeData : Type := {
  isalnum : N -> bool;
  lower_ucs4 : pystr -> N -> pystr -> pystr
}.

(** ASCII classification, as every version of the database has it. *)
Definition ascii_isdigit (c : N) : bool := (48 <=? c)%N && (c <=? 57)%N.
Definition ascii_isupper (c : N) : bool := (65 <=? c)%N && (c <=? 90)%N.
Definition ascii_islower (c : N) : bool := (97 <=? c)%N && (c <=? 122)%N.
Definition ascii_isalnum (c : N) : bool :=
  ascii_isdigit c || ascii_isupper c || ascii_islower c.
Definition ascii_tolower (c : N) : N :=
  if ascii_isupper c then (c + 32)%N else c.

Definition is_ascii (c : N) : Prop := (c < 128)%N.

(** What the code relies on from the database. *)
Class UnicodeLaws (ud : UnicodeData) : Prop := {
  isalnum_ascii : forall c, is_ascii c -> isalnum c = ascii_isalnum c;
  lower_ascii : forall before c after,
      is_ascii c -> lower_ucs4 before c after = [ascii_tolower c];
  lower_alnum : forall before c after,
      isalnum c = true ->
      lower_ucs4 before c after <> [] /\
      ~ In underscore (lower_ucs4 before c after)
}.

(** The rows for U+0000..U+00FF (Basic Latin and Latin-1 Supplement).
    Code points beyond U+00FF are outside this excerpt: it leaves them
    unclassified and caseless, and it is only used to run the functions on
    Latin-1 strings. *)
Definition latin1_isalnum (c : N) : bool :=
  ascii_isalnum c
  || (c =? 170)%N || (c =? 178)%N || (c =? 179)%N || (c =? 181)%N
  || (c =? 185)%N || (c =? 186)%N
  || ((188 <=? c)%N && (c <=? 190)%N)
  || ((192 <=? c)%N && (c <=? 214)%N)
  || ((216 <=? c)%N && (c <=? 246)%N)
  || ((248 <=? c)%N && (c <=? 255)%N).

Definition latin1_tolower (c : N) : N :=
  if ascii_isupper c then (c + 32)%N
  else if ((192 <=? c)%N && (c <=? 222)%N) && negb (c =? 215)%N
       then (c + 32)%N
       else c.

Definition latin1 : UnicodeData :=
  {| isalnum := latin1_isalnum;
     lower_ucs4 := fun _ c _ => [latin1_tolower c] |}.

Section WithUnicode.
Context {ud : UnicodeData}.

(** [\w] and the character class [[\W_]] of [RE_INVALID]. *)
Definition re_word (c : N) : bool := isalnum c || (c =? underscore)%N.
Definition RE_INVALID (c : N) : bool :=
  negb (re_word c) || (c =? underscore)%N.

(** [re.compile("[cls]+").sub(repl, s)]: every maximal run of characters
    of the class is replaced by [repl].  [in_run] tells that the scanner is
    inside a run whose replacement has been emitted. *)
Fixpoint re_sub_runs (cls : N -> bool) (repl : pystr) (in_run : bool)
    (s : pystr) : pystr :=
  match s with
  | [] => []
  | c :: r =>
      if cls c
      then (if in_run then [] else repl) ++ re_sub_runs cls repl true r
      else c :: re_sub_runs cls repl false r
  end.

Definition re_sub (cls : N -> bool) (repl s : pystr) : pystr :=
  re_sub_runs cls repl false s.

(** [s.lstrip(c)], [s.rstrip(c)], [s.strip(c)] for a single character. *)
Fixpoint lstrip (c : N) (s : pystr) : pystr :=
  match s with
  | [] => []
  | a :: r => if (a =? c)%N then lstrip c r else s
  end.

Definition rstrip (c : N) (s : pystr) : pystr :=
  reverse (lstrip c (reverse s)).
Definition strip (c : N) (s : pystr) : pystr := rstrip c (lstrip c s).

(** [s.lower()]. *)
Fixpoint lower_from (before s : pystr) : pystr :=
  match s with
  | [] => []
  | c :: after => lower_ucs4 before c after ++ lower_from (before ++ [c]) after
  end.

Definition str_lower (s : pystr) : pystr := lower_from [] s.

End WithUnicode.

(** [s.rfind(c)]: the index of the last occurrence of [c], or [-1]. *)
Fixpoint rfind_from (c : N) (s : pystr) (i : Z) (found : Z) : Z :=
  match s with
  | [] => found
  | a :: r => rfind_from c r (i + 1) (if (a =? c)%N then i else found)
  end.

Definition rfind (c : N) (s : pystr) : Z := rfind_from c s 0 (-1).

(** [s[:n]] for an index [n >= 0]. *)
Definition slice_to (n : Z) (s : pystr) : pystr := firstn (Z.to_nat n) s.

(** [sep.join(l)]. *)
Fixpoint join (sep : pystr) (l : list pystr) : pystr :=
  match l with
  | [] => []
  | [x] => x
  | x :: r => x ++ sep ++ join sep r
  end.

(** [s.split(c, 1)]: at most one split, at the first occurrence of [c]. *)
Fixpoint split_once (c : N) (s : pystr) : list pystr :=
  match s with
  | [] => [[]]
  | a :: r =>
      if (a =? c)%N then [[]; r]
      else match split_once c r with
           | h :: t => (a :: h) :: t
           | [] => [[a]]
           end
  end.

(** ** [urllib.parse.quote] *)

(** [s.encode("utf-8")] with [errors="strict"]: surrogates and values that
    are no code points cannot be encoded ([UnicodeEncodeError]). *)
Definition utf8_encode_codepoint (c : N) : option (list N) :=
  if (c <? 128)%N then Some [c]
  else if (c <? 2048)%N then
    Some [N.lor 192 (N.shiftr c 6); N.lor 128 (N.land c 63)]
  else if (c <? 65536)%N then
    if (55296 <=? c)%N && (c <=? 57343)%N then None
    else Some [N.lor 224 (N.shiftr c 12);
               N.lor 128 (N.land (N.shiftr c 6) 63);
               N.lor 128 (N.land c 63)]
  else if (c <? 1114112)%N then
    Some [N.lor 240 (N.shiftr c 18);
          N.lor 128 (N.land (N.shiftr c 12) 63);
          N.lor 128 (N.land (N.shiftr c 6) 63);
          N.lor 128 (N.land c 63)]
  else None.

Fixpoint utf8_encode (s : pystr) : option (list N) :=
  match s with
  | [] => Some []
  | c :: r =>
      match utf8_encode_codepoint c, utf8_encode r with
      | Some b, Some bs => Some (b ++ bs)
      | _, _ => None
      end
  end.

(** [_ALWAYS_SAFE]: letters, digits and [_.-~]. *)
Definition always_safe (b : N) : bool :=
  ascii_isalnum b || (b =? 95)%N || (b =? 46)%N || (b =? 45)%N || (b =? 126)%N.

Definition hex_digit (n : N) : N :=
  if (n <? 10)%N then (48 + n)%N else (55 + n)%N.

(** The quoter of one byte: itself when safe, ["%XX"] otherwise. *)
Definition quote_byte (safe : pystr) (b : N) : pystr :=
  if always_safe b || existsb (N.eqb b) (List.filter (fun c => (c <? 128)%N) safe)
  then [b]
  else [37%N; hex_digit (b / 16); hex_digit (b mod 16)].

(** [quote(s, safe=safe)]; [None] stands for [UnicodeEncodeError]. *)
Definition quote (safe s : pystr) : option pystr :=
  match utf8_encode s with
  | Some bs => Some (List.concat (List.map (quote_byte safe) bs))
  | None => None
  end.

End PyStr.
Export PyStr.

(* ================================================================== *)
(** * Values, requests and the transport *)
(* ================================================================== *)

(** Python values: what a parameter dict, an attribute or a JSON document
    holds. *)
Inductive pyval :=
  | VNone
  | VBool (b : bool)
  | VInt (z : Z)
  | VStr (s : pystr)
  | VList (l : list pyval)
  | VDict (d : gmap pystr pyval).

Inductive verb := GET | POST | PUT | DELETE.

(** The [data] argument of a call: absent, a dict, or a string. *)
Inductive body :=
  | NoBody
  | Form (d : gmap pystr pyval)
  | Raw (s : pystr).

(** One call of [Reddit.get], [post], [put], [delete] or [request].
    [objectify] is false for [Reddit.request], whose answer is the JSON
    document itself. *)
Record request := {
  method : verb;
  path : pystr;
  params : option (gmap pystr pyval);
  data : body;
  objectify : bool
}.

(** ** The objects of the model *)

Record Submission := {
  submission_id : pystr;
  submission_fullname : pystr;
  comment_limit : pyval;
  comment_sort : pyval
}.

(** [str(subreddit)] is its display name. *)
Record Subreddit := { display_name : pystr }.

(** A node of a comment forest: a comment with its replies, or a
    placeholder that has not been expanded. *)
Inductive node :=
  | CommentNode (id : pystr) (submission : option Submission)
      (replies : list node)
  | MoreNode (count : option Z) (parent_id : option pystr)
      (children : list pystr) (submission : option Submission).

(** A rule: its [__dict__] but for [subreddit], which is [None] until the
    caller sets it, and the flag [_fetched]. *)
Record Rule := {
  rule_dict : gmap pystr pyval;
  rule_subreddit : option Subreddit;
  rule_fetched : bool
}.

(** A redditor: its [__dict__] ([name] or [_fullname] according to how it
    was constructed, and whatever a fetch copied) and the flag [_fetched]. *)
Record Redditor := {
  redditor_dict : gmap pystr pyval;
  redditor_fetched : bool
}.

(** A multireddit: its [__dict__] ([name], [path], [display_name],
    [subreddits], ...) but for [_author], and the flag [_fetched]. *)
Record Multireddit := {
  multi_dict : gmap pystr pyval;
  _author : Redditor;
  multi_fetched : bool
}.

(** What a call answers: a plain value (always so for [Reddit.request]),
    or the instances the objector built. *)
Inductive response :=
  | RValue (v : pyval)
  | RNodes (l : list node)
  | RCommentPage (children : list node)
  | RRules (l : list Rule)
  | RRedditor (r : Redditor)
  | RMultireddit (m : Multireddit)
  | RList (l : list response).

(** Exceptions of the transport (asyncprawcore and the API). *)
Inductive upstream_exn :=
  | Forbidden
  | NotFound
  | ServerError
  | RedditAPIException (message : pystr).

(** The [assert] statements of the source. *)
Inductive guard :=
  | continue_without_children   (* more.py, _continue_comments *)
  | single_parent               (* more.py, _load_comment *)
  | batch_with_children         (* more.py, comments *)
  | data_has_name.              (* redditor.py, __init__ *)

Inductive exn :=
  | AssertionError (g : guard)
  | AttributeError
  | IndexError
  | KeyError
  | TypeError
  | ValueError
  | ClientException
  | UnicodeEncodeError
  | Upstream (e : upstream_exn).

(** The collaborators that are not part of the model classes:
    - the transport, a machine that answers or raises on each call;
    - the table [API_PATH] of path templates ([const.py]);
    - [str.format] with keyword fields, [json.dumps] and [str];
    - [RedditBase._reset_attributes] ([base.py]), which acts on the
      [__dict__] and the flag [_fetched] of its receiver; it is no coroutine
      and so reaches the transport in no way. *)
Class Env : Type := {
  transport : Type;
  send : request -> transport -> (upstream_exn + response) * transport;
  API_PATH : pystr -> pystr;
  str_format : pystr -> list (pystr * pystr) -> pystr;
  dumps : pyval -> pystr;
  py_str : pyval -> pystr;
  _reset_attributes :
    list pystr -> gmap pystr pyval * bool -> gmap pystr pyval * bool
}.

(* ================================================================== *)
(** * Coroutines *)
(* ================================================================== *)

Module Co.

Inductive outcome (A : Type) :=
  | Ok (a : A)
  | Raise (e : exn).
Arguments Ok {A} a.
Arguments Raise {A} e.

Section WithEnv.
Context {E : Env}.

(** The receiver, the transport and the calls issued so far. *)
Record state (Self : Type) := {
  self : Self;
  net : transport;
  log : list request
}.
Arguments self {Self} s.
Arguments net {Self} s.
Arguments log {Self} s.

Definition M (Self A : Type) : Type := state Self -> outcome A * state Self.

Definition ret {Self A : Type} (a : A) : M Self A := fun s => (Ok a, s).

Definition raise {Self A : Type} (e : exn) : M Self A := fun s => (Raise e, s).

Definition bind {Self A B : Type} (c : M Self A) (k : A -> M Self B) : M Self B :=
  fun s =>
    match c s with
    | (Ok a, s') => k a s'
    | (Raise e, s') => (Raise e, s')
    end.

Definition get_self {Self : Type} : M Self Self := fun s => (Ok (self s), s).

Definition modify_self {Self : Type} (f : Self -> Self) : M Self unit :=
  fun s => (Ok tt, {| self := f (self s); net := net s; log := log s |}).

(** A value that may be missing, with the exception its absence raises. *)
Definition need {Self A : Type} (e : exn) (o : option A) : M Self A :=
  match o with
  | Some a => ret a
  | None => raise e
  end.

Definition assert {Self : Type} (b : bool) (g : guard) : M Self unit :=
  if b then ret tt else raise (AssertionError g).

(** One call to the transport: it is logged, then answered or refused. *)
Definition call {Self : Type} (r : request) : M Self response :=
  fun s =>
    let '(answer, net') := send r (net s) in
    let s' := {| self := self s; net := net'; log := log s ++ [r] |} in
    match answer with
    | inl e => (Raise (Upstream e), s')
    | inr v => (Ok v, s')
    end.

(** Running a coroutine of an attribute object inside its owner. *)
Definition zoom {Outer Inner A : Type} (get : Outer -> Inner)
    (set : Inner -> Outer -> Outer) (c : M Inner A) : M Outer A :=
  fun s =>
    let '(r, s') := c {| self := get (self s); net := net s; log := log s |} in
    (r, {| self := set (self s') (self s); net := net s'; log := log s' |}).

(** Sequencing over a list, left to right. *)
Fixpoint for_each {Self A B : Type} (f : A -> M Self B) (l : list A)
    : M Self (list B) :=
  match l with
  | [] => ret []
  | x :: r => bind (f x) (fun y => bind (for_each f r) (fun ys => ret (y :: ys)))
  end.

(** A loop that threads an accumulator through a list. *)
Fixpoint fold_each {Self A B : Type} (f : B -> A -> M Self B) (l : list A)
    (acc : B) : M Self B :=
  match l with
  | [] => ret acc
  | x :: r => bind (f acc x) (fun acc' => fold_each f r acc')
  end.

(** Running a coroutine of a local object; the object is handed back. *)
Definition run_on {Outer Inner A : Type} (o : Inner) (c : M Inner A)
    : M Outer (A * Inner) :=
  fun s =>
    let '(r, s') := c {| self := o; net := net s; log := log s |} in
    let back := {| self := self s; net := net s'; log := log s' |} in
    match r with
    | Ok a => (Ok (a, self s'), back)
    | Raise e => (Raise e, back)
    end.

Definition lift {Self A : Type} (o : outcome A) : M Self A :=
  fun s => (o, s).

(** [await x] for an object [x] that is no awaitable, such as a list or a
    comment: the expression raises [TypeError]. *)
Definition await_object {Self A : Type} (x : A) : M Self A := raise TypeError.

Definition reddit_get {Self : Type} (p : pystr) (ps : option (gmap pystr pyval))
    : M Self response :=
  call {| method := GET; path := p; params := ps; data := NoBody;
          objectify := true |}.

Definition reddit_post {Self : Type} (p : pystr) (ps : option (gmap pystr pyval))
    (d : body) : M Self response :=
  call {| method := POST; path := p; params := ps; data := d;
          objectify := true |}.

Definition reddit_put {Self : Type} (p : pystr) (d : body) : M Self response :=
  call {| method := PUT; path := p; params := None; data := d;
          objectify := true |}.

Definition reddit_delete {Self : Type} (p : pystr) (d : body) : M Self response :=
  call {| method := DELETE; path := p; params := None; data := d;
          objectify := true |}.

Definition reddit_request {Self : Type} (m : verb) (p : pystr)
    (ps : option (gmap pystr pyval)) (d : body) : M Self response :=
  call {| method := m; path := p; params := ps; data := d;
          objectify := false |}.

End WithEnv.

Arguments self {E Self} s.
Arguments net {E Self} s.
Arguments log {E Self} s.

Declare Scope co_scope.
Delimit Scope co_scope with co.
Notation "x <- c ;; k" := (bind c (fun x => k))
  (at level 100, c at next level, right associativity) : co_scope.
Notation "c ;; k" := (bind c (fun _ => k))
  (at level 100, right associativity) : co_scope.

End Co.
Export Co.
Open Scope co_scope.

(** ** Reading an answer at the type its call site uses it at

    Using an answer at a type it has not raises [TypeError]. *)
Section Answers.
Context {E : Env} {Self : Type}.

Definition as_nodes (r : response) : M Self (list node) :=
  match r with
  | RNodes l => ret l
  | _ => raise TypeError
  end.

Definition as_comment_page (r : response) : M Self (list node) :=
  match r with
  | RCommentPage children => ret children
  | _ => raise TypeError
  end.

Definition as_rules (r : response) : M Self (list Rule) :=
  match r with
  | RRules l => ret l
  | _ => raise TypeError
  end.

Definition as_dict (v : pyval) : M Self (gmap pystr pyval) :=
  match v with
  | VDict d => ret d
  | _ => raise TypeError
  end.

Definition as_str (v : pyval) : M Self pystr :=
  match v with
  | VStr s => ret s
  | _ => raise TypeError
  end.

End Answers.

(** Truth value of a Python value, and of an optional string argument. *)
Definition truthy (v : pyval) : bool :=
  match v with
  | VNone => false
  | VBool b => b
  | VInt z => negb (z =? 0)%Z
  | VStr s => negb (bool_decide (s = []))
  | VList l => negb (bool_decide (l = []))
  | VDict d => negb (bool_decide (d = ∅))
  end.

Definition given (o : option pystr) : bool :=
  match o with
  | Some (_ :: _) => true
  | _ => false
  end.

(** [str(x)] of a value that is a [str] already, or of another value. *)
Definition to_str {E : Env} (v : pyval) : pystr :=
  match v with
  | VStr s => s
  | _ => py_str v
  end.

(* ================================================================== *)
(** * MoreComments (more.py) *)
(* ================================================================== *)

Module More.

Record MoreComments := {
  count : option Z;
  parent_id : option pystr;
  children : list pystr;
  _comments : option (list node);
  submission : option Submission
}.

(** [MoreComments(reddit, _data)]: the attributes default to [None] and
    [[]] and are then taken from [_data]. *)
Definition __init__ (data_count : option Z) (data_parent_id : option pystr)
    (data_children : option (list pystr)) : MoreComments :=
  {| count := data_count;
     parent_id := data_parent_id;
     children := default [] data_children;
     _comments := None;
     submission := None |}.

Definition set_comments (cs : option (list node)) (m : MoreComments)
    : MoreComments :=
  {| count := count m; parent_id := parent_id m; children := children m;
     _comments := cs; submission := submission m |}.

(** [comment.submission = s]. *)
Definition set_submission (s : option Submission) (n : node) : node :=
  match n with
  | CommentNode id _ replies => CommentNode id s replies
  | MoreNode c p ch _ => MoreNode c p ch s
  end.

Definition node_submission (n : node) : option Submission :=
  match n with
  | CommentNode _ s _ => s
  | MoreNode _ _ _ s => s
  end.

(** [parent.replies]: a placeholder has no such attribute. *)
Definition node_replies (n : node) : option (list node) :=
  match n with
  | CommentNode _ _ replies => Some replies
  | MoreNode _ _ _ _ => None
  end.

(** [self.count == 0]. *)
Definition count_is_zero (c : option Z) : bool :=
  match c with
  | Some z => (z =? 0)%Z
  | None => false
  end.

Definition is_empty {A : Type} (l : list A) : bool :=
  match l with
  | [] => true
  | _ => false
  end.

(** The right operand of a comparison: a placeholder, or an object of
    another class. *)
Inductive operand :=
  | APlaceholder (other : MoreComments)
  | AnotherObject.

(** [MoreComments.__eq__(other)]. *)
Definition __eq__ (me : MoreComments) (other : operand) : bool :=
  match other with
  | APlaceholder other =>
      bool_decide (count me = count other)
      && bool_decide (children me = children other)
  | AnotherObject => false
  end.

(** [MoreComments.__lt__(other)]: [self.count > other.count], which raises
    [TypeError] when a count is [None]. *)
Definition __lt__ (me other : MoreComments) : outcome bool :=
  match count me, count other with
  | Some mine, Some theirs => Ok (theirs <? mine)%Z
  | _, _ => Raise TypeError
  end.

Section WithEnv.
Context {E : Env}.

(** [for comment in self._comments: comment.submission = self.submission] *)
Definition propagate_submission : M MoreComments unit :=
  modify_self (fun m =>
    set_comments (option_map (List.map (set_submission (submission m)))
                    (_comments m)) m).

(** [comments.children] is the list of the nodes of the page: the source
    awaits that list, and then its first item. *)
Definition _load_comment (comment_id : pystr) : M MoreComments node :=
  me <- get_self ;;
  sub <- need AttributeError (submission me) ;;
  let path :=
    str_format (API_PATH (lit "submission")) [(lit "id", submission_id sub)]
    ++ lit "_/" ++ comment_id in
  answer <- reddit_get path
    (Some {[ lit "limit" := comment_limit sub;
             lit "sort" := comment_sort sub ]}) ;;
  page <- as_comment_page answer ;;
  children <- await_object page ;;
  assert (length children =? 1)%nat single_parent ;;
  first <- need IndexError (head page) ;;
  await_object first.

Definition _continue_comments (update : bool)
    : M MoreComments (option (list node)) :=
  me <- get_self ;;
  assert (is_empty (children me)) continue_without_children ;;
  pid <- need AttributeError (parent_id me) ;;
  comment_id <- need IndexError (nth_error (split_once underscore pid) 1) ;;
  parent <- _load_comment comment_id ;;
  replies <- need AttributeError (node_replies parent) ;;
  modify_self (set_comments (Some replies)) ;;
  (if update then propagate_submission else ret tt) ;;
  me' <- get_self ;;
  ret (_comments me').

(** [MoreComments.comments(update=True)]; the value returned is the value
    of the attribute [_comments]. *)
Definition comments (update : bool) : M MoreComments (option (list node)) :=
  me <- get_self ;;
  match _comments me with
  | None =>
      if count_is_zero (count me) then _continue_comments update
      else
        assert (negb (is_empty (children me))) batch_with_children ;;
        sub <- need AttributeError (submission me) ;;
        let data : gmap pystr pyval :=
          {[ lit "children" := VStr (join [comma] (children me));
             lit "link_id" := VStr (submission_fullname sub);
             lit "sort" := comment_sort sub ]} in
        answer <- reddit_post (API_PATH (lit "morechildren")) None (Form data) ;;
        cs <- as_nodes answer ;;
        modify_self (set_comments (Some cs)) ;;
        (if update then propagate_submission else ret tt) ;;
        me' <- get_self ;;
        ret (_comments me')
  | Some _ => ret (_comments me)
  end.

End WithEnv.
End More.

(* ================================================================== *)
(** * ReplyableMixin (mixins/replyable.py) *)
(* ================================================================== *)

(** The classes a mixin is mixed into provide [fullname] and [str]. *)
Class FullnameMixin (A : Type) := fullname : A -> pystr.

Module Replyable.
Section WithEnv.
Context {E : Env} {A : Type} {F : FullnameMixin A}.

(** [ReplyableMixin.reply(body)]. *)
Definition reply (body : pystr) : M A (option node) :=
  me <- get_self ;;
  let data : gmap pystr pyval :=
    {[ lit "text" := VStr body; lit "thing_id" := VStr (fullname me) ]} in
  answer <- reddit_post (API_PATH (lit "comment")) None (Form data) ;;
  comments <- as_nodes answer ;;
  match comments with
  | c :: _ => ret (Some c)
  | [] => ret None
  end.

End WithEnv.
End Replyable.

(* ================================================================== *)
(** * VotableMixin (mixins/votable.py) *)
(* ================================================================== *)

Module Votable.
Section WithEnv.
Context {E : Env} {A : Type} {F : FullnameMixin A}.

(** [VotableMixin._vote(direction)], a coroutine. *)
Definition _vote (direction : Z) : M A unit :=
  me <- get_self ;;
  reddit_post (API_PATH (lit "vote")) None
    (Form {[ lit "dir" := VStr (to_str (VInt direction));
             lit "id" := VStr (fullname me) ]}) ;;
  ret tt.

(** Calling a coroutine function without awaiting what it returns: the
    coroutine object is dropped and its body does not run. *)
Definition not_awaited {B : Type} (coroutine : M A B) : M A unit := ret tt.

(** [clear_vote], [downvote] and [upvote] are plain functions; each calls
    [self._vote] and drops what it returns. *)
Definition clear_vote : M A unit := not_awaited (_vote 0).
Definition downvote : M A unit := not_awaited (_vote (-1)).
Definition upvote : M A unit := not_awaited (_vote 1).

End WithEnv.
End Votable.

(* ================================================================== *)
(** * Python sequences: indexing and slicing *)
(* ================================================================== *)

Module PySeq.

(** [l[i]], negative indices counting from the end; [None] stands for
    [IndexError]. *)
Definition index {A : Type} (l : list A) (i : Z) : option A :=
  let n := Z.of_nat (length l) in
  let j := if (i <? 0)%Z then (i + n)%Z else i in
  if (0 <=? j)%Z && (j <? n)%Z then nth_error l (Z.to_nat j) else None.

(** The bounds of [slice(start, stop, step)] on a sequence of length [n]
    ([slice.indices]); [None] stands for the [ValueError] of a zero step. *)
Definition clamp (n step b : Z) : Z :=
  if (b <? 0)%Z then
    if (b + n <? 0)%Z then (if (step <? 0)%Z then -1 else 0)%Z else (b + n)%Z
  else if (n <=? b)%Z then (if (step <? 0)%Z then n - 1 else n)%Z
  else b.

Definition indices (n : Z) (start stop step : option Z)
    : option (Z * Z * Z) :=
  let step := default 1%Z step in
  if (step =? 0)%Z then None
  else
    let lo := match start with
              | Some b => clamp n step b
              | None => if (step <? 0)%Z then (n - 1)%Z else 0%Z
              end in
    let hi := match stop with
              | Some b => clamp n step b
              | None => if (step <? 0)%Z then (-1)%Z else n
              end in
    Some (lo, hi, step).

Definition slice_length (lo hi step : Z) : Z :=
  if (step <? 0)%Z
  then (if (hi <? lo)%Z then (lo - hi - 1) / (- step) + 1 else 0)%Z
  else (if (lo <? hi)%Z then (hi - lo - 1) / step + 1 else 0)%Z.

Definition slice {A : Type} (l : list A) (start stop step : option Z)
    : option (list A) :=
  match indices (Z.of_nat (length l)) start stop step with
  | None => None
  | Some (lo, hi, step) =>
      Some (omap (fun k => nth_error l (Z.to_nat (lo + Z.of_nat k * step)))
              (seq 0 (Z.to_nat (slice_length lo hi step))))
  end.

End PySeq.

(* ================================================================== *)
(** * The end of a constructor (base.py) *)
(* ================================================================== *)

(** Modelled from the spec: [RedditBase.__init__] ([base.py], which is not
    among the sources), the call that ends the constructors of [Rule] and
    [Redditor].  It copies the items of [_data] into the attributes of the
    object, which is not fetched, and, a missing identity argument being a
    local validation error raised before any request (section 7), it raises
    [ValueError] unless the object then holds the attribute its class names
    as [STR_FIELD], or the extra attribute its constructor names. *)
Definition RedditBase__init__ (STR_FIELD : pystr) (extra : option pystr)
    (own _data : gmap pystr pyval) : outcome (gmap pystr pyval) :=
  let attributes := _data ∪ own in
  if bool_decide (is_Some (attributes !! STR_FIELD)) then Ok attributes
  else if match extra with
          | Some attribute => bool_decide (is_Some (attributes !! attribute))
          | None => false
          end
       then Ok attributes
       else Raise ValueError.

(* ================================================================== *)
(** * Rules (rules.py) *)
(* ================================================================== *)

Module Rules.

Record SubredditRules := { subreddit : Subreddit }.

(** The argument of [get_rule] and what it returns for each kind. *)
Inductive rule_key :=
  | ByName (short_name : pystr)
  | ByNumber (i : Z)
  | BySlice (start stop step : option Z).

Inductive rules_found :=
  | OneRule (r : Rule)
  | SomeRules (l : list Rule).

(** [rule.subreddit = s]. *)
Definition set_rule_subreddit (s : option Subreddit) (r : Rule) : Rule :=
  {| rule_dict := rule_dict r; rule_subreddit := s;
     rule_fetched := rule_fetched r |}.

(** [Rule(reddit, subreddit, short_name, _data)]. *)
Definition Rule__init__ (sub : option Subreddit) (short_name : option pystr)
    (_data : option (gmap pystr pyval)) : outcome Rule :=
  let nones := ((if short_name is None then 1 else 0)
                + (if _data is None then 1 else 0))%nat in
  if negb (nones =? 1)%nat then Raise ValueError
  else
    let named : gmap pystr pyval :=
      match short_name with
      | Some n => if given short_name then {[ lit "short_name" := VStr n ]} else ∅
      | None => ∅
      end in
    match RedditBase__init__ (lit "short_name") None named (default ∅ _data) with
    | Ok attributes =>
        Ok {| rule_dict := attributes;
              rule_subreddit := sub;
              rule_fetched := false |}
    | Raise e => Raise e
    end.

(** [a == b] on the flat values a rule attribute holds. *)
Definition py_eq (a b : pyval) : bool :=
  match a, b with
  | VNone, VNone => true
  | VBool x, VBool y => Bool.eqb x y
  | VInt x, VInt y => (x =? y)%Z
  | VBool x, VInt y | VInt y, VBool x => ((if x then 1 else 0) =? y)%Z
  | VStr x, VStr y => bool_decide (x = y)
  | _, _ => false
  end.

Section WithEnv.
Context {E : Env}.

(** [getattr(rule, attribute)] and [rule.subreddit]
    ([Rule.__getattribute__]). *)
Definition rule_attr {Self : Type} (r : Rule) (attribute : pystr)
    : M Self pyval :=
  need AttributeError (rule_dict r !! attribute).

Definition rule_subreddit_attr {Self : Type} (r : Rule) : M Self Subreddit :=
  need ValueError (rule_subreddit r).

(** [SubredditRules._rule_list]. *)
Definition _rule_list : M SubredditRules (list Rule) :=
  me <- get_self ;;
  answer <- reddit_get
    (str_format (API_PATH (lit "rules"))
       [(lit "subreddit", display_name (subreddit me))]) None ;;
  rule_list <- as_rules answer ;;
  ret (List.map (set_rule_subreddit (Some (subreddit me))) rule_list).

(** [SubredditRules.__aiter__]: the rules it yields, in order. *)
Definition __aiter__ : M SubredditRules (list Rule) := _rule_list.

(** [SubredditRules.__call__] (deprecated). *)
Definition __call__ : M SubredditRules response :=
  me <- get_self ;;
  reddit_request GET
    (str_format (API_PATH (lit "rules"))
       [(lit "subreddit", display_name (subreddit me))]) None NoBody.

(** The loop of [Rule._fetch] over the rules of the subreddit; the message
    of the exception that ends it reads the short name of the receiver. *)
Fixpoint _fetch_scan (rules : list Rule) : M Rule unit :=
  match rules with
  | [] =>
      me <- get_self ;;
      rule_attr me (lit "short_name") ;;
      raise ClientException
  | rule :: rest =>
      me <- get_self ;;
      theirs <- rule_attr rule (lit "short_name") ;;
      mine <- rule_attr me (lit "short_name") ;;
      if py_eq theirs mine then
        modify_self (fun me =>
          {| rule_dict := rule_dict rule ∪ rule_dict me;
             rule_subreddit := rule_subreddit rule;
             rule_fetched := true |})
      else _fetch_scan rest
  end.

(** [Rule._fetch]. *)
Definition _fetch : M Rule unit :=
  me <- get_self ;;
  sub <- rule_subreddit_attr me ;;
  rules <- zoom (fun _ => {| subreddit := sub |}) (fun _ rule => rule)
             __aiter__ ;;
  _fetch_scan rules.

(** [SubredditRules.get_rule(short_name)]. *)
Definition get_rule (short_name : rule_key) : M SubredditRules rules_found :=
  me <- get_self ;;
  match short_name with
  | ByNumber i =>
      rules <- _rule_list ;;
      rule <- need IndexError (PySeq.index rules i) ;;
      ret (OneRule rule)
  | BySlice start stop step =>
      rules <- _rule_list ;;
      part <- need ValueError (PySeq.slice rules start stop step) ;;
      ret (SomeRules part)
  | ByName short_name =>
      rule <- lift (Rule__init__ (Some (subreddit me)) (Some short_name) None) ;;
      fetched <- run_on rule _fetch ;;
      ret (OneRule (snd fetched))
  end.

(** ** RuleModeration: the receiver is the rule it moderates *)

(** [RuleModeration.delete]. *)
Definition delete : M Rule unit :=
  me <- get_self ;;
  sub <- rule_subreddit_attr me ;;
  short_name <- rule_attr me (lit "short_name") ;;
  let data : gmap pystr pyval :=
    {[ lit "r" := VStr (display_name sub); lit "short_name" := short_name ]} in
  reddit_post (API_PATH (lit "remove_subreddit_rule")) None (Form data) ;;
  ret tt.

(** [RuleModeration.update]. *)
Definition update (description kind short_name violation_reason : option pystr)
    : M Rule Rule :=
  me <- get_self ;;
  sub <- rule_subreddit_attr me ;;
  old_short_name <- rule_attr me (lit "short_name") ;;
  let data : gmap pystr pyval :=
    {[ lit "r" := VStr (display_name sub);
       lit "old_short_name" := old_short_name ]} in
  data <- fold_each
    (fun (data : gmap pystr pyval) (item : pystr * option pystr) =>
       value <- match item.2 with
                | None => rule_attr me item.1
                | Some value => ret (VStr value)
                end ;;
       ret (<[ item.1 := value ]> data))
    [ (lit "description", description);
      (lit "kind", kind);
      (lit "short_name", short_name);
      (lit "violation_reason", violation_reason) ]
    data ;;
  answer <- reddit_post (API_PATH (lit "update_subreddit_rule")) None (Form data) ;;
  rules <- as_rules answer ;;
  updated_rule <- need IndexError (head rules) ;;
  sub <- rule_subreddit_attr me ;;
  ret (set_rule_subreddit (Some sub) updated_rule).

(** ** SubredditRulesModeration: the receiver is its [subreddit_rules] *)

(** [SubredditRulesModeration.add]; [description] defaults to the empty
    string. *)
Definition add (short_name kind description : pystr)
    (violation_reason : option pystr) : M SubredditRules Rule :=
  me <- get_self ;;
  let data : gmap pystr pyval :=
    {[ lit "r" := VStr (display_name (subreddit me));
       lit "description" := VStr description;
       lit "kind" := VStr kind;
       lit "short_name" := VStr short_name;
       lit "violation_reason" :=
         VStr (match violation_reason with
               | None => short_name
               | Some reason => reason
               end) ]} in
  answer <- reddit_post (API_PATH (lit "add_subreddit_rule")) None (Form data) ;;
  rules <- as_rules answer ;;
  new_rule <- need IndexError (head rules) ;;
  ret (set_rule_subreddit (Some (subreddit me)) new_rule).

(** [SubredditRulesModeration.reorder]. *)
Definition reorder (rule_list : list Rule) : M SubredditRules (list Rule) :=
  me <- get_self ;;
  short_names <- for_each (fun rule => rule_attr rule (lit "short_name"))
                   rule_list ;;
  short_names <- for_each as_str short_names ;;
  order_string <- need UnicodeEncodeError
                    (quote [comma] (join [comma] short_names)) ;;
  let data : gmap pystr pyval :=
    {[ lit "r" := VStr (display_name (subreddit me));
       lit "new_rule_order" := VStr order_string ]} in
  answer <- reddit_post (API_PATH (lit "reorder_subreddit_rules")) None
              (Form data) ;;
  rules <- as_rules answer ;;
  ret (List.map (set_rule_subreddit (Some (subreddit me))) rules).

End WithEnv.
End Rules.

(* ================================================================== *)
(** * Redditor (redditor.py) *)
(* ================================================================== *)

(** Truth value of an answer, and [list(answer)]. *)
Definition answer_truthy (r : response) : bool :=
  match r with
  | RValue v => truthy v
  | RNodes l => negb (bool_decide (l = []))
  | RCommentPage l => negb (bool_decide (l = []))
  | RRules l => negb (More.is_empty l)
  | RList l => negb (More.is_empty l)
  | RRedditor _ | RMultireddit _ => true
  end.

Definition answer_list (r : response) : option response :=
  match r with
  | RValue (VList l) => Some r
  | RValue (VStr s) => Some (RValue (VList (List.map (fun c => VStr [c]) s)))
  | RValue (VDict d) => Some (RValue (VList (List.map (fun kv => VStr kv.1) (map_to_list d))))
  | RValue _ => None
  | RNodes _ | RCommentPage _ | RRules _ | RList _ => Some r
  | RRedditor _ | RMultireddit _ => None
  end.

Module Redditor.

(** [Redditor(reddit, name, fullname, _data)]; an argument that is not
    given is [None]. *)
Definition __init__ (name fullname : option pystr) (_data : pyval)
    : outcome Redditor :=
  let nones := ((if name is None then 1 else 0)
                + (if fullname is None then 1 else 0)
                + (if _data is VNone then 1 else 0))%nat in
  if negb (nones =? 2)%nat then Raise TypeError
  else
    let has_name :=
      match _data with
      | VDict d => bool_decide (is_Some (d !! lit "name"))
      | _ => false
      end in
    if truthy _data && negb has_name then Raise (AssertionError data_has_name)
    else
      let own : gmap pystr pyval :=
        match name, fullname with
        | Some n, _ => if given name then {[ lit "name" := VStr n ]} else ∅
        | None, Some f =>
            if given fullname then {[ lit "_fullname" := VStr f ]} else ∅
        | None, None => ∅
        end in
      let from_data : gmap pystr pyval :=
        match _data with
        | VDict d => d
        | _ => ∅
        end in
      match RedditBase__init__ (lit "name") (Some (lit "_fullname")) own
              from_data with
      | Ok attributes =>
          Ok {| redditor_dict := attributes; redditor_fetched := false |}
      | Raise e => Raise e
      end.

Definition set_attr (attribute : pystr) (v : pyval) (r : Redditor) : Redditor :=
  {| redditor_dict := <[ attribute := v ]> (redditor_dict r);
     redditor_fetched := redditor_fetched r |}.

(** [Redditor.from_data(reddit, data)] for a string [data]: [None] for the
    name of a deleted account, the redditor of that name otherwise. *)
Definition from_data (data : pystr) : outcome (option Redditor) :=
  if bool_decide (data = lit "[deleted]") then Ok None
  else
    match __init__ (Some data) None VNone with
    | Ok r => Ok (Some r)
    | Raise e => Raise e
    end.

Section WithEnv.
Context {E : Env}.

(** [getattr(redditor, attribute)], and [str(redditor)], which is its
    [name]. *)
Definition attr {Self : Type} (r : Redditor) (attribute : pystr)
    : M Self pyval :=
  need AttributeError (redditor_dict r !! attribute).

Definition str {Self : Type} (r : Redditor) : M Self pystr :=
  v <- attr r (lit "name") ;;
  as_str v.

Definition _fetch_username (fullname : pyval) : M Redditor pyval :=
  answer <- reddit_get (API_PATH (lit "user_by_fullname"))
              (Some {[ lit "ids" := fullname ]}) ;;
  match answer with
  | RValue (VDict d) =>
      key <- as_str fullname ;;
      entry <- need KeyError (d !! key) ;;
      entry <- as_dict entry ;;
      need KeyError (entry !! lit "name")
  | _ => raise TypeError
  end.

Definition _fetch_info
    : M Redditor (pystr * list (pystr * pyval) * option (gmap pystr pyval)) :=
  me <- get_self ;;
  match redditor_dict me !! lit "_fullname" with
  | Some fullname =>
      n <- _fetch_username fullname ;;
      modify_self (set_attr (lit "name") n)
  | None => ret tt
  end ;;
  me <- get_self ;;
  n <- attr me (lit "name") ;;
  ret (lit "user_about", [(lit "user", n)], None).

Definition _fetch_data : M Redditor response :=
  info <- _fetch_info ;;
  let '(name, fields, params) := info in
  let path :=
    str_format (API_PATH name)
      (List.map (fun kv => (kv.1, to_str kv.2)) fields) in
  reddit_request GET path params NoBody.

Definition _fetch : M Redditor unit :=
  answer <- _fetch_data ;;
  match answer with
  | RValue (VDict d) =>
      data <- need KeyError (d !! lit "data") ;;
      other <- lift (__init__ None None data) ;;
      modify_self (fun me =>
        {| redditor_dict := redditor_dict other ∪ redditor_dict me;
           redditor_fetched := true |})
  | _ => raise TypeError
  end.

Definition _friend (method : verb) (data : pyval) : M Redditor unit :=
  me <- get_self ;;
  user <- str me ;;
  let url := str_format (API_PATH (lit "friend_v1")) [(lit "user", user)] in
  reddit_request method url None (Raw (dumps data)) ;;
  ret tt.

Definition block : M Redditor unit :=
  me <- get_self ;;
  n <- attr me (lit "name") ;;
  reddit_post (API_PATH (lit "block_user")) (Some {[ lit "name" := n ]}) NoBody ;;
  ret tt.

Definition distrust : M Redditor unit :=
  me <- get_self ;;
  n <- attr me (lit "name") ;;
  reddit_post (API_PATH (lit "remove_whitelisted")) None
    (Form {[ lit "name" := n ]}) ;;
  ret tt.

Definition friend (note : option pystr) : M Redditor unit :=
  _friend PUT
    (match note with
     | Some n => if given note then VDict {[ lit "note" := VStr n ]} else VDict ∅
     | None => VDict ∅
     end).

Definition friend_info : M Redditor response :=
  me <- get_self ;;
  user <- str me ;;
  reddit_get (str_format (API_PATH (lit "friend_v1")) [(lit "user", user)]) None.

Definition gild (months : Z) : M Redditor unit :=
  if (months <? 1)%Z || (36 <? months)%Z then raise TypeError
  else
    me <- get_self ;;
    user <- str me ;;
    reddit_post
      (str_format (API_PATH (lit "gild_user")) [(lit "username", user)]) None
      (Form {[ lit "months" := VInt months ]}) ;;
    ret tt.

Definition moderated : M Redditor response :=
  me <- get_self ;;
  user <- str me ;;
  answer <- reddit_get
    (str_format (API_PATH (lit "moderated")) [(lit "user", user)]) None ;;
  ret (if answer_truthy answer then answer else RList []).

Definition multireddits : M Redditor response :=
  me <- get_self ;;
  user <- str me ;;
  reddit_get
    (str_format (API_PATH (lit "multireddit_user")) [(lit "user", user)]) None.

Definition trophies : M Redditor response :=
  me <- get_self ;;
  user <- str me ;;
  answer <- reddit_get
    (str_format (API_PATH (lit "trophies")) [(lit "user", user)]) None ;;
  need TypeError (answer_list answer).

Definition trust : M Redditor unit :=
  me <- get_self ;;
  n <- attr me (lit "name") ;;
  reddit_post (API_PATH (lit "add_whitelisted")) None
    (Form {[ lit "name" := n ]}) ;;
  ret tt.

(** [user_me] is [self._reddit.user.me()] ([user.py]): it answers the
    authenticated redditor, or [None] in read-only mode, and may call the
    transport to do so. *)
Section WithUser.
Context {F : FullnameMixin Redditor}.
Variable user_me : forall Self : Type, M Self (option Redditor).

Definition unblock : M Redditor unit :=
  container <- user_me Redditor ;;
  container <- need AttributeError container ;;
  me <- get_self ;;
  user <- str me ;;
  let data : gmap pystr pyval :=
    {[ lit "container" := VStr (fullname container);
       lit "name" := VStr user;
       lit "type" := VStr (lit "enemy") ]} in
  let url :=
    str_format (API_PATH (lit "unfriend")) [(lit "subreddit", lit "all")] in
  reddit_post url None (Form data) ;;
  ret tt.

End WithUser.

Definition unfriend : M Redditor unit :=
  me <- get_self ;;
  user <- str me ;;
  _friend DELETE (VDict {[ lit "id" := VStr user ]}).

End WithEnv.
End Redditor.

(* ================================================================== *)
(** * MessageableMixin (mixins/messageable.py) *)
(* ================================================================== *)

Module Messageable.
Section WithEnv.
Context {E : Env} {A : Type}.
(** The class attribute [MESSAGE_PREFIX] (empty when the class has none) and
    [str(self)] of the class the mixin is mixed into. *)
Variable MESSAGE_PREFIX : pystr.
Variable str_self : A -> M A pystr.

Definition message (subject message : pystr)
    (from_subreddit : option (pystr + Subreddit)) : M A unit :=
  me <- get_self ;;
  to <- str_self me ;;
  let data : gmap pystr pyval :=
    {[ lit "subject" := VStr subject;
       lit "text" := VStr message;
       lit "to" := VStr (MESSAGE_PREFIX ++ to) ]} in
  let data : gmap pystr pyval :=
    match from_subreddit with
    | Some (inl s) =>
        if given (Some s) then <[ lit "from_sr" := VStr s ]> data else data
    | Some (inr sub) => <[ lit "from_sr" := VStr (display_name sub) ]> data
    | None => data
    end in
  reddit_post (API_PATH (lit "compose")) None (Form data) ;;
  ret tt.

End WithEnv.
End Messageable.

(* ================================================================== *)
(** * Multireddit (multi.py) *)
(* ================================================================== *)

(** The items [for x in v] runs over; [None] stands for [TypeError]. *)
Definition py_iter (v : pyval) : option (list pyval) :=
  match v with
  | VList l => Some l
  | VStr s => Some (List.map (fun c => VStr [c]) s)
  | VDict d => Some (List.map (fun kv => VStr kv.1) (map_to_list d))
  | _ => None
  end.

Module Multireddit.

Section WithUnicode.
Context {ud : UnicodeData}.

(** [Multireddit.sluggify(title)]. *)
Definition sluggify (title : pystr) : pystr :=
  let title :=
    str_lower (strip underscore (re_sub RE_INVALID [underscore] title)) in
  let title :=
    if (21 <? Z.of_nat (length title))%Z then
      let title := slice_to 21 title in
      let last_word := rfind underscore title in
      if (0 <? last_word)%Z then slice_to last_word title else title
    else title in
  match title with
  | [] => [underscore]
  | _ => title
  end.

End WithUnicode.

Definition set_author (r : Redditor) (m : Multireddit) : Multireddit :=
  {| multi_dict := multi_dict m; _author := r;
     multi_fetched := multi_fetched m |}.

Section WithEnv.
Context {E : Env} {ud : UnicodeData}.

Definition attr {Self : Type} (m : Multireddit) (attribute : pystr)
    : M Self pyval :=
  need AttributeError (multi_dict m !! attribute).

(** [self._reset_attributes] on the given attributes. *)
Definition reset_attributes (attributes : list pystr) : M Multireddit unit :=
  modify_self (fun me =>
    let '(d, fetched) :=
      _reset_attributes attributes (multi_dict me, multi_fetched me) in
    {| multi_dict := d; _author := _author me; multi_fetched := fetched |}).

Definition _ensure_author_fetched : M Multireddit unit :=
  me <- get_self ;;
  if redditor_fetched (_author me) then ret tt
  else zoom _author set_author Redditor._fetch.

Definition add (subreddit : Subreddit) : M Multireddit unit :=
  _ensure_author_fetched ;;
  me <- get_self ;;
  multi <- attr me (lit "name") ;;
  user <- Redditor.str (_author me) ;;
  let url :=
    str_format (API_PATH (lit "multireddit_update"))
      [ (lit "multi", to_str multi); (lit "user", user);
        (lit "subreddit", display_name subreddit) ] in
  reddit_put url
    (Form {[ lit "model" :=
               VStr (dumps (VDict {[ lit "name" :=
                                       VStr (display_name subreddit) ]})) ]}) ;;
  reset_attributes [lit "subreddits"].

(** [load] is [RedditBase.load] ([base.py]) on this multireddit, and
    [user_me] is [self._reddit.user.me()] ([user.py]). *)
Section WithCollaborators.
Variable load : M Multireddit unit.
Variable user_me : forall Self : Type, M Self (option Redditor).

Definition copy (display_name : option pystr) : M Multireddit response :=
  names <-
    (if given display_name then
       let d := default [] display_name in
       ret (VStr d, VStr (sluggify d))
     else
       load ;;
       me <- get_self ;;
       d <- attr me (lit "display_name") ;;
       n <- attr me (lit "name") ;;
       ret (d, n)) ;;
  me <- get_self ;;
  from <- attr me (lit "path") ;;
  user <- user_me Multireddit ;;
  user <- match user with
          | Some r => Redditor.str r
          | None => ret (lit "None")
          end ;;
  let data : gmap pystr pyval :=
    {[ lit "display_name" := names.1;
       lit "from" := from;
       lit "to" :=
         VStr (str_format (API_PATH (lit "multireddit"))
                 [(lit "multi", to_str names.2); (lit "user", user)]) ]} in
  reddit_post (API_PATH (lit "multireddit_copy")) None (Form data).

End WithCollaborators.

Definition delete : M Multireddit unit :=
  _ensure_author_fetched ;;
  me <- get_self ;;
  multi <- attr me (lit "name") ;;
  user <- Redditor.attr (_author me) (lit "name") ;;
  let path :=
    str_format (API_PATH (lit "multireddit_api"))
      [(lit "multi", to_str multi); (lit "user", to_str user)] in
  reddit_delete path NoBody ;;
  ret tt.

Definition remove (subreddit : Subreddit) : M Multireddit unit :=
  _ensure_author_fetched ;;
  me <- get_self ;;
  multi <- attr me (lit "name") ;;
  user <- Redditor.str (_author me) ;;
  let url :=
    str_format (API_PATH (lit "multireddit_update"))
      [ (lit "multi", to_str multi); (lit "user", user);
        (lit "subreddit", display_name subreddit) ] in
  reddit_delete url
    (Form {[ lit "model" :=
               VStr (dumps (VDict {[ lit "name" :=
                                       VStr (display_name subreddit) ]})) ]}) ;;
  reset_attributes [lit "subreddits"].

(** [Multireddit.update] with its keyword arguments; a [Subreddit] among the
    subreddits is given by its display name, which is all the method reads
    of it. *)
Definition update (updated_settings : gmap pystr pyval) : M Multireddit unit :=
  updated_settings <-
    match updated_settings !! lit "subreddits" with
    | Some subs =>
        subs <- need TypeError (py_iter subs) ;;
        ret (<[ lit "subreddits" :=
                  VList (List.map
                           (fun sub => VDict {[ lit "name" := VStr (to_str sub) ]})
                           subs) ]> updated_settings)
    | None => ret updated_settings
    end ;;
  _ensure_author_fetched ;;
  me <- get_self ;;
  multi <- attr me (lit "name") ;;
  user <- Redditor.attr (_author me) (lit "name") ;;
  let path :=
    str_format (API_PATH (lit "multireddit_api"))
      [(lit "multi", to_str multi); (lit "user", to_str user)] in
  new <- reddit_put path
           (Form {[ lit "model" := VStr (dumps (VDict updated_settings)) ]}) ;;
  match new with
  | RMultireddit new =>
      modify_self (fun me =>
        {| multi_dict := multi_dict new ∪ multi_dict me;
           _author := _author new;
           multi_fetched := multi_fetched new |})
  | RRedditor new =>
      modify_self (fun me =>
        {| multi_dict := redditor_dict new ∪ multi_dict me;
           _author := _author me;
           multi_fetched := redditor_fetched new |})
  | _ => raise AttributeError
  end.

End WithEnv.
End Multireddit.

(* ================================================================== *)
(** * The vocabulary of the specification *)
(* ================================================================== *)

(** ** Slugs *)

(** No two adjacent occurrences of the underscore. *)
Fixpoint no_double (s : pystr) : Prop :=
  match s with
  | a :: (b :: _) as r => (a = underscore -> b <> underscore) /\ no_double r
  | _ => True
  end.

Definition slug_char (c : N) : Prop :=
  ascii_isdigit c || ascii_islower c || (c =? underscore)%N = true.

Section SlugVocabulary.
Context {ud : UnicodeData}.

(** What survives the substitution: the underscore, or a character that is
    alphanumeric. *)
Definition kept (c : N) : Prop := c = underscore \/ isalnum c = true.

(** The title once cleaned, before it is truncated. *)
Definition cleaned (title : pystr) : pystr :=
  str_lower (strip underscore (re_sub RE_INVALID [underscore] title)).

Definition truncated (t : pystr) : pystr :=
  if (21 <? Z.of_nat (length t))%Z then
    if (0 <? rfind underscore (slice_to 21 t))%Z
    then slice_to (rfind underscore (slice_to 21 t)) (slice_to 21 t)
    else slice_to 21 t
  else t.

End SlugVocabulary.

(** The slug as the specification words it, for a given database: at most
    21 characters, all of them in [[a-z0-9_]], no underscore at either end
    unless the slug is the single underscore, and the empty title gives the
    single underscore. *)
Definition sluggify_as_specified (ud : UnicodeData) : Prop :=
  forall title,
    length (Multireddit.sluggify title) <= 21
    /\ Forall slug_char (Multireddit.sluggify title)
    /\ (Multireddit.sluggify title = [underscore]
        \/ (head (Multireddit.sluggify title) <> Some underscore
            /\ last (Multireddit.sluggify title) <> Some underscore))
    /\ Multireddit.sluggify [] = [underscore].

(** ** Expansion of placeholders *)

Import More.

Section MoreRequests.
Context {E : Env}.

(** The call a continuation placeholder issues for the comment [cid]. *)
Definition continue_request (sub : Submission) (cid : pystr) : request :=
  {| method := GET;
     path := str_format (API_PATH (lit "submission"))
               [(lit "id", submission_id sub)] ++ lit "_/" ++ cid;
     params := Some {[ lit "limit" := comment_limit sub;
                       lit "sort" := comment_sort sub ]};
     data := NoBody;
     objectify := true |}.

(** The call a batched placeholder with the children [ids] issues. *)
Definition batch_request (sub : Submission) (ids : list pystr) : request :=
  {| method := POST;
     path := API_PATH (lit "morechildren");
     params := None;
     data := Form {[ lit "children" := VStr (join [comma] ids);
                     lit "link_id" := VStr (submission_fullname sub);
                     lit "sort" := comment_sort sub ]};
     objectify := true |}.

(** The sequence a call returns and caches once [fetched] has come back. *)
Definition expanded (update : bool) (sub : Submission) (fetched : list node)
    : list node :=
  if update then List.map (set_submission (Some sub)) fetched else fetched.

End MoreRequests.

(** The invariant of the data model: the count is 0 or more, a placeholder
    with count 0 has no children and one with a count above 0 has some. *)
Definition placeholder_invariant (m : MoreComments) : Prop :=
  exists n, count m = Some n /\ (0 <= n)%Z
            /\ (n = 0%Z -> children m = [])
            /\ ((0 < n)%Z -> children m <> []).

(** Calling [comments] again and again, with the given [update] flags. *)
Fixpoint call_again {E : Env} (updates : list bool) (s : state MoreComments)
    : list (outcome (option (list node))) * state MoreComments :=
  match updates with
  | [] => ([], s)
  | update :: rest =>
      let '(r, s') := comments update s in
      let '(rs, s'') := call_again rest s' in
      (r :: rs, s'')
  end.

(** ** Replies and rules *)

Section ReplyRequests.
Context {E : Env} {A : Type} {F : FullnameMixin A}.

(** The call [reply] issues. *)
Definition reply_request (me : A) (body : pystr) : request :=
  {| method := POST;
     path := API_PATH (lit "comment");
     params := None;
     data := Form {[ lit "text" := VStr body;
                     lit "thing_id" := VStr (fullname me) ]};
     objectify := true |}.

End ReplyRequests.

Section RuleRequests.
Context {E : Env}.

(** The call [reorder] issues for the order string [order]. *)
Definition reorder_request (sub : Subreddit) (order : pystr) : request :=
  {| method := POST;
     path := API_PATH (lit "reorder_subreddit_rules");
     params := None;
     data := Form {[ lit "r" := VStr (display_name sub);
                     lit "new_rule_order" := VStr order ]};
     objectify := true |}.

End RuleRequests.

(** A rule named [n]. *)
Definition named (rule : Rule) (n : pystr) : Prop :=
  rule_dict rule !! lit "short_name" = Some (VStr n).

(** What [update] submits for the parameter [name] given [value]: the value
    itself, or the attribute of the rule when the value is [None]. *)
Definition submitted (rule : Rule) (name : pystr) (value : option pystr)
    : option pyval :=
  match value with
  | Some v => Some (VStr v)
  | None => rule_dict rule !! name
  end.

(** ** The operations of the Redditor, Multireddit and rule classes *)

(** The coroutines of redditor.py, multi.py and rules.py that a caller may
    await, indexed by the type of their receiver.  [Redditor_message] is
    [MessageableMixin.message] as [Redditor] inherits it. *)
Inductive operation : Type -> Type :=
  | Redditor_block : operation Redditor
  | Redditor_distrust : operation Redditor
  | Redditor_friend (note : option pystr) : operation Redditor
  | Redditor_friend_info : operation Redditor
  | Redditor_gild (months : Z) : operation Redditor
  | Redditor_moderated : operation Redditor
  | Redditor_multireddits : operation Redditor
  | Redditor_trophies : operation Redditor
  | Redditor_trust : operation Redditor
  | Redditor_unblock : operation Redditor
  | Redditor_unfriend : operation Redditor
  | Redditor_message (subject message : pystr)
      (from_subreddit : option (pystr + Subreddit)) : operation Redditor
  | Multireddit_add (subreddit : Subreddit) : operation Multireddit
  | Multireddit_copy (display_name : option pystr) : operation Multireddit
  | Multireddit_delete : operation Multireddit
  | Multireddit_remove (subreddit : Subreddit) : operation Multireddit
  | Multireddit_update (updated_settings : gmap pystr pyval)
      : operation Multireddit
  | RuleModeration_delete : operation Rule
  | RuleModeration_update
      (description kind short_name violation_reason : option pystr)
      : operation Rule
  | SubredditRules_call : operation Rules.SubredditRules
  | SubredditRules_aiter : operation Rules.SubredditRules
  | SubredditRules_get_rule (short_name : Rules.rule_key)
      : operation Rules.SubredditRules
  | SubredditRulesModeration_add (short_name kind description : pystr)
      (violation_reason : option pystr) : operation Rules.SubredditRules
  | SubredditRulesModeration_reorder (rule_list : list Rule)
      : operation Rules.SubredditRules.

(** What an operation returns. *)
Inductive returned :=
  | PyNone
  | Answer (r : response)
  | TheRule (r : Rule)
  | TheRules (l : list Rule)
  | Found (f : Rules.rules_found).

Definition verb_of {Self : Type} (op : operation Self) : verb :=
  match op with
  | Redditor_friend_info | Redditor_moderated | Redditor_multireddits
  | Redditor_trophies | SubredditRules_call | SubredditRules_aiter
  | SubredditRules_get_rule _ => GET
  | Redditor_friend _ | Multireddit_add _ | Multireddit_update _ => PUT
  | Redditor_unfriend | Multireddit_delete | Multireddit_remove _ => DELETE
  | _ => POST
  end.

(** What a call carries besides its path: nothing, a dict of query
    parameters, a dict of form data, or a JSON string. *)
Inductive payload := no_payload | query_params | form_data | json_string | mixed.

Definition payload_of_request (r : request) : payload :=
  match params r, data r with
  | None, NoBody => no_payload
  | Some _, NoBody => query_params
  | None, Form _ => form_data
  | None, Raw _ => json_string
  | Some _, _ => mixed
  end.

Definition payload_of {Self : Type} (op : operation Self) : payload :=
  match op with
  | Redditor_friend_info | Redditor_moderated | Redditor_multireddits
  | Redditor_trophies | Multireddit_delete | SubredditRules_call
  | SubredditRules_aiter | SubredditRules_get_rule _ => no_payload
  | Redditor_block => query_params
  | Redditor_friend _ | Redditor_unfriend => json_string
  | _ => form_data
  end.

Section Operations.
Context {E : Env} {ud : UnicodeData} {F : FullnameMixin Redditor}.
Variable user_me : forall Self : Type, M Self (option Redditor).
Variable load : M Multireddit unit.

Definition none {Self : Type} (c : M Self unit) : M Self returned :=
  c ;; ret PyNone.

(** Awaiting an operation on its receiver. *)
Definition perform {Self : Type} (op : operation Self) : M Self returned :=
  match op in operation Self return M Self returned with
  | Redditor_block => none Redditor.block
  | Redditor_distrust => none Redditor.distrust
  | Redditor_friend note => none (Redditor.friend note)
  | Redditor_friend_info => r <- Redditor.friend_info ;; ret (Answer r)
  | Redditor_gild months => none (Redditor.gild months)
  | Redditor_moderated => r <- Redditor.moderated ;; ret (Answer r)
  | Redditor_multireddits => r <- Redditor.multireddits ;; ret (Answer r)
  | Redditor_trophies => r <- Redditor.trophies ;; ret (Answer r)
  | Redditor_trust => none Redditor.trust
  | Redditor_unblock => none (Redditor.unblock user_me)
  | Redditor_unfriend => none Redditor.unfriend
  | Redditor_message subject message from_subreddit =>
      none (Messageable.message [] Redditor.str subject message from_subreddit)
  | Multireddit_add subreddit => none (Multireddit.add subreddit)
  | Multireddit_copy display_name =>
      r <- Multireddit.copy load user_me display_name ;; ret (Answer r)
  | Multireddit_delete => none Multireddit.delete
  | Multireddit_remove subreddit => none (Multireddit.remove subreddit)
  | Multireddit_update updated_settings =>
      none (Multireddit.update updated_settings)
  | RuleModeration_delete => none Rules.delete
  | RuleModeration_update description kind short_name violation_reason =>
      r <- Rules.update description kind short_name violation_reason ;;
      ret (TheRule r)
  | SubredditRules_call => r <- Rules.__call__ ;; ret (Answer r)
  | SubredditRules_aiter => l <- Rules.__aiter__ ;; ret (TheRules l)
  | SubredditRules_get_rule short_name =>
      f <- Rules.get_rule short_name ;; ret (Found f)
  | SubredditRulesModeration_add short_name kind description violation_reason =>
      r <- Rules.add short_name kind description violation_reason ;;
      ret (TheRule r)
  | SubredditRulesModeration_reorder rule_list =>
      l <- Rules.reorder rule_list ;; ret (TheRules l)
  end.

(** The redditor has a [name], a string. *)
Definition has_name (r : Redditor) : Prop :=
  exists n, redditor_dict r !! lit "name" = Some (VStr n).

(** The author of the multireddit is fetched and the names the method
    formats into its path are there. *)
Definition author_ready (m : Multireddit) : Prop :=
  redditor_fetched (_author m) = true
  /\ has_name (_author m)
  /\ is_Some (multi_dict m !! lit "name").

(** [user_me] answers from its cache, with a redditor that has a name, or
    with [None]. *)
Definition user_cached {Self : Type} (s : state Self) (must_exist : bool)
    : Prop :=
  exists u, user_me Self s = (Ok u, s)
            /\ match u with
               | Some r => has_name r
               | None => must_exist = false
               end.

(** The conditions under which an operation gets to its own call: its
    arguments pass its validation, the attributes it reads are there, and
    the objects it depends on are loaded already. *)
Definition ready {Self : Type} (op : operation Self) : state Self -> Prop :=
  match op in operation Self return state Self -> Prop with
  | Redditor_gild months =>
      fun s => has_name (self s) /\ (1 <= months <= 36)%Z
  | Redditor_unblock => fun s => has_name (self s) /\ user_cached s true
  | Redditor_block | Redditor_distrust | Redditor_friend _
  | Redditor_friend_info | Redditor_moderated | Redditor_multireddits
  | Redditor_trophies | Redditor_trust | Redditor_unfriend
  | Redditor_message _ _ _ => fun s => has_name (self s)
  | Multireddit_add _ | Multireddit_remove _ | Multireddit_delete =>
      fun s => author_ready (self s)
  | Multireddit_update updated_settings =>
      fun s => author_ready (self s)
               /\ match updated_settings !! lit "subreddits" with
                  | Some subs => is_Some (py_iter subs)
                  | None => True
                  end
  | Multireddit_copy display_name =>
      fun s => is_Some (multi_dict (self s) !! lit "path")
               /\ user_cached s false
               /\ (given display_name = true
                   \/ (load s = (Ok tt, s)
                       /\ is_Some (multi_dict (self s) !! lit "display_name")
                       /\ is_Some (multi_dict (self s) !! lit "name")))
  | RuleModeration_delete =>
      fun s => is_Some (rule_subreddit (self s))
               /\ is_Some (rule_dict (self s) !! lit "short_name")
  | RuleModeration_update description kind short_name violation_reason =>
      fun s => is_Some (rule_subreddit (self s))
               /\ is_Some (rule_dict (self s) !! lit "short_name")
               /\ is_Some (submitted (self s) (lit "description") description)
               /\ is_Some (submitted (self s) (lit "kind") kind)
               /\ is_Some (submitted (self s) (lit "short_name") short_name)
               /\ is_Some (submitted (self s) (lit "violation_reason")
                             violation_reason)
  | SubredditRulesModeration_reorder rule_list =>
      fun s => exists names,
                 Forall2 named rule_list names
                 /\ is_Some (quote [comma] (join [comma] names))
  | SubredditRules_get_rule key =>
      fun _ => match key with
               | Rules.ByName short_name => short_name <> []
               | _ => True
               end
  | SubredditRules_call | SubredditRules_aiter
  | SubredditRulesModeration_add _ _ _ _ => fun _ => True
  end.

(** The loop of [Rule._fetch] as a function: the receiver once the first
    rule of its name is found among [rules]. *)
Fixpoint scan (mine : Rule) (rules : list Rule) : exn + Rule :=
  match rules with
  | [] =>
      match rule_dict mine !! lit "short_name" with
      | Some _ => inl ClientException
      | None => inl AttributeError
      end
  | rule :: rest =>
      match rule_dict rule !! lit "short_name",
            rule_dict mine !! lit "short_name" with
      | Some theirs, Some my =>
          if Rules.py_eq theirs my
          then inr {| rule_dict := rule_dict rule ∪ rule_dict mine;
                      rule_subreddit := rule_subreddit rule;
                      rule_fetched := true |}
          else scan mine rest
      | _, _ => inl AttributeError
      end
  end.

(** What an operation returns once its call is answered with [answer];
    [None] when it raises on that answer. *)
Definition returns {Self : Type} (op : operation Self)
    : Self -> response -> option returned :=
  match op in operation Self return Self -> response -> option returned with
  | Redditor_friend_info | Redditor_multireddits =>
      fun _ answer => Some (Answer answer)
  | Multireddit_copy _ => fun _ answer => Some (Answer answer)
  | SubredditRules_call => fun _ answer => Some (Answer answer)
  | Redditor_moderated =>
      fun _ answer =>
        Some (Answer (if answer_truthy answer then answer else RList []))
  | Redditor_trophies => fun _ answer => Answer <$> answer_list answer
  | Multireddit_update _ =>
      fun _ answer =>
        match answer with
        | RMultireddit _ | RRedditor _ => Some PyNone
        | _ => None
        end
  | RuleModeration_update _ _ _ _ =>
      fun me answer =>
        match answer with
        | RRules (rule :: _) =>
            Some (TheRule (Rules.set_rule_subreddit (rule_subreddit me) rule))
        | _ => None
        end
  | SubredditRulesModeration_add _ _ _ _ =>
      fun me answer =>
        match answer with
        | RRules (rule :: _) =>
            Some (TheRule (Rules.set_rule_subreddit
                             (Some (Rules.subreddit me)) rule))
        | _ => None
        end
  | SubredditRules_aiter | SubredditRulesModeration_reorder _ =>
      fun me answer =>
        match answer with
        | RRules l =>
            Some (TheRules (List.map (Rules.set_rule_subreddit
                                        (Some (Rules.subreddit me))) l))
        | _ => None
        end
  | SubredditRules_get_rule key =>
      fun me answer =>
        match answer with
        | RRules l =>
            let rules := List.map (Rules.set_rule_subreddit
                                     (Some (Rules.subreddit me))) l in
            match key with
            | Rules.ByNumber i =>
                (fun r => Found (Rules.OneRule r)) <$> PySeq.index rules i
            | Rules.BySlice start stop step =>
                (fun l => Found (Rules.SomeRules l))
                  <$> PySeq.slice rules start stop step
            | Rules.ByName short_name =>
                match Rules.Rule__init__ (Some (Rules.subreddit me))
                        (Some short_name) None with
                | Ok rule =>
                    match scan rule rules with
                    | inr found => Some (Found (Rules.OneRule found))
                    | inl _ => None
                    end
                | Raise _ => None
                end
            end
        | _ => None
        end
  | _ => fun _ _ => Some PyNone
  end.

End Operations.

(** C6 as the specification words it, local validation set aside as its
    sections 4.2 and 7 do: every operation that is ready issues exactly one
    call, which carries a dict or a string of parameters, and returns what
    the transport answered. *)
Definition operations_as_specified (E : Env) (ud : UnicodeData)
    (F : FullnameMixin Redditor)
    (user_me : forall Self : Type, M Self (option Redditor))
    (load : M Multireddit unit) : Prop :=
  forall (Self : Type) (op : operation Self) (s : state Self),
  ready user_me load op s ->
  exists r,
    log (perform user_me load op s).2 = log s ++ [r]
    /\ payload_of_request r <> no_payload
    /\ forall answer net',
         send r (net s) = (inr answer, net') ->
         (perform user_me load op s).1 = Ok (Answer answer).

(* ================================================================== *)
(** * Further vocabulary: requests, arguments and escaped strings *)
(* ================================================================== *)

Section FurtherRequests.
Context {E : Env}.

(** The call that lists the rules of a subreddit. *)
Definition rules_request (sub : Subreddit) : request :=
  {| method := GET;
     path := str_format (API_PATH (lit "rules"))
               [(lit "subreddit", display_name sub)];
     params := None;
     data := NoBody;
     objectify := true |}.

(** The call that fetches the redditor named [n]. *)
Definition about_request (n : pystr) : request :=
  {| method := GET;
     path := str_format (API_PATH (lit "user_about")) [(lit "user", n)];
     params := None;
     data := NoBody;
     objectify := false |}.

(** The call that looks up the name behind a fullname. *)
Definition username_request (fullname : pyval) : request :=
  {| method := GET;
     path := API_PATH (lit "user_by_fullname");
     params := Some {[ lit "ids" := fullname ]};
     data := NoBody;
     objectify := true |}.

(** The call a vote in the given direction issues. *)
Definition vote_request {A : Type} {F : FullnameMixin A} (me : A)
    (direction : Z) : request :=
  {| method := POST;
     path := API_PATH (lit "vote");
     params := None;
     data := Form {[ lit "dir" := VStr (to_str (VInt direction));
                     lit "id" := VStr (fullname me) ]};
     objectify := true |}.

End FurtherRequests.

(** How many of the three arguments of [Redditor] are given. *)
Definition provided (name fullname : option pystr) (_data : pyval) : nat :=
  (if name is Some _ then 1 else 0)
  + (if fullname is Some _ then 1 else 0)
  + (if _data is VNone then 0 else 1).

(** The characters of an escaped string: unreserved ones, the comma and the
    percent sign. *)
Definition url_safe (c : N) : Prop :=
  always_safe c = true \/ c = comma \/ c = 37%N.

(** A rule of the listing that [get_rule] passes over when it looks for the
    name [n]: it has a short name, which is not [n]. *)
Definition another_rule (n : pystr) (rule : Rule) : Prop :=
  is_Some (rule_dict rule !! lit "short_name") /\ ~ named rule n.

(* ================================================================== *)
(** * A transport that plays back recorded answers *)
(* ================================================================== *)

(** A transport for the examples: it answers each call with the next
    recorded answer, whatever the call, and fails once the recording is
    exhausted.  Path templates are their own keys, and a formatted path is
    the template followed by the values of its fields. *)
Definition playback : Env :=
  {| transport := list (upstream_exn + response);
     send := fun _ recording =>
       match recording with
       | [] => (inl ServerError, [])
       | answer :: rest => (answer, rest)
       end;
     API_PATH := fun key => key;
     str_format := fun template fields =>
       template ++ List.concat (List.map (fun kv => 47%N :: kv.2) fields);
     dumps := fun _ => lit "{}";
     py_str := fun _ => lit "?";
     _reset_attributes := fun _ st => st |}.

Definition recording (answers : list (upstream_exn + response))
    : @transport playback := answers.

(** The receivers of the examples. *)
Definition a_submission : Submission :=
  {| submission_id := lit "5or86n";
     submission_fullname := lit "t3_5or86n";
     comment_limit := VInt 2048;
     comment_sort := VStr (lit "confidence") |}.

Definition a_reply : node := CommentNode (lit "dxolpyd") None [].

Definition a_continuation : state (E := playback) MoreComments :=
  {| self := {| count := Some 0%Z;
                parent_id := Some (lit "t1_dxolpyc");
                children := [];
                _comments := None;
                submission := Some a_submission |};
     net := recording
              [inr (RCommentPage [CommentNode (lit "dxolpyc") None [a_reply]])];
     log := [] |}.

Definition a_page : upstream_exn + response :=
  inr (RCommentPage [CommentNode (lit "dxolpyc") None [a_reply]]).

Definition a_batch : state (E := playback) MoreComments :=
  {| self := {| count := Some 3%Z;
                parent_id := Some (lit "t1_dxolpyc");
                children := [lit "a"; lit "b"; lit "c"];
                _comments := None;
                submission := Some a_submission |};
     net := recording [inr (RNodes [a_reply])];
     log := [] |}.

(** A comment as the receiver of [reply]. *)
Definition comment_fullname : FullnameMixin node :=
  fun n => match n with
           | CommentNode id _ _ => lit "t1_" ++ id
           | MoreNode _ _ _ _ => lit "t1__"
           end.

Definition replying (answer : upstream_exn + response)
    : state (E := playback) node :=
  {| self := a_reply; net := recording [answer]; log := [] |}.

Definition rule_named (n : pystr) : Rule :=
  {| rule_dict := {[ lit "short_name" := VStr n ]};
     rule_subreddit := None;
     rule_fetched := false |}.

Definition reordering : state (E := playback) Rules.SubredditRules :=
  {| self := {| Rules.subreddit := {| display_name := lit "test" |} |};
     net := recording
       [inr (RRules [rule_named (lit "r3"); rule_named (lit "r1");
                     rule_named (lit "r2")])];
     log := [] |}.

Definition a_rule : Rule :=
  {| rule_dict := {[ lit "short_name" := VStr (lit "No spam");
                     lit "kind" := VStr (lit "all");
                     lit "description" := VStr (lit "Do not spam");
                     lit "violation_reason" := VStr (lit "Spam") ]};
     rule_subreddit := Some {| display_name := lit "test" |};
     rule_fetched := true |}.

Definition updating : state (E := playback) Rule :=
  {| self := a_rule; net := recording [inr (RRules [a_rule])]; log := [] |}.

(** The receivers of the examples: the redditor spez, the authenticated
    redditor, and the multireddit bboe/test with its author by name only. *)
Definition spez : Redditor :=
  {| redditor_dict := {[ lit "name" := VStr (lit "spez") ]};
     redditor_fetched := false |}.

Definition bboe (fetched : bool) : Redditor :=
  {| redditor_dict := {[ lit "name" := VStr (lit "bboe") ]};
     redditor_fetched := fetched |}.

Definition bboe_test (author_fetched : bool) : Multireddit :=
  {| multi_dict := {[ lit "name" := VStr (lit "test");
                      lit "path" := VStr (lit "/user/bboe/m/test") ]};
     _author := bboe author_fetched;
     multi_fetched := false |}.

Definition redditor_fullname : FullnameMixin Redditor :=
  fun r => lit "t2_" ++ match redditor_dict r !! lit "id" with
                        | Some (VStr id) => id
                        | _ => []
                        end.

(** [user.me()] answering from its cache. *)
Definition me_cached (Self : Type) : M (E := playback) Self (option Redditor) :=
  ret (Some (bboe true)).

Definition loaded : M (E := playback) Multireddit unit := ret tt.

Definition on {Self : Type} (me : Self)
    (answers : list (upstream_exn + response)) : state (E := playback) Self :=
  {| self := me; net := recording answers; log := [] |}.

(** Further receivers of the examples: placeholders without a submission,
    the rules of r/test, a rule without attributes and a redditor known by
    fullname only. *)
Definition placeholder (n : Z) (ids : list pystr) : MoreComments :=
  __init__ (Some n) (Some (lit "t1_dxolpyc")) (Some ids).

Definition r_test : Subreddit := {| display_name := lit "test" |}.

Definition three_rules : list Rule :=
  [rule_named (lit "r1"); rule_named (lit "r2"); rule_named (lit "r3")].

Definition test_rules : state (E := playback) Rules.SubredditRules :=
  on {| Rules.subreddit := r_test |} [inr (RRules three_rules)].

Definition listed (n : pystr) : Rule :=
  Rules.set_rule_subreddit (Some r_test) (rule_named n).

Definition a_blank_rule : Rule :=
  {| rule_dict := ∅; rule_subreddit := Some r_test; rule_fetched := false |}.

Definition about_spez : upstream_exn + response :=
  inr (RValue (VDict {[ lit "data" :=
         VDict {[ lit "name" := VStr (lit "spez");
                  lit "id" := VStr (lit "1w72") ]} ]})).

Definition by_fullname : Redditor :=
  {| redditor_dict := {[ lit "_fullname" := VStr (lit "t2_1w72") ]};
     redditor_fetched := false |}.

Definition names_of_1w72 : upstream_exn + response :=
  inr (RValue (VDict {[ lit "t2_1w72" :=
         VDict {[ lit "name" := VStr (lit "spez") ]} ]})).

(** [load] failing with a refusal of the transport. *)
Definition refused : M (E := playback) Multireddit unit :=
  raise (Upstream Forbidden).

(* ================================================================== *)
(** * Properties of the string functions *)
(* ================================================================== *)

Section StringFacts.

Lemma no_double_tail {a s} : no_double (a :: s) -> no_double s.
Proof. destruct s; simpl; tauto. Qed.

Lemma no_double_app_r {p s} : no_double (p ++ s) -> no_double s.
Proof.
  induction p as [|a p IH]; [done|].
  intros Hd. apply IH. exact (no_double_tail Hd).
Qed.

Lemma no_double_app_l {p s} : no_double (p ++ s) -> no_double p.
Proof.
  induction p as [|a p IH]; [done|].
  destruct p as [|b p]; [done|].
  simpl. intros [Hab Hd]. split; [exact Hab|]. apply IH. exact Hd.
Qed.

Lemma no_double_before {p q} :
  no_double (p ++ underscore :: q) -> last p <> Some underscore.
Proof.
  induction p as [|a p IH]; [done|].
  destruct p as [|b p].
  - simpl. intros [Ha _] [= ->]. by apply Ha.
  - intros Hd. rewrite last_cons_cons. apply IH. exact (no_double_tail Hd).
Qed.

Lemma no_double_clean_app p s :
  ~ In underscore p -> no_double s -> no_double (p ++ s).
Proof.
  induction p as [|a p IH]; [done|].
  intros Hin Hs. simpl in Hin.
  assert (Ha : a <> underscore) by (intros ->; tauto).
  assert (Hp : ~ In underscore p) by tauto.
  specialize (IH Hp Hs).
  change ((a :: p) ++ s) with (a :: (p ++ s)).
  destruct (p ++ s) eqn:Heq; [done|].
  split; [intros ->; done | exact IH].
Qed.

Lemma no_double_take n s : no_double s -> no_double (take n s).
Proof.
  intros Hd. rewrite <- (take_drop n s) in Hd. exact (no_double_app_l Hd).
Qed.

(** [rfind_from] answers [found] when [c] does not occur, and the index of
    its last occurrence otherwise. *)
Lemma rfind_from_spec c s i found :
  (~ In c s /\ rfind_from c s i found = found)
  \/ (exists p q, s = p ++ c :: q /\ ~ In c q
                 /\ rfind_from c s i found = (i + Z.of_nat (length p))%Z).
Proof.
  revert i found. induction s as [|a r IH]; intros i found.
  - left. split; [intros [] | done].
  - simpl. destruct (IH (i + 1)%Z (if (a =? c)%N then i else found))
      as [[Hnot Heq] | (p & q & -> & Hq & Heq)].
    + destruct (N.eqb_spec a c) as [-> | Hne].
      * right. exists [], r. rewrite Heq. simpl. split_and!; [done|done|lia].
      * left. split; [|done]. intros [H|H]; [done | by apply Hnot].
    + right. exists (a :: p), q. split_and!; [done|done|].
      rewrite Heq. simpl length. lia.
Qed.

Lemma lstrip_suffix c s : exists p, s = p ++ lstrip c s.
Proof.
  induction s as [|a r [p Hp]]; [by exists []|].
  simpl. destruct (a =? c)%N.
  - exists (a :: p). simpl. by f_equal.
  - by exists [].
Qed.

Lemma lstrip_head c s : head (lstrip c s) <> Some c.
Proof.
  induction s as [|a r IH]; [done|].
  simpl. destruct (N.eqb_spec a c) as [-> | Hne]; [done|].
  simpl. by intros [= ->].
Qed.

Lemma rstrip_prefix c s : exists q, s = rstrip c s ++ q.
Proof.
  unfold rstrip. destruct (lstrip_suffix c (reverse s)) as [p Hp].
  exists (reverse p).
  rewrite <- reverse_app, <- Hp. by rewrite reverse_involutive.
Qed.

Lemma rstrip_last c s : last (rstrip c s) <> Some c.
Proof. unfold rstrip. rewrite last_reverse. apply lstrip_head. Qed.

Lemma head_prefix (p q : pystr) c :
  head p = Some c -> head (p ++ q) = Some c.
Proof. by destruct p. Qed.

Lemma strip_edges c s :
  head (strip c s) <> Some c /\ last (strip c s) <> Some c.
Proof.
  unfold strip. split; [|apply rstrip_last].
  destruct (rstrip_prefix c (lstrip c s)) as [q Hq].
  intros Hh. apply (lstrip_head c s). rewrite Hq. by apply head_prefix.
Qed.

Lemma strip_infix c s : exists p q, s = p ++ strip c s ++ q.
Proof.
  unfold strip. destruct (lstrip_suffix c s) as [p Hp].
  destruct (rstrip_prefix c (lstrip c s)) as [q Hq].
  exists p, q. by rewrite <- Hq.
Qed.

End StringFacts.

Section SluggifyFacts.
Context {ud : UnicodeData}.

Lemma RE_INVALID_false c : RE_INVALID c = false -> c <> underscore /\ isalnum c = true.
Proof.
  unfold RE_INVALID, re_word.
  destruct (N.eqb_spec c underscore) as [-> | Hne]; [by rewrite orb_true_r|].
  rewrite !orb_false_r. intros H%negb_false_iff. done.
Qed.

Lemma re_sub_runs_shape s :
  (no_double (re_sub_runs RE_INVALID [underscore] true s)
   /\ head (re_sub_runs RE_INVALID [underscore] true s) <> Some underscore)
  /\ no_double (re_sub_runs RE_INVALID [underscore] false s).
Proof.
  induction s as [|c r [[IHt IHh] IHf]]; [done|].
  simpl. destruct (RE_INVALID c) eqn:Hc.
  - simpl. split; [done|].
    destruct (re_sub_runs RE_INVALID [underscore] true r) eqn:Hr; [done|].
    split; [|done]. intros _ ->. by apply IHh.
  - apply RE_INVALID_false in Hc as [Hne _].
    assert (no_double (c :: re_sub_runs RE_INVALID [underscore] false r)).
    { destruct (re_sub_runs RE_INVALID [underscore] false r); [done|].
      split; [done|done]. }
    split_and!; [done | by intros [= ->] | done].
Qed.

Lemma re_sub_runs_kept b s :
  Forall kept (re_sub_runs RE_INVALID [underscore] b s).
Proof.
  revert b. induction s as [|c r IH]; intros b; [constructor|].
  simpl. destruct (RE_INVALID c) eqn:Hc.
  - destruct b; simpl; [apply IH|]. constructor; [by left | apply IH].
  - constructor; [|apply IH]. right. by apply RE_INVALID_false in Hc as [_ ?].
Qed.

Lemma re_sub_runs_ascii b s :
  Forall is_ascii s -> Forall is_ascii (re_sub_runs RE_INVALID [underscore] b s).
Proof.
  revert b. induction s as [|c r IH]; intros b Hs; [constructor|].
  inversion Hs as [|? ? Hc Hr]; subst. simpl. destruct (RE_INVALID c).
  - destruct b; simpl; [by apply IH|].
    constructor; [unfold is_ascii, underscore; lia | by apply IH].
  - constructor; [done | by apply IH].
Qed.

Context {laws : UnicodeLaws ud}.

Lemma lower_underscore before after :
  lower_ucs4 before underscore after = [underscore].
Proof. by rewrite lower_ascii by (unfold is_ascii, underscore; lia). Qed.

Lemma lower_kept before c after :
  kept c -> c <> underscore ->
  lower_ucs4 before c after <> [] /\ ~ In underscore (lower_ucs4 before c after).
Proof. intros [->|Hc] Hne; [done|]. by apply lower_alnum. Qed.

Lemma lower_from_nil before s :
  Forall kept s -> lower_from before s = [] -> s = [].
Proof.
  destruct s as [|c r]; [done|]. simpl.
  intros Hk [Hp _]%app_eq_nil. inversion Hk as [|? ? Hc _]; subst.
  destruct (N.eq_dec c underscore) as [-> | Hne].
  - by rewrite lower_underscore in Hp.
  - by destruct (lower_kept before c r Hc Hne).
Qed.

Lemma lower_from_head before s :
  Forall kept s -> head s <> Some underscore ->
  head (lower_from before s) <> Some underscore.
Proof.
  destruct s as [|c r]; [done|]. simpl. intros Hk Hh.
  inversion Hk as [|? ? Hc _]; subst.
  assert (Hne : c <> underscore) by (intros ->; done).
  destruct (lower_kept before c r Hc Hne) as [Hnil Hin].
  destruct (lower_ucs4 before c r) as [|a p]; [done|].
  simpl. intros [= ->]. apply Hin. by left.
Qed.

Lemma lower_from_no_double before s :
  Forall kept s -> no_double s -> no_double (lower_from before s).
Proof.
  revert before. induction s as [|c r IH]; intros before Hk Hd; [done|].
  inversion Hk as [|? ? Hc Hr]; subst. simpl.
  specialize (IH (before ++ [c]) Hr (no_double_tail Hd)).
  destruct (N.eq_dec c underscore) as [-> | Hne].
  - rewrite lower_underscore. simpl.
    destruct (lower_from (before ++ [underscore]) r) eqn:Hl; [done|].
    split; [|done]. intros _ ->.
    apply (lower_from_head (before ++ [underscore]) r Hr).
    + destruct r as [|b r]; [done|]. simpl in Hd. destruct Hd as [Hb _].
      intros [= ->]. by apply Hb.
    + by rewrite Hl.
  - destruct (lower_kept before c r Hc Hne) as [_ Hin].
    by apply no_double_clean_app.
Qed.

Lemma lower_from_last before s :
  Forall kept s -> last s <> Some underscore ->
  last (lower_from before s) <> Some underscore.
Proof.
  revert before. induction s as [|c r IH]; intros before Hk Hl; [done|].
  inversion Hk as [|? ? Hc Hr]; subst. simpl.
  rewrite last_app.
  destruct (last (lower_from (before ++ [c]) r)) as [y|] eqn:Hy.
  - destruct r as [|b r]; [done|].
    rewrite last_cons_cons in Hl. rewrite <- Hy. by apply IH.
  - apply last_None, (lower_from_nil _ _ Hr) in Hy. subst r.
    assert (Hne : c <> underscore) by (intros ->; done).
    destruct (lower_kept before c [] Hc Hne) as [_ Hin].
    intros Hs. apply Hin. apply list_elem_of_In. by apply last_Some_elem_of.
Qed.

Lemma sluggify_unfold title :
  Multireddit.sluggify title =
  match truncated (cleaned title) with
  | [] => [underscore]
  | _ => truncated (cleaned title)
  end.
Proof. reflexivity. Qed.

Lemma cleaned_tidy title :
  head (cleaned title) <> Some underscore
  /\ last (cleaned title) <> Some underscore
  /\ no_double (cleaned title).
Proof.
  unfold cleaned, str_lower, re_sub.
  set (t1 := re_sub_runs RE_INVALID [underscore] false title).
  assert (Hk1 : Forall kept t1) by apply re_sub_runs_kept.
  assert (Hd1 : no_double t1) by apply re_sub_runs_shape.
  destruct (strip_infix underscore t1) as (p & q & Ht).
  destruct (strip_edges underscore t1) as [Hh Hl].
  assert (Hk2 : Forall kept (strip underscore t1)).
  { rewrite Ht in Hk1. by apply Forall_app in Hk1 as [_ [? _]%Forall_app]. }
  assert (Hd2 : no_double (strip underscore t1)).
  { rewrite Ht in Hd1. exact (no_double_app_l (no_double_app_r Hd1)). }
  split_and!.
  - by apply lower_from_head.
  - by apply lower_from_last.
  - by apply lower_from_no_double.
Qed.

Lemma truncated_length t : length (truncated t) <= 21.
Proof.
  unfold truncated, slice_to.
  destruct (Z.ltb_spec 21 (Z.of_nat (length t))) as [Hlong | Hshort]; [|lia].
  destruct (0 <? _)%Z; rewrite ?length_take; lia.
Qed.

Lemma truncated_tidy t :
  head t <> Some underscore -> last t <> Some underscore -> no_double t ->
  head (truncated t) <> Some underscore
  /\ last (truncated t) <> Some underscore.
Proof.
  intros Hh Hl Hd. unfold truncated, slice_to.
  destruct (21 <? Z.of_nat (length t))%Z; [|done].
  set (t' := take (Z.to_nat 21) t).
  assert (Hh' : head t' <> Some underscore).
  { subst t'. destruct t; [done|]. exact Hh. }
  assert (Hd' : no_double t') by by apply no_double_take.
  unfold rfind.
  destruct (rfind_from_spec underscore t' 0 (-1))
    as [[Hnot ->] | (p & q & Hpq & _ & ->)].
  - simpl. split; [done|]. intros Hs. apply Hnot.
    apply list_elem_of_In. by apply last_Some_elem_of.
  - destruct (Z.ltb_spec 0 (0 + Z.of_nat (length p))) as [Hpos | Hzero].
    + replace (Z.to_nat (0 + Z.of_nat (length p))) with (length p) by lia.
      rewrite Hpq, take_app_length. split.
      * rewrite Hpq in Hh'. destruct p; [simpl in Hpos; lia | exact Hh'].
      * rewrite Hpq in Hd'. exact (no_double_before Hd').
    + destruct p; [|simpl in Hzero; lia].
      rewrite Hpq in Hh'. done.
Qed.

Lemma lower_from_slug before s :
  Forall is_ascii s -> Forall kept s -> Forall slug_char (lower_from before s).
Proof.
  revert before. induction s as [|c r IH]; intros before Ha Hk; [constructor|].
  inversion Ha as [|? ? Hc Hr]; inversion Hk as [|? ? Hkc Hkr]; subst.
  simpl. rewrite lower_ascii by done. constructor; [|by apply IH].
  unfold slug_char, ascii_tolower.
  destruct Hkc as [-> | Hal]; [done|].
  rewrite (isalnum_ascii c Hc) in Hal.
  unfold ascii_isalnum, ascii_isdigit, ascii_isupper, ascii_islower, underscore in *.
  destruct (65 <=? c)%N eqn:H1, (c <=? 90)%N eqn:H2; simpl in *;
    repeat match goal with
    | |- context [(?a <=? ?b)%N] => destruct (N.leb_spec a b)
    | H : context [(?a <=? ?b)%N] |- _ => destruct (N.leb_spec a b)
    | |- context [(?a =? ?b)%N] => destruct (N.eqb_spec a b)
    end; simpl in *; try done; try lia.
Qed.

Lemma cleaned_slug title :
  Forall is_ascii title -> Forall slug_char (cleaned title).
Proof.
  intros Ha. unfold cleaned, str_lower, re_sub.
  set (t1 := re_sub_runs RE_INVALID [underscore] false title).
  assert (Hk1 : Forall kept t1) by apply re_sub_runs_kept.
  assert (Ha1 : Forall is_ascii t1) by by apply re_sub_runs_ascii.
  destruct (strip_infix underscore t1) as (p & q & Ht).
  rewrite Ht in Hk1, Ha1.
  apply Forall_app in Hk1 as [_ [Hk _]%Forall_app].
  apply Forall_app in Ha1 as [_ [Ha1 _]%Forall_app].
  by apply lower_from_slug.
Qed.

Lemma truncated_slug t : Forall slug_char t -> Forall slug_char (truncated t).
Proof.
  intros Ht. unfold truncated, slice_to.
  destruct (21 <? _)%Z; [|done].
  destruct (0 <? _)%Z; repeat apply Forall_take; done.
Qed.

End SluggifyFacts.

Ltac bool_to_prop :=
  unfold latin1_isalnum, latin1_tolower, ascii_tolower, ascii_isalnum,
    ascii_isdigit, ascii_isupper, ascii_islower, is_ascii, underscore in *;
  rewrite ?orb_true_iff, ?andb_true_iff, ?negb_true_iff, ?N.leb_le,
    ?N.eqb_eq, ?N.eqb_neq in *.

(** The Latin-1 rows satisfy the laws. *)
Lemma latin1_laws : UnicodeLaws latin1.
Proof.
  split.
  - intros c Hc. simpl. apply eq_iff_eq_true. bool_to_prop. lia.
  - intros before c after Hc. simpl. f_equal. unfold latin1_tolower, ascii_tolower.
    destruct (ascii_isupper c); [done|].
    destruct (N.leb_spec 192 c); [unfold is_ascii in Hc; lia | done].
  - intros before c after Hc. simpl in *. split; [done|].
    intros [Heq | []]. revert Heq. unfold latin1_tolower.
    destruct (ascii_isupper c) eqn:Hu.
    + bool_to_prop. lia.
    + destruct (_ && _) eqn:Hm.
      * bool_to_prop. lia.
      * intros ->. by vm_compute in Hc.
Qed.

(* ================================================================== *)
(** * Multireddit.sluggify *)
(* ================================================================== *)

(** C1, as amended.  For every title the slug has at most 21 characters and
    neither starts nor ends with an underscore unless it is the single
    underscore; when the title is made of ASCII characters the slug holds
    only characters of [[a-z0-9_]]; the slug of the empty title is the
    single underscore. *)
Theorem sluggify_spec (ud : UnicodeData) (laws : UnicodeLaws ud)
    (title : pystr) :
  length (Multireddit.sluggify title) <= 21
  /\ (Forall is_ascii title -> Forall slug_char (Multireddit.sluggify title))
  /\ (Multireddit.sluggify title = [underscore]
      \/ (head (Multireddit.sluggify title) <> Some underscore
          /\ last (Multireddit.sluggify title) <> Some underscore))
  /\ Multireddit.sluggify [] = [underscore].
Proof.
  rewrite sluggify_unfold.
  pose proof (truncated_length (cleaned title)) as Hlen.
  destruct (cleaned_tidy title) as (Hh & Hl & Hd).
  destruct (truncated_tidy (cleaned title) Hh Hl Hd) as [Hh' Hl'].
  split_and!.
  - destruct (truncated (cleaned title)); simpl in *; lia.
  - intros Ha. pose proof (truncated_slug _ (cleaned_slug title Ha)) as Hs.
    destruct (truncated (cleaned title)); [|done].
    by constructor.
  - destruct (truncated (cleaned title)); [by left | by right].
  - reflexivity.
Qed.

(** The slug of ["Hello, World! This is a very long title"]. *)
Lemma sluggify_spec_witness :
  UnicodeLaws latin1
  /\ Multireddit.sluggify (ud := latin1)
       (lit "Hello, World! This is a very long title")
     = lit "hello_world_this_is"
  /\ length (Multireddit.sluggify (ud := latin1)
               (lit "Hello, World! This is a very long title")) <= 21.
Proof.
  split; [exact latin1_laws|]. split; [vm_compute; reflexivity|].
  exact (proj1 (sluggify_spec latin1 latin1_laws
                  (lit "Hello, World! This is a very long title"))).
Defined.

(** C1 as stated fails on a title with a letter outside ASCII: the slug of
    ["é"] (U+00E9) is ["é"]. *)
Lemma sluggify_keeps_unicode_letters : ~ sluggify_as_specified latin1.
Proof.
  intros Hspec. destruct (Hspec [233%N]) as (_ & Hchars & _).
  change (Multireddit.sluggify (ud := latin1) [233%N]) with [233%N] in Hchars.
  inversion Hchars as [|? ? Hc _]; subst.
  by vm_compute in Hc.
Qed.

(* ================================================================== *)
(** * MoreComments: expansion *)
(* ================================================================== *)

Ltac run_more :=
  repeat progress
    (lazy beta iota zeta delta
       [comments _continue_comments _load_comment propagate_submission
        reddit_get reddit_post call as_nodes as_comment_page assert need
        await_object bind get_self modify_self ret raise set_comments expanded
        self net log count parent_id children _comments submission
        is_empty negb head option_map node_replies fst snd];
     cbn [length Nat.eqb]).

Ltac fields :=
  cbn [self net log count parent_id children _comments submission].

Section MoreFacts.
Context {E : Env}.

Lemma split_once_kind kind cid :
  ~ In underscore kind ->
  split_once underscore (kind ++ underscore :: cid) = [kind; cid].
Proof.
  induction kind as [|a k IH]; intros Hin.
  - reflexivity.
  - simpl in *. destruct (N.eqb_spec a underscore) as [-> | _]; [tauto|].
    rewrite IH by tauto. reflexivity.
Qed.

(** A call on an expanded placeholder answers from the cache. *)
Lemma cached_run update (s : state MoreComments) cs :
  _comments (self s) = Some cs -> comments update s = (Ok (Some cs), s).
Proof.
  destruct s as [[c p ch cm sb] t l]. fields. intros ->. reflexivity.
Qed.

(** The one call of a continuation, whatever comes back. *)
Lemma continue_log update (s : state MoreComments) sub pid cid :
  _comments (self s) = None ->
  count (self s) = Some 0%Z ->
  children (self s) = [] ->
  submission (self s) = Some sub ->
  parent_id (self s) = Some pid ->
  nth_error (split_once underscore pid) 1 = Some cid ->
  log (comments update s).2 = log s ++ [continue_request sub cid].
Proof.
  destruct s as [[c p ch cm sb] t l]. fields.
  intros -> -> -> -> -> Hcid. run_more.
  change (count_is_zero (Some 0%Z)) with true. run_more. rewrite Hcid. run_more.
  fold (continue_request sub cid).
  destruct (send (continue_request sub cid) t) as [[e|v] t']; [done|].
  by destruct v.
Qed.

(** The run of a continuation when a page comes back: the list of its
    nodes is awaited. *)
Lemma continue_run update (s : state MoreComments) sub pid cid page net' :
  _comments (self s) = None ->
  count (self s) = Some 0%Z ->
  children (self s) = [] ->
  submission (self s) = Some sub ->
  parent_id (self s) = Some pid ->
  nth_error (split_once underscore pid) 1 = Some cid ->
  send (continue_request sub cid) (net s) = (inr (RCommentPage page), net') ->
  comments update s
  = (Raise TypeError,
     {| self := self s; net := net';
        log := log s ++ [continue_request sub cid] |}).
Proof.
  destruct s as [[c p ch cm sb] t l]. fields.
  intros -> -> -> -> -> Hcid Hsend. run_more.
  change (count_is_zero (Some 0%Z)) with true. run_more. rewrite Hcid. run_more.
  fold (continue_request sub cid). rewrite Hsend. by run_more.
Qed.

(** The one call of a batch, whatever comes back. *)
Lemma batch_log update (s : state MoreComments) sub :
  _comments (self s) = None ->
  count_is_zero (count (self s)) = false ->
  children (self s) <> [] ->
  submission (self s) = Some sub ->
  log (comments update s).2 = log s ++ [batch_request sub (children (self s))].
Proof.
  destruct s as [[c p ch cm sb] t l]. fields.
  intros -> Hc Hch ->. run_more. rewrite Hc.
  destruct ch as [|id ids]; [done|]. run_more.
  fold (batch_request sub (id :: ids)).
  destruct (send (batch_request sub (id :: ids)) t) as [[e|v] t']; [done|].
  destruct v; try done. run_more. by destruct update.
Qed.

(** The run of a batch when a list of nodes comes back. *)
Lemma batch_run update (s : state MoreComments) sub fetched net' :
  _comments (self s) = None ->
  count_is_zero (count (self s)) = false ->
  children (self s) <> [] ->
  submission (self s) = Some sub ->
  send (batch_request sub (children (self s))) (net s)
    = (inr (RNodes fetched), net') ->
  comments update s
  = (Ok (Some (expanded update sub fetched)),
     {| self := set_comments (Some (expanded update sub fetched)) (self s);
        net := net';
        log := log s ++ [batch_request sub (children (self s))] |}).
Proof.
  destruct s as [[c p ch cm sb] t l]. fields.
  intros -> Hc Hch -> Hsend. run_more. rewrite Hc.
  destruct ch as [|id ids]; [done|]. run_more.
  fold (batch_request sub (id :: ids)). rewrite Hsend. run_more.
  by destruct update.
Qed.

End MoreFacts.

(** C2.  A continuation placeholder (count 0, no children, nothing cached)
    whose parent_id is [kind_id] issues exactly one call when expanded, as
    the claim says: a GET of the submission's comment page for the comment
    [id], with the submission's comment limit and sort.  It does not return
    the replies of that comment: whatever page comes back, the source awaits
    the list of its nodes, so the call raises [TypeError] and leaves the
    placeholder as it was. *)
Theorem continuation_fetches_then_raises (E : Env) (update : bool)
    (s : state MoreComments) (sub : Submission) (kind cid : pystr) :
  _comments (self s) = None ->
  count (self s) = Some 0%Z ->
  children (self s) = [] ->
  submission (self s) = Some sub ->
  parent_id (self s) = Some (kind ++ underscore :: cid) ->
  ~ In underscore kind ->
  log (comments update s).2 = log s ++ [continue_request sub cid]
  /\ forall page net',
       send (continue_request sub cid) (net s)
         = (inr (RCommentPage page), net') ->
       comments update s
       = (Raise TypeError,
          {| self := self s; net := net';
             log := log s ++ [continue_request sub cid] |}).
Proof.
  intros Hcache Hcount Hch Hsub Hpid Hkind.
  assert (Hcid : nth_error (split_once underscore (kind ++ underscore :: cid)) 1
                 = Some cid) by by rewrite split_once_kind.
  split.
  - by apply (continue_log update s sub (kind ++ underscore :: cid) cid).
  - intros page net' Hsend.
    by apply (continue_run update s sub (kind ++ underscore :: cid) cid page net').
Qed.

Lemma continuation_fetches_then_raises_witness :
  log (comments true a_continuation).2
    = [continue_request (E := playback) a_submission (lit "dxolpyc")]
  /\ comments true a_continuation
     = (Raise TypeError,
        {| self := self a_continuation;
           net := recording [];
           log := [continue_request (E := playback) a_submission
                     (lit "dxolpyc")] |}).
Proof.
  destruct (continuation_fetches_then_raises playback true a_continuation
              a_submission (lit "t1") (lit "dxolpyc")) as [Hlog Hrun];
    [reflexivity | reflexivity | reflexivity | reflexivity | reflexivity
    | vm_compute; intuition discriminate |].
  split; [exact Hlog|].
  exact (Hrun [CommentNode (lit "dxolpyc") None [a_reply]] (recording [])
           eq_refl).
Defined.

(** C3.  A batched placeholder (count above 0, some children, nothing
    cached) issues exactly one call when expanded, however many children it
    lists: a POST to the morechildren endpoint whose [children] field is the
    comma-joined list of all its children, with the fullname and the comment
    sort of its submission. *)
Theorem batched_issues_one_post (E : Env) (update : bool)
    (s : state MoreComments) (sub : Submission) (n : Z) :
  _comments (self s) = None ->
  count (self s) = Some n ->
  (0 < n)%Z ->
  children (self s) <> [] ->
  submission (self s) = Some sub ->
  log (comments update s).2
  = log s ++
    [ {| method := POST;
         path := API_PATH (lit "morechildren");
         params := None;
         data := Form {[ lit "children" := VStr (join [comma] (children (self s)));
                         lit "link_id" := VStr (submission_fullname sub);
                         lit "sort" := comment_sort sub ]};
         objectify := true |} ].
Proof.
  intros Hcache Hcount Hn Hch Hsub.
  apply (batch_log update s sub); try done.
  rewrite Hcount. unfold count_is_zero. apply Z.eqb_neq. lia.
Qed.

Lemma batched_issues_one_post_witness :
  log (comments true a_batch).2
  = [ {| method := POST;
         path := lit "morechildren";
         params := None;
         data := Form {[ lit "children" := VStr (lit "a,b,c");
                         lit "link_id" := VStr (lit "t3_5or86n");
                         lit "sort" := VStr (lit "confidence") ]};
         objectify := true |} ].
Proof.
  exact (batched_issues_one_post playback true a_batch a_submission 3
           eq_refl eq_refl eq_refl ltac:(discriminate) eq_refl).
Defined.

(** Case analysis on what a run depends on: the attributes of the
    receiver, the answer of the transport and its shape. *)
Ltac cases_run reduce :=
  repeat (reduce;
          match goal with
          | |- context [match ?x with _ => _ end] => is_var x; destruct x
          | |- context [if ?x then _ else _] => is_var x; destruct x
          | |- context [send ?r ?t] => destruct (send r t) as [[?|?] ?]
          | |- context [nth_error ?l ?i] => destruct (nth_error l i)
          | |- context [length ?l] => is_var l; destruct l
          | |- context [count_is_zero ?c] => destruct (count_is_zero c)
          end).

(** C4.  Under the invariant of the data model neither of the two
    assertions that guard expansion fails, whatever the transport answers. *)
Theorem expansion_guards_hold (E : Env) (update : bool)
    (s : state MoreComments) :
  placeholder_invariant (self s) ->
  (comments update s).1 <> Raise (AssertionError continue_without_children)
  /\ (comments update s).1 <> Raise (AssertionError batch_with_children).
Proof.
  intros (n & Hcount & Hn & Hzero & Hpos).
  destruct s as [[c p ch cm sb] t l]. fields. cbn [self count children] in *.
  subst c. destruct cm as [cs|]; [split; discriminate|].
  destruct (Z.eq_dec n 0%Z) as [-> | Hne].
  - rewrite (Hzero eq_refl). run_more.
    change (count_is_zero (Some 0%Z)) with true.
    cases_run run_more; split; discriminate.
  - assert (Hz : count_is_zero (Some n) = false) by by apply Z.eqb_neq.
    assert (Hch : ch <> []) by (apply Hpos; lia).
    destruct ch as [|id ids]; [done|].
    run_more. rewrite Hz.
    cases_run run_more; split; discriminate.
Qed.

Lemma expansion_guards_hold_witness :
  placeholder_invariant (self a_batch)
  /\ (comments true a_batch).1 <> Raise (AssertionError continue_without_children)
  /\ (comments true a_batch).1 <> Raise (AssertionError batch_with_children).
Proof.
  assert (H : placeholder_invariant (self a_batch)).
  { exists 3%Z. split_and!; [reflexivity | lia | discriminate | discriminate]. }
  split; [exact H|].
  exact (expansion_guards_hold playback true a_batch H).
Defined.

(** C5.  A placeholder that is expanded with [update=True] returns nodes
    that all have the submission of the placeholder as their submission,
    and with [update=False] it returns the nodes the transport answered,
    unchanged: so it is for the batched expansion, which returns the nodes
    that come back, and for whatever else a call on an empty cache
    returns. *)
Theorem expansion_propagates_submission (E : Env) (update : bool)
    (s : state MoreComments) (sub : Submission) :
  _comments (self s) = None ->
  submission (self s) = Some sub ->
  (forall fetched net',
      count_is_zero (count (self s)) = false ->
      children (self s) <> [] ->
      send (batch_request sub (children (self s))) (net s)
        = (inr (RNodes fetched), net') ->
      (comments update s).1 = Ok (Some (expanded update sub fetched)))
  /\ (forall returned,
        (comments update s).1 = Ok (Some returned) ->
        (update = true ->
         Forall (fun n => node_submission n = Some sub) returned)
        /\ (update = false ->
            exists net',
              send (batch_request sub (children (self s))) (net s)
              = (inr (RNodes returned), net'))).
Proof.
  intros Hcache Hsub. split.
  - intros fetched net' Hc Hch Hsend.
    by rewrite (batch_run update s sub fetched net').
  - destruct s as [[c p ch cm sb] t l].
    cbn [self net count children _comments submission] in *.
    subst cm sb. intros returned.
    destruct (count_is_zero c) eqn:Hzero.
    + run_more. rewrite Hzero. cases_run run_more; intros H; discriminate H.
    + destruct ch as [|id ids];
        [run_more; rewrite Hzero; run_more; intros H; discriminate H|].
      run_more. rewrite Hzero. run_more.
      fold (batch_request sub (id :: ids)).
      destruct (send (batch_request sub (id :: ids)) t) as [[e|v] t'] eqn:Hsend;
        [intros H; discriminate H|].
      destruct v as [|fetched| | | | |]; try (intros H; discriminate H).
      destruct update; run_more; intros [= <-]; split; try done.
      * intros _. clear Hsend.
        induction fetched as [|n rest IH]; cbn [List.map]; constructor;
          [by destruct n | exact IH].
      * intros _. by exists t'.
Qed.

Lemma expansion_propagates_submission_witness :
  (comments true a_batch).1
    = Ok (Some [CommentNode (lit "dxolpyd") (Some a_submission) []])
  /\ Forall (fun n => node_submission n = Some a_submission)
       [CommentNode (lit "dxolpyd") (Some a_submission) []].
Proof.
  destruct (expansion_propagates_submission playback true a_batch a_submission
              eq_refl eq_refl) as [Hreturns Hnodes].
  assert (Hrun : (comments true a_batch).1
                 = Ok (Some [CommentNode (lit "dxolpyd") (Some a_submission) []])).
  { exact (Hreturns [a_reply] (recording []) eq_refl ltac:(discriminate)
             eq_refl). }
  split; [exact Hrun|].
  exact (proj1 (Hnodes _ Hrun) eq_refl).
Defined.

(** C9.  The cache of a continuation placeholder is never populated: each
    call to [comments] issues the GET again and raises [TypeError], for the
    source awaits the list of the nodes of the page; after two calls the
    log holds two calls and the cache is still empty. *)
Theorem continuation_is_fetched_again (E : Env) (first second : bool)
    (s : state MoreComments) (sub : Submission) (kind cid : pystr)
    (page1 page2 : list node) (net1 net2 : transport) :
  _comments (self s) = None ->
  count (self s) = Some 0%Z ->
  children (self s) = [] ->
  submission (self s) = Some sub ->
  parent_id (self s) = Some (kind ++ underscore :: cid) ->
  ~ In underscore kind ->
  send (continue_request sub cid) (net s) = (inr (RCommentPage page1), net1) ->
  send (continue_request sub cid) net1 = (inr (RCommentPage page2), net2) ->
  call_again [first; second] s
  = ([Raise TypeError; Raise TypeError],
     {| self := self s; net := net2;
        log := log s ++ [continue_request sub cid; continue_request sub cid] |})
  /\ _comments (self (call_again [first; second] s).2) = None.
Proof.
  intros Hcache Hcount Hch Hsub Hpid Hkind Hsend1 Hsend2.
  assert (Hcid : nth_error (split_once underscore (kind ++ underscore :: cid)) 1
                 = Some cid) by by rewrite split_once_kind.
  assert (Hrun : call_again [first; second] s
    = ([Raise TypeError; Raise TypeError],
       {| self := self s; net := net2;
          log := log s ++ [continue_request sub cid; continue_request sub cid] |})).
  { cbn [call_again].
    rewrite (continue_run first s sub (kind ++ underscore :: cid) cid page1 net1)
      by done.
    rewrite (continue_run second _ sub (kind ++ underscore :: cid) cid page2 net2)
      by done.
    cbn [self net log]. by rewrite <- app_assoc. }
  split; [exact Hrun|]. by rewrite Hrun.
Qed.

Lemma continuation_is_fetched_again_witness :
  call_again [true; true] (on (self a_continuation) [a_page; a_page])
  = ([Raise TypeError; Raise TypeError],
     {| self := self a_continuation;
        net := recording [];
        log := [continue_request (E := playback) a_submission (lit "dxolpyc");
                continue_request (E := playback) a_submission (lit "dxolpyc")] |}).
Proof.
  refine (proj1 (continuation_is_fetched_again playback true true
                   (on (self a_continuation) [a_page; a_page]) a_submission
                   (lit "t1") (lit "dxolpyc")
                   [CommentNode (lit "dxolpyc") None [a_reply]]
                   [CommentNode (lit "dxolpyc") None [a_reply]]
                   (recording [a_page]) (recording [])
                   eq_refl eq_refl eq_refl eq_refl eq_refl _ eq_refl eq_refl)).
  vm_compute. intuition discriminate.
Defined.

(* ================================================================== *)
(** * ReplyableMixin.reply *)
(* ================================================================== *)

Ltac run_reply :=
  repeat progress
    (lazy beta iota zeta delta
       [Replyable.reply reddit_post call as_nodes bind get_self ret raise
        self net log fst snd]).

(** C7.  [reply] returns [None] when the endpoint answers with an empty
    list, the first comment when it answers with a non-empty one, and raises
    the exception of the transport, as it is, when the transport raises. *)
Theorem reply_outcomes (E : Env) (A : Type) (F : FullnameMixin A)
    (body : pystr) (s : state A) :
  (forall net',
      send (reply_request (self s) body) (net s) = (inr (RNodes []), net') ->
      (Replyable.reply body s).1 = Ok None)
  /\ (forall c rest net',
        send (reply_request (self s) body) (net s)
          = (inr (RNodes (c :: rest)), net') ->
        (Replyable.reply body s).1 = Ok (Some c))
  /\ (forall e net',
        send (reply_request (self s) body) (net s) = (inl e, net') ->
        (Replyable.reply body s).1 = Raise (Upstream e)).
Proof.
  destruct s as [me t l]. cbn [self net].
  split_and!; intros; run_reply; fold (reply_request me body);
    by match goal with H : send _ _ = _ |- _ => rewrite H end.
Qed.

Lemma reply_outcomes_witness :
  (Replyable.reply (F := comment_fullname) (lit "reply")
     (replying (inr (RNodes [])))).1 = Ok None
  /\ (Replyable.reply (F := comment_fullname) (lit "reply")
        (replying (inr (RNodes [a_reply])))).1 = Ok (Some a_reply)
  /\ (Replyable.reply (F := comment_fullname) (lit "reply")
        (replying (inl Forbidden))).1 = Raise (Upstream Forbidden).
Proof.
  split_and!.
  - exact (proj1 (reply_outcomes playback node comment_fullname (lit "reply")
                    (replying (inr (RNodes [])))) (recording []) eq_refl).
  - exact (proj1 (proj2 (reply_outcomes playback node comment_fullname (lit "reply")
                    (replying (inr (RNodes [a_reply])))))
             a_reply [] (recording []) eq_refl).
  - exact (proj2 (proj2 (reply_outcomes playback node comment_fullname (lit "reply")
                    (replying (inl Forbidden))))
             Forbidden (recording []) eq_refl).
Defined.

(* ================================================================== *)
(** * Rules: reorder and update *)
(* ================================================================== *)

Lemma utf8_encode_app a b :
  utf8_encode (a ++ b)
  = match utf8_encode a, utf8_encode b with
    | Some x, Some y => Some (x ++ y)
    | _, _ => None
    end.
Proof.
  induction a as [|c a IH]; simpl.
  - by destruct (utf8_encode b).
  - rewrite IH. destruct (utf8_encode_codepoint c), (utf8_encode a),
      (utf8_encode b); try done. by rewrite app_assoc.
Qed.

Lemma quote_app safe a b :
  quote safe (a ++ b)
  = match quote safe a, quote safe b with
    | Some x, Some y => Some (x ++ y)
    | _, _ => None
    end.
Proof.
  unfold quote. rewrite utf8_encode_app.
  destruct (utf8_encode a), (utf8_encode b); try done.
  by rewrite List.map_app, List.concat_app.
Qed.

(** Escaping a comma-joined list with the comma safe escapes each item and
    leaves the commas between them as they are. *)
Lemma quote_join names order :
  quote [comma] (join [comma] names) = Some order ->
  exists escaped,
    Forall2 (fun n e => quote [comma] n = Some e) names escaped
    /\ order = join [comma] escaped.
Proof.
  revert order. induction names as [|x [|y r] IH]; intros order Hq.
  - exists []. split; [constructor|]. by injection Hq as <-.
  - exists [order]. split; [by repeat constructor | done].
  - change (join [comma] (x :: y :: r))
      with (x ++ [comma] ++ join [comma] (y :: r)) in Hq.
    rewrite !quote_app in Hq.
    destruct (quote [comma] x) as [ex|] eqn:Hx; [|done].
    change (quote [comma] [comma]) with (Some [comma]) in Hq.
    destruct (quote [comma] (join [comma] (y :: r))) as [er|] eqn:Hr; [|done].
    injection Hq as <-.
    destruct (IH er eq_refl) as (escaped & Hall & ->).
    exists (ex :: escaped). split; [by constructor|].
    destruct escaped; [by inversion Hall | done].
Qed.

Section RuleFacts.
Context {E : Env}.

Lemma short_names_run {Self : Type} rule_list names (s : state Self) :
  Forall2 named rule_list names ->
  for_each (fun rule => Rules.rule_attr rule (lit "short_name")) rule_list s
  = (Ok (List.map VStr names), s).
Proof.
  intros Hall. induction Hall as [|rule n rules ns Hn _ IH]; [done|].
  cbn [for_each List.map]. unfold bind at 1. unfold Rules.rule_attr at 1.
  rewrite Hn. cbn [need ret]. unfold bind at 1. by rewrite IH.
Qed.

Lemma as_str_run {Self : Type} names (s : state Self) :
  for_each as_str (List.map VStr names) s = (Ok names, s).
Proof.
  induction names as [|n ns IH]; [done|].
  cbn [for_each List.map]. unfold bind at 1. cbn [as_str ret].
  unfold bind at 1. by rewrite IH.
Qed.

End RuleFacts.

(** C8.  [reorder] issues exactly one call, a POST whose [new_rule_order]
    field is the URL-escaped comma-join of the short names of the given
    rules, in the given order; each name is escaped and the commas between
    them are not; for the rules r3, r1, r2 the field is ["r3,r1,r2"]. *)
Theorem reorder_serializes_names (E : Env) (rule_list : list Rule)
    (names : list pystr) (order : pystr) (s : state Rules.SubredditRules) :
  Forall2 named rule_list names ->
  quote [comma] (join [comma] names) = Some order ->
  log (Rules.reorder rule_list s).2
    = log s ++ [reorder_request (Rules.subreddit (self s)) order]
  /\ (exists escaped,
        Forall2 (fun n e => quote [comma] n = Some e) names escaped
        /\ order = join [comma] escaped)
  /\ (names = [lit "r3"; lit "r1"; lit "r2"] -> order = lit "r3,r1,r2").
Proof.
  intros Hnames Hquote. split_and!.
  - destruct s as [me t l]. unfold Rules.reorder.
    unfold bind at 1. cbn [get_self self net log].
    unfold bind at 1. rewrite (short_names_run rule_list names _ Hnames).
    unfold bind at 1. rewrite as_str_run.
    unfold bind at 1. rewrite Hquote. cbn [need ret].
    unfold bind at 1. unfold reddit_post, call. cbn [self net log].
    fold (reorder_request (Rules.subreddit me) order).
    destruct (send _ t) as [[e|v] t']; [done|].
    unfold bind. by destruct v.
  - by apply quote_join.
  - intros ->. vm_compute in Hquote. by injection Hquote as <-.
Qed.

Lemma reorder_serializes_names_witness :
  log (Rules.reorder
         [rule_named (lit "r3"); rule_named (lit "r1"); rule_named (lit "r2")]
         reordering).2
  = [reorder_request (E := playback) {| display_name := lit "test" |}
       (lit "r3,r1,r2")].
Proof.
  refine (proj1 (reorder_serializes_names playback
            [rule_named (lit "r3"); rule_named (lit "r1"); rule_named (lit "r2")]
            [lit "r3"; lit "r1"; lit "r2"] (lit "r3,r1,r2") reordering _ _)).
  - repeat constructor.
  - vm_compute. reflexivity.
Defined.

Ltac key_neq :=
  let H := fresh in intros H; vm_compute in H; discriminate H.

Ltac run_rules :=
  repeat progress
    (lazy beta iota zeta delta
       [Rules.update Rules.delete Rules.add Rules.rule_attr
        Rules.rule_subreddit_attr fold_each reddit_post call as_rules need
        bind get_self ret raise self net log head fst snd]).

(** C10.  [RuleModeration.update] submits, for each of [description],
    [kind], [short_name] and [violation_reason], the value passed, the empty
    string included, or the attribute of the rule when [None] is passed,
    together with the subreddit of the rule as [r] and its short name as
    [old_short_name], in one POST. *)
Theorem update_fills_unspecified (E : Env)
    (description kind short_name violation_reason : option pystr)
    (s : state Rule) (sub : Subreddit) (old d k n v : pyval) :
  rule_subreddit (self s) = Some sub ->
  rule_dict (self s) !! lit "short_name" = Some old ->
  submitted (self s) (lit "description") description = Some d ->
  submitted (self s) (lit "kind") kind = Some k ->
  submitted (self s) (lit "short_name") short_name = Some n ->
  submitted (self s) (lit "violation_reason") violation_reason = Some v ->
  exists data : gmap pystr pyval,
    log (Rules.update description kind short_name violation_reason s).2
    = log s ++
      [ {| method := POST;
           path := API_PATH (lit "update_subreddit_rule");
           params := None;
           data := Form data;
           objectify := true |} ]
    /\ data !! lit "r" = Some (VStr (display_name sub))
    /\ data !! lit "old_short_name" = Some old
    /\ data !! lit "description" = Some d
    /\ data !! lit "kind" = Some k
    /\ data !! lit "short_name" = Some n
    /\ data !! lit "violation_reason" = Some v
    /\ dom data = {[ lit "r"; lit "old_short_name"; lit "description";
                     lit "kind"; lit "short_name"; lit "violation_reason" ]}.
Proof.
  intros Hsub Hold Hd Hk Hn Hv.
  exists (<[ lit "violation_reason" := v ]>
          (<[ lit "short_name" := n ]>
           (<[ lit "kind" := k ]>
            (<[ lit "description" := d ]>
             {[ lit "r" := VStr (display_name sub);
                lit "old_short_name" := old ]})))).
  destruct s as [me t l]. cbn [self net log] in *.
  split.
  - destruct description, kind, short_name, violation_reason;
      cbn [submitted] in *; simplify_eq;
      repeat (run_rules;
              repeat match goal with
                     | H : _ !! _ = Some _ |- _ => rewrite H
                     | H : rule_subreddit _ = Some _ |- _ => rewrite H
                     end);
      (destruct (send _ t) as [[e|a] t']; [done|]);
      destruct a as [| | |rules| | |]; try done;
      run_rules; by destruct rules.
  - split_and!.
    + by rewrite !lookup_insert_ne, lookup_insert_eq by key_neq.
    + by rewrite !lookup_insert_ne, lookup_singleton_eq by key_neq.
    + by rewrite !lookup_insert_ne, lookup_insert_eq by key_neq.
    + by rewrite !lookup_insert_ne, lookup_insert_eq by key_neq.
    + by rewrite !lookup_insert_ne, lookup_insert_eq by key_neq.
    + by rewrite lookup_insert_eq.
    + rewrite !dom_insert_L, dom_singleton_L. set_solver.
Qed.

Lemma update_fills_unspecified_witness :
  exists data : gmap pystr pyval,
    log (Rules.update (Some []) None None (Some (lit "Spam post")) updating).2
    = [ {| method := POST;
           path := lit "update_subreddit_rule";
           params := None;
           data := Form data;
           objectify := true |} ]
    /\ data !! lit "r" = Some (VStr (lit "test"))
    /\ data !! lit "old_short_name" = Some (VStr (lit "No spam"))
    /\ data !! lit "description" = Some (VStr [])
    /\ data !! lit "kind" = Some (VStr (lit "all"))
    /\ data !! lit "short_name" = Some (VStr (lit "No spam"))
    /\ data !! lit "violation_reason" = Some (VStr (lit "Spam post"))
    /\ dom data = {[ lit "r"; lit "old_short_name"; lit "description";
                     lit "kind"; lit "short_name"; lit "violation_reason" ]}.
Proof.
  exact (update_fills_unspecified playback (Some []) None None
           (Some (lit "Spam post")) updating {| display_name := lit "test" |}
           (VStr (lit "No spam")) (VStr []) (VStr (lit "all"))
           (VStr (lit "No spam")) (VStr (lit "Spam post"))
           eq_refl eq_refl eq_refl eq_refl eq_refl eq_refl).
Defined.

(* ================================================================== *)
(** * The operations, one call each *)
(* ================================================================== *)

(** The loop of [Rule._fetch] computes [scan] and calls nothing. *)
Lemma scan_run {E : Env} (rules : list Rule) (s : state Rule) :
  Rules._fetch_scan rules s
  = match scan (self s) rules with
    | inr found => (Ok tt, {| self := found; net := net s; log := log s |})
    | inl e => (Raise e, s)
    end.
Proof.
  destruct s as [me t l]. cbn [self net log].
  induction rules as [|rule rest IH].
  { cbn [Rules._fetch_scan scan]. unfold bind, get_self, Rules.rule_attr.
    cbn [self]. by destruct (rule_dict me !! lit "short_name"). }
  cbn [Rules._fetch_scan scan]. unfold bind at 1. cbn [get_self self].
  unfold bind at 1. unfold Rules.rule_attr at 1.
  destruct (rule_dict rule !! lit "short_name") as [theirs|]; [|done].
  cbn [need ret]. unfold bind at 1. unfold Rules.rule_attr at 1.
  destruct (rule_dict me !! lit "short_name") as [my|]; [|done].
  cbn [need ret]. destruct (Rules.py_eq theirs my); [done | exact IH].
Qed.

Ltac run_ops :=
  repeat progress
    (lazy beta iota zeta delta
       [perform none
        Redditor.block Redditor.distrust Redditor.friend Redditor._friend
        Redditor.friend_info Redditor.gild Redditor.moderated
        Redditor.multireddits Redditor.trophies Redditor.trust
        Redditor.unblock Redditor.unfriend Redditor.attr Redditor.str
        Messageable.message
        Multireddit.add Multireddit.copy Multireddit.delete Multireddit.remove
        Multireddit.update Multireddit._ensure_author_fetched Multireddit.attr
        Multireddit.reset_attributes
        Rules.delete Rules.update Rules.add Rules.reorder Rules.__call__
        Rules.__aiter__ Rules._rule_list Rules.get_rule Rules._fetch
        Rules.rule_attr Rules.rule_subreddit_attr
        fold_each zoom run_on lift
        reddit_get reddit_post reddit_put reddit_delete reddit_request call
        as_nodes as_rules as_str as_dict need bind get_self modify_self ret
        raise self net log head fst snd];
     cbn [rule_subreddit rule_dict rule_fetched redditor_dict redditor_fetched
          multi_dict _author multi_fetched Rules.subreddit]).

(** Rewriting with what readiness provides. *)
Ltac use_ready :=
  repeat match goal with
         | H : _ !! _ = Some _ |- _ => rewrite H
         | H : rule_subreddit _ = Some _ |- _ => rewrite H
         | H : redditor_fetched _ = true |- _ => rewrite H
         | H : _ = (Ok _, _) |- _ => rewrite H
         | H : (_ || _) = false |- _ => rewrite H
         | H : _ !! _ = None |- _ => rewrite H
         | H : py_iter _ = Some _ |- _ => rewrite H
         | H : given _ = _ |- _ => rewrite H
         | H : quote _ _ = Some _ |- _ => rewrite H
         end.

Ltac unpack_ready :=
  repeat match goal with
         | H : _ /\ _ |- _ => destruct H
         | H : has_name _ |- _ => destruct H as [? ?]
         | H : author_ready _ |- _ => destruct H as (? & ? & ?)
         | H : is_Some _ |- _ => destruct H as [? ?]
         | H : user_cached _ _ _ |- _ => destruct H as (? & ? & ?)
         | H : exists _, _ |- _ => destruct H as [? ?]
         end.

(** Case analysis on the shape of what came back. *)
Ltac shapes :=
  repeat (run_ops; try done;
          match goal with
          | |- context [match ?x with _ => _ end] => is_var x; destruct x
          | |- context [if ?x then _ else _] => is_var x; destruct x
          | |- context [_reset_attributes ?a ?b] =>
              destruct (_reset_attributes a b)
          | |- context [answer_truthy ?a] => destruct (answer_truthy a)
          | |- context [answer_list ?a] => destruct (answer_list a)
          | |- context [PySeq.index ?a ?b] => destruct (PySeq.index a b)
          | |- context [PySeq.slice ?a ?b ?c ?d] =>
              destruct (PySeq.slice a b c d)
          | |- context [Rules._fetch_scan ?r ?s] => rewrite (scan_run r s)
          | |- context [scan ?a ?b] => destruct (scan a b)
          end).

Ltac one_call :=
  match goal with
  | |- context [send ?r ?t] =>
      let req := fresh "req" in
      set (req := r); exists req; split_and!;
      [ destruct (send req t) as [[?|?] ?]; shapes
      | reflexivity
      | reflexivity
      | let Hs := fresh "Hs" in
        let Hret := fresh "Hret" in
        intros ? ? ? Hs Hret; rewrite Hs; revert Hret; shapes;
        cbn [fmap option_fmap option_map]; intros; by simplify_eq ]
  end.

(** [reorder] up to its call, for rules with names that can be escaped. *)
Lemma reorder_tail {E : Env} rule_list names order
    (s : state Rules.SubredditRules) :
  Forall2 named rule_list names ->
  quote [comma] (join [comma] names) = Some order ->
  Rules.reorder rule_list s
  = (answer <- reddit_post (API_PATH (lit "reorder_subreddit_rules")) None
                 (Form {[ lit "r" :=
                            VStr (display_name (Rules.subreddit (self s)));
                          lit "new_rule_order" := VStr order ]}) ;;
     rules <- as_rules answer ;;
     ret (List.map (Rules.set_rule_subreddit
                      (Some (Rules.subreddit (self s)))) rules)) s.
Proof.
  intros Hnames Hquote. destruct s as [me t l]. unfold Rules.reorder.
  unfold bind at 1. cbn [get_self self net log].
  unfold bind at 1. rewrite (short_names_run rule_list names _ Hnames).
  unfold bind at 1. rewrite as_str_run.
  unfold bind at 1. rewrite Hquote. reflexivity.
Qed.

Ltac generic := repeat (run_ops; use_ready); one_call.

(** C6, as amended.  Each coroutine of the Redditor, Multireddit and rule
    classes, once its arguments pass its validation, the attributes it
    reads are there and the objects it depends on are loaded, issues exactly
    one call, with the verb and the kind of payload of the operation; the
    queries return the answer of that call, re-wrapped, and the other
    operations return [None]. *)
Theorem operations_issue_one_call (E : Env) (ud : UnicodeData) (F : FullnameMixin Redditor)
    (user_me : forall Self : Type, M Self (option Redditor))
    (load : M Multireddit unit)
    (Self : Type) (op : operation Self) (s : state Self) :
  ready user_me load op s ->
  exists r,
    log (perform user_me load op s).2 = log s ++ [r]
    /\ method r = verb_of op
    /\ payload_of_request r = payload_of op
    /\ forall answer net' v,
         send r (net s) = (inr answer, net') ->
         returns op (self s) answer = Some v ->
         (perform user_me load op s).1 = Ok v.
Proof.
  intros Hready. destruct s as [me t l].
  destruct op as
    [ | | note | | months | | | | | | | subject message from_sr
    | sr | dname | | sr | settings
    | | descr knd sname reason | | | key | sname knd descr reason | rules ];
    cbn [ready self net log verb_of payload_of returns] in *; unpack_ready.
  - (* block *) generic.
  - (* distrust *) generic.
  - (* friend *) generic.
  - (* friend_info *) generic.
  - (* gild *)
    assert ((months <? 1)%Z || (36 <? months)%Z = false)
      by (apply orb_false_iff; split; apply Z.ltb_ge; lia).
    generic.
  - (* moderated *) generic.
  - (* multireddits *) generic.
  - (* trophies *) generic.
  - (* trust *) generic.
  - (* unblock *)
    match goal with u : option Redditor |- _ => destruct u; [|done] end.
    unpack_ready. generic.
  - (* unfriend *) generic.
  - (* message *)
    destruct from_sr as [[[|c sr]|sub]|]; generic.
  - (* add *) generic.
  - (* copy *)
    match goal with u : option Redditor |- _ => destruct u end; unpack_ready.
    all: destruct (given dname) eqn:Hgiven;
      [ | match goal with H : _ \/ _ |- _ => destruct H; [done|] end;
          unpack_ready ];
      try match goal with H : _ \/ _ |- _ => clear H end.
    all: generic.
  - (* delete *) generic.
  - (* remove *) generic.
  - (* update *)
    destruct (settings !! lit "subreddits") eqn:Hsubs;
      unpack_ready; generic.
  - (* RuleModeration.delete *) generic.
  - (* RuleModeration.update *)
    destruct descr, knd, sname, reason;
      cbn [submitted] in *; simplify_eq; generic.
  - (* __call__ *) generic.
  - (* __aiter__ *) generic.
  - (* get_rule *)
    destruct key as [n|i|start stop step]; [|generic..].
    destruct n as [|c n]; [done|].
    run_ops.
    change (Rules.Rule__init__ (Some (Rules.subreddit me)) (Some (c :: n)) None)
      with (Ok {| rule_dict := ∅ ∪ {[ lit "short_name" := VStr (c :: n) ]};
                  rule_subreddit := Some (Rules.subreddit me);
                  rule_fetched := false |}).
    generic.
  - (* add *) generic.
  - (* reorder *)
    cbn [perform]. unfold bind.
    match goal with
    | H : Forall2 named _ ?names, Hq : quote _ _ = Some ?order |- _ =>
        rewrite !(reorder_tail rules names order _ H Hq)
    end.
    generic.
Qed.

Lemma operations_issue_one_call_witness :
  ready me_cached loaded (Multireddit_add {| display_name := lit "test" |})
    (on (bboe_test true) [inr (RValue VNone)])
  /\ exists r,
       log (perform (ud := latin1) (F := redditor_fullname) me_cached loaded
              (Multireddit_add {| display_name := lit "test" |})
              (on (bboe_test true) [inr (RValue VNone)])).2 = [r]
       /\ method r = PUT.
Proof.
  assert (Hready : ready me_cached loaded
                     (Multireddit_add {| display_name := lit "test" |})
                     (on (bboe_test true) [inr (RValue VNone)])).
  { split_and!; [reflexivity | by exists (lit "bboe") | by eexists]. }
  split; [exact Hready|].
  destruct (operations_issue_one_call playback latin1 redditor_fullname
              me_cached loaded Multireddit
              (Multireddit_add {| display_name := lit "test" |})
              (on (bboe_test true) [inr (RValue VNone)]) Hready)
    as (r & Hlog & Hverb & _).
  exists r. split; [exact Hlog | exact Hverb].
Defined.

(** [gild] with [months=0] raises before any call. *)
Lemma gild_validates_first :
  perform (ud := latin1) (F := redditor_fullname) me_cached loaded
    (Redditor_gild 0) (on spez [])
  = (Raise TypeError, on spez []).
Proof. reflexivity. Qed.

(** [block] returns [None] whatever the transport answers. *)
Lemma block_returns_none :
  (perform (ud := latin1) (F := redditor_fullname) me_cached loaded
     Redditor_block (on spez [inr (RValue (VStr (lit "ok")))])).1
  = Ok PyNone.
Proof. reflexivity. Qed.

(** [add] on a multireddit whose author is not fetched issues two calls:
    the GET that fetches the author, then its own PUT. *)
Lemma add_fetches_author_first :
  List.map method
    (log (perform (ud := latin1) (F := redditor_fullname) me_cached loaded
            (Multireddit_add {| display_name := lit "test" |})
            (on (bboe_test false)
               [inr (RValue (VDict {[ lit "data" :=
                       VDict {[ lit "name" := VStr (lit "bboe") ]} ]}));
                inr (RValue VNone)])).2)
  = [GET; PUT].
Proof. vm_compute. reflexivity. Qed.

(** [friend_info] issues a GET of a path and nothing else. *)
Lemma friend_info_sends_no_dict :
  List.map payload_of_request
    (log (perform (ud := latin1) (F := redditor_fullname) me_cached loaded
            Redditor_friend_info (on spez [inr (RRedditor spez)])).2)
  = [no_payload].
Proof. reflexivity. Qed.

(** C6 as stated fails: [block], on a redditor with a name, returns [None]
    and not what the transport answered. *)
Lemma operations_not_as_specified :
  ~ operations_as_specified playback latin1 redditor_fullname me_cached loaded.
Proof.
  intros Hspec.
  destruct (Hspec Redditor Redditor_block
              (on spez [inr (RValue (VStr (lit "ok")))]))
    as (r & _ & _ & Hanswer); [by exists (lit "spez")|].
  specialize (Hanswer (RValue (VStr (lit "ok"))) (recording []) eq_refl).
  rewrite block_returns_none in Hanswer. discriminate Hanswer.
Qed.

(* ================================================================== *)
(** * MoreComments: order, identity and failures *)
(* ================================================================== *)

(** X1.  [__lt__] orders placeholders by descending count: a placeholder is
    less than another one exactly when its count is greater, so that the
    least of a collection, the one nothing is less than, holds the greatest
    count; comparing a placeholder without a count raises [TypeError]. *)
Theorem placeholders_sort_by_descending_count (a b : MoreComments) (x y : Z)
    (l : list MoreComments) :
  count a = Some x -> count b = Some y ->
  (__lt__ a b = Ok true <-> (y < x)%Z)
  /\ (In a l -> Forall (fun o => is_Some (count o)) l ->
      (forall o, In o l -> __lt__ o a <> Ok true) ->
      forall o, In o l -> exists z, count o = Some z /\ (z <= x)%Z)
  /\ (forall c, count c = None ->
      __lt__ c a = Raise TypeError /\ __lt__ a c = Raise TypeError).
Proof.
  intros Ha Hb. split_and!.
  - unfold __lt__. rewrite Ha, Hb. split.
    + intros [= H]. by apply Z.ltb_lt.
    + intros H. f_equal. by apply Z.ltb_lt.
  - intros _ Hall Hleast o Ho.
    rewrite Forall_forall in Hall.
    destruct (Hall o) as [z Hz]; [by apply list_elem_of_In|].
    exists z. split; [done|].
    specialize (Hleast o Ho). unfold __lt__ in Hleast. rewrite Hz, Ha in Hleast.
    destruct (Z.ltb_spec x z); [done | lia].
  - intros c Hc. unfold __lt__. by rewrite Hc, Ha.
Qed.

Lemma placeholders_sort_by_descending_count_witness :
  __lt__ (placeholder 5 [lit "a"]) (placeholder 2 [lit "b"]) = Ok true
  /\ exists z, count (placeholder 2 [lit "b"]) = Some z /\ (z <= 5)%Z.
Proof.
  destruct (placeholders_sort_by_descending_count
              (placeholder 5 [lit "a"]) (placeholder 2 [lit "b"]) 5 2
              [placeholder 5 [lit "a"]; placeholder 2 [lit "b"]]
              eq_refl eq_refl) as (Hlt & Hleast & _).
  split; [apply Hlt; lia|].
  apply Hleast.
  - by left.
  - repeat constructor; by eexists.
  - intros o [<- | [<- | []]]; discriminate.
  - right. by left.
Defined.

(** X2.  A call to [comments] changes nothing of the placeholder but its
    cache: count, parent_id, children and submission are as before, so the
    placeholder stays equal ([__eq__]) to what it was. *)
Theorem comments_keeps_identity (E : Env) (update : bool)
    (s : state MoreComments) :
  count (self (comments update s).2) = count (self s)
  /\ parent_id (self (comments update s).2) = parent_id (self s)
  /\ children (self (comments update s).2) = children (self s)
  /\ submission (self (comments update s).2) = submission (self s)
  /\ __eq__ (self s) (APlaceholder (self (comments update s).2)) = true.
Proof.
  assert (Hframe :
    count (self (comments update s).2) = count (self s)
    /\ parent_id (self (comments update s).2) = parent_id (self s)
    /\ children (self (comments update s).2) = children (self s)
    /\ submission (self (comments update s).2) = submission (self s)).
  { destruct s as [[c p ch cm sb] t l].
    cases_run run_more; done. }
  destruct Hframe as (Hc & Hp & Hch & Hs). split_and!; try done.
  unfold __eq__. rewrite Hc, Hch. by rewrite !bool_decide_eq_true_2.
Qed.

(** X3.  A call to [comments] issues at most one call to the transport,
    whatever happens; when it raises an exception other than the
    [TypeError] of an answer of another type, the placeholder is as it was
    before the call, its cache included. *)
Theorem comments_calls_at_most_once (E : Env) (update : bool)
    (s : state MoreComments) :
  (exists calls, log (comments update s).2 = log s ++ calls /\ length calls <= 1)
  /\ (forall e, e <> TypeError ->
        (comments update s).1 = Raise e ->
        self (comments update s).2 = self s).
Proof.
  destruct s as [[c p ch cm sb] t l]. split.
  - cases_run run_more;
      first [ by exists []; rewrite app_nil_r; split; [|simpl; lia]
            | by eexists [_]; split; [|simpl; lia] ].
  - intros e. cases_run run_more; done.
Qed.

Lemma comments_calls_at_most_once_witness :
  (comments true (on (self a_batch) [inl Forbidden])).1
    = Raise (Upstream Forbidden)
  /\ self (comments true (on (self a_batch) [inl Forbidden])).2 = self a_batch.
Proof.
  split; [reflexivity|].
  apply (proj2 (comments_calls_at_most_once playback true
                  (on (self a_batch) [inl Forbidden])) (Upstream Forbidden));
    [discriminate | reflexivity].
Defined.

Lemma split_once_found pid :
  In underscore pid ->
  exists cid, nth_error (split_once underscore pid) 1 = Some cid.
Proof.
  induction pid as [|a r IH]; [intros []|].
  intros Hin. simpl. destruct (N.eqb_spec a underscore) as [-> | Hne].
  - by exists r.
  - destruct Hin as [-> | Hin]; [done|].
    destruct (IH Hin) as [cid Hcid].
    destruct (split_once underscore r) as [|h [|t ?]]; try done.
    by exists cid.
Qed.

(** X4.  A placeholder that has no submission and an empty cache cannot be
    expanded: [comments] raises without calling the transport and leaves the
    placeholder as it is; the exception is [AttributeError] when the
    placeholder satisfies the invariant of the data model and its parent_id,
    if any, holds an underscore. *)
Theorem comments_needs_submission (E : Env) (update : bool)
    (s : state MoreComments) :
  _comments (self s) = None ->
  submission (self s) = None ->
  exists e,
    comments update s = (Raise e, s)
    /\ (placeholder_invariant (self s) ->
        (forall pid, parent_id (self s) = Some pid -> In underscore pid) ->
        e = AttributeError).
Proof.
  destruct s as [[c p ch cm sb] t l]. fields. intros -> ->.
  destruct (count_is_zero c) eqn:Hzero.
  - destruct ch as [|id ids].
    + destruct p as [pid|].
      * destruct (nth_error (split_once underscore pid) 1) as [cid|] eqn:Hcid.
        -- exists AttributeError. split; [|done].
           run_more. rewrite Hzero. run_more. rewrite Hcid. by run_more.
        -- exists IndexError. split.
           ++ run_more. rewrite Hzero. run_more. rewrite Hcid. by run_more.
           ++ intros _ Hpid. destruct (split_once_found pid (Hpid pid eq_refl)).
              congruence.
      * exists AttributeError. split; [|done].
        run_more. rewrite Hzero. by run_more.
    + exists (AssertionError continue_without_children). split.
      * run_more. rewrite Hzero. by run_more.
      * intros (n & Hn & _ & Hz & _) _. cbn [count children] in *. subst c.
        apply Z.eqb_eq in Hzero as ->. by specialize (Hz eq_refl).
  - destruct ch as [|id ids].
    + exists (AssertionError batch_with_children). split.
      * run_more. rewrite Hzero. by run_more.
      * intros (n & Hn & Hpos & _ & Hch) _. cbn [count children] in *. subst c.
        apply Z.eqb_neq in Hzero. exfalso. apply Hch; [lia | done].
    + exists AttributeError. split; [|done].
      run_more. rewrite Hzero. by run_more.
Qed.

Lemma comments_needs_submission_witness :
  comments true (on (placeholder 3 [lit "a"]) [inr (RNodes [a_reply])])
  = (Raise AttributeError,
     on (placeholder 3 [lit "a"]) [inr (RNodes [a_reply])]).
Proof.
  destruct (comments_needs_submission playback true
              (on (placeholder 3 [lit "a"]) [inr (RNodes [a_reply])])
              eq_refl eq_refl) as (e & Hrun & He).
  rewrite Hrun. f_equal. f_equal. apply He.
  - exists 3%Z. split_and!; [reflexivity | lia | discriminate | discriminate].
  - intros pid [= <-]. vm_compute. tauto.
Defined.

(** X5.  A continuation placeholder is never expanded: with an empty cache
    and count 0, whatever its other attributes and whatever the transport
    answers, [comments] raises; the exception is never the [AssertionError]
    of [_load_comment], whose assertion stands behind the [await] of a list,
    and the placeholder, its empty cache included, is as it was. *)
Theorem continuation_never_returns (E : Env) (update : bool)
    (s : state MoreComments) :
  _comments (self s) = None ->
  count_is_zero (count (self s)) = true ->
  exists e,
    (comments update s).1 = Raise e
    /\ e <> AssertionError single_parent
    /\ self (comments update s).2 = self s.
Proof.
  destruct s as [[c p ch cm sb] t l]. fields. intros -> Hzero.
  run_more. rewrite Hzero.
  cases_run run_more;
    (eexists; split_and!; [reflexivity | discriminate | reflexivity]).
Qed.

Lemma continuation_never_returns_witness :
  exists e,
    (comments true a_continuation).1 = Raise e
    /\ e <> AssertionError single_parent
    /\ self (comments true a_continuation).2 = self a_continuation.
Proof.
  exact (continuation_never_returns playback true a_continuation
           eq_refl eq_refl).
Defined.

(** Calls on a placeholder whose cache holds [cs] return [cs] and change
    nothing. *)
Lemma cached_again {E : Env} updates (s : state MoreComments) cs :
  _comments (self s) = Some cs ->
  call_again updates s = (List.map (fun _ => Ok (Some cs)) updates, s).
Proof.
  intros Hcache. induction updates as [|u rest IH]; [done|].
  cbn [call_again List.map]. by rewrite (cached_run u s cs Hcache), IH.
Qed.

(** X28.  The cache of a batched placeholder is populated by the first call
    to [comments] that the transport answers with nodes: that call issues
    the one POST and caches what it returns, and every later call, whatever
    its [update] flag, returns that same sequence and issues no call; more
    generally, a placeholder whose cache holds a sequence answers every
    series of calls with that sequence and is left as it is. *)
Theorem batched_expansion_is_cached (E : Env) (update : bool)
    (updates : list bool) (s : state MoreComments) (sub : Submission)
    (fetched : list node) (net' : transport) :
  (_comments (self s) = None ->
   count_is_zero (count (self s)) = false ->
   children (self s) <> [] ->
   submission (self s) = Some sub ->
   send (batch_request sub (children (self s))) (net s)
     = (inr (RNodes fetched), net') ->
   call_again (update :: updates) s
   = (List.map (fun _ => Ok (Some (expanded update sub fetched)))
        (update :: updates),
      {| self := set_comments (Some (expanded update sub fetched)) (self s);
         net := net';
         log := log s ++ [batch_request sub (children (self s))] |}))
  /\ (forall cs,
        _comments (self s) = Some cs ->
        call_again updates s
        = (List.map (fun _ => Ok (Some cs)) updates, s)).
Proof.
  split.
  - intros Hcache Hcount Hch Hsub Hsend. cbn [call_again List.map].
    rewrite (batch_run update s sub fetched net') by done.
    by rewrite (cached_again updates _ (expanded update sub fetched)).
  - intros cs Hcache. by apply cached_again.
Qed.

Lemma batched_expansion_is_cached_witness :
  call_again [true; false; true] a_batch
  = ([Ok (Some [CommentNode (lit "dxolpyd") (Some a_submission) []]);
      Ok (Some [CommentNode (lit "dxolpyd") (Some a_submission) []]);
      Ok (Some [CommentNode (lit "dxolpyd") (Some a_submission) []])],
     {| self := set_comments
                  (Some [CommentNode (lit "dxolpyd") (Some a_submission) []])
                  (self a_batch);
        net := recording [];
        log := [batch_request (E := playback) a_submission
                  [lit "a"; lit "b"; lit "c"]] |}).
Proof.
  exact (proj1 (batched_expansion_is_cached playback true [false; true] a_batch
                  a_submission [a_reply] (recording []))
           eq_refl eq_refl ltac:(discriminate) eq_refl eq_refl).
Defined.

(* ================================================================== *)
(** * ReplyableMixin and VotableMixin: what is sent *)
(* ================================================================== *)

(** X6.  [reply] issues exactly one call, the POST of the body under the
    fullname of the receiver, whatever the transport answers, and does not
    change the receiver. *)
Theorem reply_issues_one_post (E : Env) (A : Type) (F : FullnameMixin A)
    (body : pystr) (s : state A) :
  log (Replyable.reply body s).2 = log s ++ [reply_request (self s) body]
  /\ self (Replyable.reply body s).2 = self s.
Proof.
  destruct s as [me t l]. run_reply. fold (reply_request me body).
  destruct (send (reply_request me body) t) as [[e|v] t']; [done|].
  destruct v as [|nodes| | | | |]; try done. by destruct nodes.
Qed.

(** X7.  [upvote], [downvote] and [clear_vote] are plain functions that call
    the coroutine [_vote] without awaiting it: they return [None] and send
    nothing, while [_vote], when awaited, issues one POST to the vote
    endpoint with the direction as a string and the fullname of the
    receiver. *)
Theorem votes_are_not_sent (E : Env) (A : Type) (F : FullnameMixin A)
    (s : state A) :
  Votable.upvote s = (Ok tt, s)
  /\ Votable.downvote s = (Ok tt, s)
  /\ Votable.clear_vote s = (Ok tt, s)
  /\ forall direction,
       log (Votable._vote direction s).2
       = log s ++ [vote_request (self s) direction].
Proof.
  split_and!; [done..|].
  intros direction. destruct s as [me t l].
  unfold Votable._vote, bind, get_self, reddit_post, call. cbn [self net log].
  fold (vote_request me direction).
  by destruct (send (vote_request me direction) t) as [[e|v] t'].
Qed.

(* ================================================================== *)
(** * Rules: moderation, lookup and reordering *)
(* ================================================================== *)

(** X8.  [RuleModeration.delete] and [update] check the rule before they
    call: on a rule without a subreddit both raise [ValueError], on a rule
    with a subreddit and without a short name both raise [AttributeError],
    and [update] raises [AttributeError] when a parameter is left
    unspecified and the rule has no attribute to take its place; in each
    case nothing is sent and the rule is unchanged. *)
Theorem moderation_checks_before_calling (E : Env)
    (description kind short_name violation_reason : option pystr)
    (s : state Rule) :
  (rule_subreddit (self s) = None ->
   Rules.delete s = (Raise ValueError, s)
   /\ Rules.update description kind short_name violation_reason s
      = (Raise ValueError, s))
  /\ (is_Some (rule_subreddit (self s)) ->
      rule_dict (self s) !! lit "short_name" = None ->
      Rules.delete s = (Raise AttributeError, s)
      /\ Rules.update description kind short_name violation_reason s
         = (Raise AttributeError, s))
  /\ (is_Some (rule_subreddit (self s)) ->
      is_Some (rule_dict (self s) !! lit "short_name") ->
      submitted (self s) (lit "description") description = None
      \/ submitted (self s) (lit "kind") kind = None
      \/ submitted (self s) (lit "violation_reason") violation_reason = None ->
      Rules.update description kind short_name violation_reason s
      = (Raise AttributeError, s)).
Proof.
  destruct s as [me t l]. cbn [self]. split_and!.
  - intros Hsub. split; run_rules; by rewrite Hsub.
  - intros [sub Hsub] Hname. split; run_rules; rewrite Hsub; run_rules;
      by rewrite Hname.
  - intros [sub Hsub] [old Hold] Hmissing.
    run_rules. rewrite Hsub. run_rules. rewrite Hold. run_rules.
    destruct description as [d|]; cbn [submitted] in Hmissing;
      [|destruct (rule_dict me !! lit "description") eqn:Hd; [|done]];
      (destruct kind as [k|]; cbn [submitted] in Hmissing;
       [|destruct (rule_dict me !! lit "kind") eqn:Hk; [|done]]);
      (destruct short_name as [n|]; [|rewrite ?Hold]);
      (destruct violation_reason as [v|]; cbn [submitted] in Hmissing;
       [|destruct (rule_dict me !! lit "violation_reason") eqn:Hv; [|done]]);
      run_rules; rewrite ?Hold; run_rules;
      exfalso; destruct Hmissing as [?|[?|?]]; discriminate.
Qed.

Lemma moderation_checks_before_calling_witness :
  Rules.delete (on (rule_named (lit "r1")) [inr (RValue VNone)])
  = (Raise ValueError, on (rule_named (lit "r1")) [inr (RValue VNone)])
  /\ Rules.update None None (Some (lit "r2")) None
       (on (listed (lit "r1")) [inr (RRules [a_rule])])
     = (Raise AttributeError, on (listed (lit "r1")) [inr (RRules [a_rule])]).
Proof.
  split.
  - exact (proj1 (proj1 (moderation_checks_before_calling playback
                           None None None None
                           (on (rule_named (lit "r1")) [inr (RValue VNone)]))
                    eq_refl)).
  - apply (proj2 (proj2 (moderation_checks_before_calling playback
                           None None (Some (lit "r2")) None
                           (on (listed (lit "r1")) [inr (RRules [a_rule])])))).
    + by eexists.
    + by eexists.
    + left. reflexivity.
Defined.

(** A run that has logged nothing cannot have logged [r]. *)
Lemma no_call_logged (l : list request) r : l = l ++ [r] -> False.
Proof.
  intros H. apply (f_equal length) in H. rewrite length_app in H.
  simpl in H. lia.
Qed.

Ltac answered_empty :=
  match goal with
  | |- context [send ?q ?t] =>
      let Hsend := fresh "Hsend" in
      destruct (send q t) as [[?|[| | |[|? ?]| | |]] ?] eqn:Hsend;
      run_rules;
      intros [= <-]%app_inv_head; rewrite Hsend; by intros [= <-]
  | |- _ = _ ++ [_] -> _ => by intros ?%no_call_logged
  end.

(** X9.  [SubredditRulesModeration.add] and [RuleModeration.update] take
    the first rule of the answer to their call: when the endpoint answers
    with an empty list they raise [IndexError], after the call. *)
Theorem empty_answer_raises_index_error (E : Env) :
  (forall short_name kind description violation_reason
          (s : state Rules.SubredditRules) r net',
      log (Rules.add short_name kind description violation_reason s).2
        = log s ++ [r] ->
      send r (net s) = (inr (RRules []), net') ->
      (Rules.add short_name kind description violation_reason s).1
        = Raise IndexError)
  /\ (forall description kind short_name violation_reason (s : state Rule) r net',
        log (Rules.update description kind short_name violation_reason s).2
          = log s ++ [r] ->
        send r (net s) = (inr (RRules []), net') ->
        (Rules.update description kind short_name violation_reason s).1
          = Raise IndexError).
Proof.
  split.
  - intros short_name kind description violation_reason [me t l] r net'.
    run_rules. answered_empty.
  - intros description kind short_name violation_reason [me t l] r net'.
    run_rules.
    destruct (rule_subreddit me) as [sub|]; [|answered_empty].
    run_rules.
    destruct (rule_dict me !! lit "short_name") as [old|] eqn:Hold;
      [|answered_empty].
    destruct description as [d|];
      [|destruct (rule_dict me !! lit "description") eqn:Hd];
      (destruct kind as [k|];
       [|destruct (rule_dict me !! lit "kind") eqn:Hk]);
      (destruct short_name as [n|]; [|rewrite ?Hold]);
      (destruct violation_reason as [v|];
       [|destruct (rule_dict me !! lit "violation_reason") eqn:Hv]);
      run_rules; rewrite ?Hold; run_rules; answered_empty.
Qed.

Lemma empty_answer_raises_index_error_witness :
  (Rules.add (lit "No spam") (lit "all") [] None
     (on {| Rules.subreddit := r_test |} [inr (RRules [])])).1
  = Raise IndexError.
Proof.
  eapply (proj1 (empty_answer_raises_index_error playback)
            (lit "No spam") (lit "all") [] None
            (on {| Rules.subreddit := r_test |} [inr (RRules [])])
            _ (recording [])).
  - reflexivity.
  - reflexivity.
Defined.

(** X10.  [SubredditRulesModeration.add] issues one POST that carries the
    subreddit, the short name, the kind and the description as given, and
    as violation reason the one given, or the short name when none is
    given. *)
Theorem add_defaults_violation_reason (E : Env)
    (short_name kind description : pystr) (violation_reason : option pystr)
    (s : state Rules.SubredditRules) :
  exists data : gmap pystr pyval,
    log (Rules.add short_name kind description violation_reason s).2
    = log s ++
      [ {| method := POST;
           path := API_PATH (lit "add_subreddit_rule");
           params := None;
           data := Form data;
           objectify := true |} ]
    /\ data !! lit "r" = Some (VStr (display_name (Rules.subreddit (self s))))
    /\ data !! lit "short_name" = Some (VStr short_name)
    /\ data !! lit "kind" = Some (VStr kind)
    /\ data !! lit "description" = Some (VStr description)
    /\ data !! lit "violation_reason"
       = Some (VStr (default short_name violation_reason))
    /\ dom data = {[ lit "r"; lit "description"; lit "kind"; lit "short_name";
                     lit "violation_reason" ]}.
Proof.
  destruct s as [me t l]. cbn [self log].
  eexists. split.
  - run_rules.
    match goal with |- context [send ?q ?t] =>
      destruct (send q t) as [[?|[| | |[|? ?]| | |]] ?] end; reflexivity.
  - split_and!.
    + by rewrite lookup_insert_eq.
    + by rewrite !lookup_insert_ne, lookup_insert_eq by key_neq.
    + by rewrite !lookup_insert_ne, lookup_insert_eq by key_neq.
    + by rewrite !lookup_insert_ne, lookup_insert_eq by key_neq.
    + rewrite !lookup_insert_ne, lookup_singleton_eq by key_neq.
      by destruct violation_reason.
    + rewrite !dom_insert_L, dom_singleton_L. set_solver.
Qed.

Lemma union_present (m : gmap pystr pyval) k v w :
  m !! k = Some v -> m ∪ (∅ ∪ {[ k := w ]}) = m.
Proof.
  intros Hk. rewrite (left_id_L ∅ (∪)). apply map_eq. intros i.
  rewrite lookup_union. destruct (decide (i = k)) as [-> | Hne].
  - by rewrite Hk, lookup_singleton_eq.
  - rewrite lookup_singleton_ne by done. by destruct (m !! i).
Qed.

Section LookupFacts.
Context {E : Env}.

(** The scan skips the rules of another name and stops at the first rule
    named [n]. *)
Lemma scan_finds mine n before rule after :
  rule_dict mine !! lit "short_name" = Some (VStr n) ->
  Forall (another_rule n) before ->
  named rule n ->
  scan mine (before ++ rule :: after)
  = inr {| rule_dict := rule_dict rule ∪ rule_dict mine;
           rule_subreddit := rule_subreddit rule;
           rule_fetched := true |}.
Proof.
  intros Hmine Hbefore Hrule.
  induction Hbefore as [|r rs [[theirs Hr] Hne] _ IH].
  - cbn [app scan]. rewrite Hrule, Hmine. cbn [Rules.py_eq].
    by rewrite bool_decide_eq_true_2.
  - cbn [app scan]. rewrite Hr, Hmine.
    destruct theirs as [| | |m| |]; cbn [Rules.py_eq]; try exact IH.
    rewrite bool_decide_eq_false_2; [exact IH|].
    intros ->. by apply Hne.
Qed.

Lemma scan_misses mine n rules :
  rule_dict mine !! lit "short_name" = Some (VStr n) ->
  Forall (another_rule n) rules ->
  scan mine rules = inl ClientException.
Proof.
  intros Hmine Hrules.
  induction Hrules as [|r rs [[theirs Hr] Hne] _ IH];
    [cbn [scan]; by rewrite Hmine|].
  cbn [scan]. rewrite Hr, Hmine.
  destruct theirs as [| | |m| |]; cbn [Rules.py_eq]; try exact IH.
  rewrite bool_decide_eq_false_2; [exact IH|].
  intros ->. by apply Hne.
Qed.

(** The run of [_rule_list] when the listing comes back. *)
Lemma listed_run (s : state Rules.SubredditRules) listing net' :
  send (rules_request (Rules.subreddit (self s))) (net s)
    = (inr (RRules listing), net') ->
  Rules._rule_list s
  = (Ok (List.map (Rules.set_rule_subreddit (Some (Rules.subreddit (self s))))
           listing),
     {| self := self s; net := net';
        log := log s ++ [rules_request (Rules.subreddit (self s))] |}).
Proof.
  destruct s as [me t l]. cbn [self net log]. intros Hsend.
  unfold Rules._rule_list, bind, get_self, reddit_get, call. cbn [self net log].
  fold (rules_request (Rules.subreddit me)). by rewrite Hsend.
Qed.

End LookupFacts.

(** X11.  [get_rule] with a non-empty name lists the rules of the subreddit
    in one GET and returns the first rule of that name, with the attributes
    of the listing, its subreddit set and marked as fetched; when every
    rule of the listing has another name it raises [ClientException]. *)
Theorem get_rule_by_name (E : Env) (s : state Rules.SubredditRules)
    (n : pystr) (listing : list Rule) (net' : transport) :
  n <> [] ->
  send (rules_request (Rules.subreddit (self s))) (net s)
    = (inr (RRules listing), net') ->
  (forall before rule after,
      listing = before ++ rule :: after ->
      Forall (another_rule n) before ->
      named rule n ->
      Rules.get_rule (Rules.ByName n) s
      = (Ok (Rules.OneRule {| rule_dict := rule_dict rule;
                              rule_subreddit := Some (Rules.subreddit (self s));
                              rule_fetched := true |}),
         {| self := self s; net := net';
            log := log s ++ [rules_request (Rules.subreddit (self s))] |}))
  /\ (Forall (another_rule n) listing ->
      Rules.get_rule (Rules.ByName n) s
      = (Raise ClientException,
         {| self := self s; net := net';
            log := log s ++ [rules_request (Rules.subreddit (self s))] |})).
Proof.
  intros Hn Hsend.
  assert (Hinit : Rules.Rule__init__ (Some (Rules.subreddit (self s))) (Some n) None
                  = Ok {| rule_dict := ∅ ∪ {[ lit "short_name" := VStr n ]};
                          rule_subreddit := Some (Rules.subreddit (self s));
                          rule_fetched := false |}).
  { unfold Rules.Rule__init__. by destruct n. }
  assert (Hrun :
    Rules.get_rule (Rules.ByName n) s
    = match scan {| rule_dict := ∅ ∪ {[ lit "short_name" := VStr n ]};
                    rule_subreddit := Some (Rules.subreddit (self s));
                    rule_fetched := false |}
              (List.map (Rules.set_rule_subreddit (Some (Rules.subreddit (self s))))
                 listing) with
      | inr r => (Ok (Rules.OneRule r),
                  {| self := self s; net := net';
                     log := log s ++ [rules_request (Rules.subreddit (self s))] |})
      | inl e => (Raise e,
                  {| self := self s; net := net';
                     log := log s ++ [rules_request (Rules.subreddit (self s))] |})
      end).
  { destruct s as [me t l]. cbn [self net log] in *.
    unfold Rules.get_rule. unfold bind at 1. cbn [get_self self net log].
    rewrite Hinit. unfold bind at 1. cbn [lift].
    unfold bind at 1. unfold run_on. cbn [self net log].
    unfold Rules._fetch. unfold bind at 1. cbn [get_self self net log].
    unfold bind at 1. cbn [Rules.rule_subreddit_attr rule_subreddit need ret].
    unfold bind at 1. unfold zoom, Rules.__aiter__. cbn [self net log Rules.subreddit].
    rewrite (listed_run {| self := {| Rules.subreddit := Rules.subreddit me |};
                           net := t; log := l |} listing net' Hsend).
    cbn [self net log Rules.subreddit]. rewrite scan_run. cbn [self net log].
    by destruct (scan _ _). }
  assert (Hmine : rule_dict
            {| rule_dict := ∅ ∪ {[ lit "short_name" := VStr n ]};
               rule_subreddit := Some (Rules.subreddit (self s));
               rule_fetched := false |} !! lit "short_name" = Some (VStr n)).
  { cbn [rule_dict]. rewrite (left_id_L ∅ (∪)). apply lookup_singleton_eq. }
  assert (Hkeep : forall rules,
            Forall (another_rule n) rules ->
            Forall (another_rule n)
              (List.map (Rules.set_rule_subreddit (Some (Rules.subreddit (self s))))
                 rules)).
  { intros rules Hall. induction Hall; cbn [List.map]; by constructor. }
  split.
  - intros before rule after -> Hbefore Hrule. rewrite Hrun.
    rewrite List.map_app. cbn [List.map].
    rewrite (scan_finds _ n _ _ _ Hmine (Hkeep _ Hbefore)) by exact Hrule.
    cbn [Rules.set_rule_subreddit rule_dict rule_subreddit].
    by rewrite (union_present _ _ _ _ Hrule).
  - intros Hall. rewrite Hrun.
    by rewrite (scan_misses _ n _ Hmine (Hkeep _ Hall)).
Qed.

Lemma get_rule_by_name_witness :
  (Rules.get_rule (Rules.ByName (lit "r2")) test_rules).1
  = Ok (Rules.OneRule {| rule_dict := {[ lit "short_name" := VStr (lit "r2") ]};
                         rule_subreddit := Some r_test;
                         rule_fetched := true |}).
Proof.
  rewrite (proj1 (get_rule_by_name playback test_rules (lit "r2") three_rules
                    (recording []) ltac:(discriminate) eq_refl)
             [rule_named (lit "r1")] (rule_named (lit "r2"))
             [rule_named (lit "r3")] eq_refl).
  - reflexivity.
  - constructor; [|constructor]. split; [by eexists|].
    intros H. vm_compute in H. discriminate H.
  - reflexivity.
Defined.

Section SequenceFacts.
Context {A : Type}.

Lemma nth_error_lookup (l : list A) i : nth_error l i = l !! i.
Proof. revert i. induction l; intros [|i]; simpl; auto. Qed.

(** [l[i]] for an index within bounds, from the start or from the end, and
    out of bounds. *)
Lemma index_in_range (l : list A) i :
  (0 <= i < Z.of_nat (length l))%Z ->
  PySeq.index l i = l !! Z.to_nat i.
Proof.
  intros Hi. unfold PySeq.index.
  destruct (Z.ltb_spec i 0); [lia|].
  destruct (Z.leb_spec 0 i); [|lia].
  destruct (Z.ltb_spec i (Z.of_nat (length l))); [|lia].
  cbn [andb]. apply nth_error_lookup.
Qed.

Lemma index_from_end (l : list A) i :
  (- Z.of_nat (length l) <= i < 0)%Z ->
  PySeq.index l i = l !! (length l - Z.to_nat (- i)).
Proof.
  intros Hi. unfold PySeq.index.
  destruct (Z.ltb_spec i 0); [|lia].
  destruct (Z.leb_spec 0 (i + Z.of_nat (length l))); [|lia].
  destruct (Z.ltb_spec (i + Z.of_nat (length l)) (Z.of_nat (length l))); [|lia].
  cbn [andb]. rewrite nth_error_lookup. f_equal. lia.
Qed.

Lemma index_out_of_range (l : list A) i :
  (i < - Z.of_nat (length l) \/ Z.of_nat (length l) <= i)%Z ->
  PySeq.index l i = None.
Proof.
  intros Hi. unfold PySeq.index.
  destruct (Z.ltb_spec i 0).
  - destruct (Z.leb_spec 0 (i + Z.of_nat (length l))); [lia | done].
  - destruct (Z.leb_spec 0 i); [|lia].
    destruct (Z.ltb_spec i (Z.of_nat (length l))); [lia | done].
Qed.

(** The items a slice with step 1 runs over. *)
Lemma slice_items (l : list A) lo j m :
  (0 <= lo)%Z ->
  Z.to_nat lo + j + m <= length l ->
  omap (fun k => nth_error l (Z.to_nat (lo + Z.of_nat k * 1))) (seq j m)
  = take m (drop (Z.to_nat lo + j) l).
Proof.
  intros Hlo. revert j. induction m as [|m IH]; intros j Hlen.
  - by rewrite take_0.
  - cbn [seq omap list_omap]. rewrite nth_error_lookup.
    replace (Z.to_nat (lo + Z.of_nat j * 1)) with (Z.to_nat lo + j) by lia.
    destruct (lookup_lt_is_Some_2 l (Z.to_nat lo + j)) as [x Hx]; [lia|].
    rewrite Hx. rewrite (drop_S l x (Z.to_nat lo + j) Hx). cbn [take].
    f_equal. rewrite IH by lia. f_equal. f_equal. lia.
Qed.

Lemma clamp_bounds n b : (0 <= n)%Z -> (0 <= PySeq.clamp n 1 b <= n)%Z.
Proof.
  intros Hn. unfold PySeq.clamp. change (1 <? 0)%Z with false. cbv iota.
  repeat match goal with
         | |- context [(?a <? ?b)%Z] => destruct (Z.ltb_spec a b)
         | |- context [(?a <=? ?b)%Z] => destruct (Z.leb_spec a b)
         end; lia.
Qed.

(** [l[start:stop]]: the items from the clamped start up to the clamped
    stop. *)
Lemma slice_step_one (l : list A) start stop :
  let n := Z.of_nat (length l) in
  let lo := match start with Some b => PySeq.clamp n 1 b | None => 0%Z end in
  let hi := match stop with Some b => PySeq.clamp n 1 b | None => n end in
  PySeq.slice l start stop None
  = Some (take (Z.to_nat (hi - lo)) (drop (Z.to_nat lo) l)).
Proof.
  intros n lo hi. unfold PySeq.slice, PySeq.indices.
  cbn [default]. change (1 =? 0)%Z with false. change (1 <? 0)%Z with false.
  cbv iota. fold n. fold lo. fold hi. f_equal.
  assert (Hlo : (0 <= lo <= n)%Z).
  { subst lo. destruct start as [b|]; [apply clamp_bounds|]; lia. }
  assert (Hhi : (0 <= hi <= n)%Z).
  { subst hi. destruct stop as [b|]; [apply clamp_bounds|]; lia. }
  unfold PySeq.slice_length. change (1 <? 0)%Z with false. cbv iota.
  destruct (Z.ltb_spec lo hi) as [Hlt | Hge].
  - rewrite Z.div_1_r.
    replace (hi - lo - 1 + 1)%Z with (hi - lo)%Z by lia.
    rewrite (slice_items l lo 0 (Z.to_nat (hi - lo))) by lia.
    by rewrite Nat.add_0_r.
  - replace (Z.to_nat (hi - lo)) with 0 by lia. by rewrite take_0.
Qed.

End SequenceFacts.

(** X12.  [get_rule] with a number returns the rule at that index of the
    listing, counting from the end when the number is negative, so that -1
    gives the last rule; a number outside the listing raises [IndexError]. *)
Theorem get_rule_by_number (E : Env) (s : state Rules.SubredditRules)
    (i : Z) (listing : list Rule) (net' : transport) :
  send (rules_request (Rules.subreddit (self s))) (net s)
    = (inr (RRules listing), net') ->
  ((0 <= i < Z.of_nat (length listing))%Z ->
   exists rule,
     listing !! Z.to_nat i = Some rule
     /\ (Rules.get_rule (Rules.ByNumber i) s).1
        = Ok (Rules.OneRule
                (Rules.set_rule_subreddit (Some (Rules.subreddit (self s))) rule)))
  /\ ((- Z.of_nat (length listing) <= i < 0)%Z ->
      exists rule,
        listing !! (length listing - Z.to_nat (- i)) = Some rule
        /\ (Rules.get_rule (Rules.ByNumber i) s).1
           = Ok (Rules.OneRule
                   (Rules.set_rule_subreddit (Some (Rules.subreddit (self s))) rule)))
  /\ ((i < - Z.of_nat (length listing) \/ Z.of_nat (length listing) <= i)%Z ->
      (Rules.get_rule (Rules.ByNumber i) s).1 = Raise IndexError).
Proof.
  intros Hsend.
  set (place := Rules.set_rule_subreddit (Some (Rules.subreddit (self s)))).
  assert (Hrun : (Rules.get_rule (Rules.ByNumber i) s).1
                 = match PySeq.index (List.map place listing) i with
                   | Some rule => Ok (Rules.OneRule rule)
                   | None => Raise IndexError
                   end).
  { unfold Rules.get_rule. unfold bind at 1. cbn [get_self].
    unfold bind at 1. rewrite (listed_run s listing net' Hsend).
    unfold bind. fold place. by destruct (PySeq.index _ _). }
  rewrite Hrun. split_and!.
  - intros Hi.
    rewrite index_in_range by by rewrite length_map.
    rewrite list_lookup_fmap.
    destruct (lookup_lt_is_Some_2 listing (Z.to_nat i)) as [rule Hrule]; [lia|].
    exists rule. by rewrite Hrule.
  - intros Hi.
    rewrite index_from_end by by rewrite length_map.
    rewrite length_map, list_lookup_fmap.
    destruct (lookup_lt_is_Some_2 listing (length listing - Z.to_nat (- i)))
      as [rule Hrule]; [lia|].
    exists rule. by rewrite Hrule.
  - intros Hi. rewrite index_out_of_range; [done|]. by rewrite length_map.
Qed.

Lemma get_rule_by_number_witness :
  (exists rule,
     three_rules !! 2 = Some rule
     /\ (Rules.get_rule (Rules.ByNumber (-1)) test_rules).1
        = Ok (Rules.OneRule (Rules.set_rule_subreddit (Some r_test) rule)))
  /\ (Rules.get_rule (Rules.ByNumber 3) test_rules).1 = Raise IndexError.
Proof.
  destruct (get_rule_by_number playback test_rules (-1) three_rules
              (recording []) eq_refl) as (_ & Hend & _).
  destruct (get_rule_by_number playback test_rules 3 three_rules
              (recording []) eq_refl) as (_ & _ & Hout).
  split; [apply Hend | apply Hout]; simpl; lia.
Defined.

(** X13.  [get_rule] with a slice returns the rules of that slice of the
    listing: [slice(-k, None)] gives the last [k] rules, [slice(None, k)]
    the first [k], and a slice with step 0 raises [ValueError]. *)
Theorem get_rule_by_slice (E : Env) (s : state Rules.SubredditRules)
    (k : Z) (start stop : option Z) (listing : list Rule) (net' : transport) :
  send (rules_request (Rules.subreddit (self s))) (net s)
    = (inr (RRules listing), net') ->
  ((0 < k)%Z ->
   (Rules.get_rule (Rules.BySlice (Some (- k)%Z) None None) s).1
   = Ok (Rules.SomeRules
           (List.map (Rules.set_rule_subreddit (Some (Rules.subreddit (self s))))
              (drop (length listing - Z.to_nat k) listing))))
  /\ ((0 <= k)%Z ->
      (Rules.get_rule (Rules.BySlice None (Some k) None) s).1
      = Ok (Rules.SomeRules
              (List.map (Rules.set_rule_subreddit (Some (Rules.subreddit (self s))))
                 (take (Z.to_nat k) listing))))
  /\ (Rules.get_rule (Rules.BySlice start stop (Some 0%Z)) s).1
     = Raise ValueError.
Proof.
  intros Hsend.
  set (place := Rules.set_rule_subreddit (Some (Rules.subreddit (self s)))).
  assert (Hrun : forall start stop step,
            (Rules.get_rule (Rules.BySlice start stop step) s).1
            = match PySeq.slice (List.map place listing) start stop step with
              | Some rules => Ok (Rules.SomeRules rules)
              | None => Raise ValueError
              end).
  { intros a b c. unfold Rules.get_rule. unfold bind at 1. cbn [get_self].
    unfold bind at 1. rewrite (listed_run s listing net' Hsend).
    unfold bind. fold place. by destruct (PySeq.slice _ _ _ _). }
  rewrite !Hrun. split_and!.
  - intros Hk. rewrite slice_step_one, length_map. do 2 f_equal.
    rewrite <- fmap_drop.
    unfold PySeq.clamp. change (1 <? 0)%Z with false. cbv iota.
    destruct (Z.ltb_spec (- k) 0); [|lia].
    destruct (Z.ltb_spec (- k + Z.of_nat (length listing)) 0).
    + rewrite Z.sub_0_r, Nat2Z.id. cbn [Z.to_nat].
      replace (length listing - Z.to_nat k) with 0 by lia.
      rewrite !drop_0. apply take_ge. by rewrite length_map.
    + replace (Z.to_nat (- k + Z.of_nat (length listing)))
        with (length listing - Z.to_nat k) by lia.
      apply take_ge. rewrite length_fmap, length_drop. lia.
  - intros Hk. rewrite slice_step_one, length_map. do 2 f_equal.
    rewrite Z.sub_0_r. cbn [Z.to_nat]. rewrite drop_0, <- fmap_take.
    unfold PySeq.clamp. change (1 <? 0)%Z with false. cbv iota.
    destruct (Z.ltb_spec k 0); [lia|].
    destruct (Z.leb_spec (Z.of_nat (length listing)) k); [|done].
    rewrite Nat2Z.id. rewrite !take_ge; [done | lia | lia].
  - reflexivity.
Qed.

Lemma get_rule_by_slice_witness :
  (Rules.get_rule (Rules.BySlice (Some (-2)%Z) None None) test_rules).1
  = Ok (Rules.SomeRules [listed (lit "r2"); listed (lit "r3")]).
Proof.
  exact (proj1 (get_rule_by_slice playback test_rules 2 None None three_rules
                  (recording []) eq_refl) ltac:(lia)).
Defined.

(** X14.  A rule that the listing of a subreddit yields can be deleted as it
    is: its moderation issues one POST with the display name of that
    subreddit and the short name of the rule. *)
Theorem listed_rules_can_be_deleted (E : Env)
    (s s1 : state Rules.SubredditRules) (rules : list Rule) (rule : Rule)
    (n : pystr) (s2 : state Rule) :
  Rules.__aiter__ s = (Ok rules, s1) ->
  In rule rules ->
  named rule n ->
  self s2 = rule ->
  log (Rules.delete s2).2
  = log s2 ++
    [ {| method := POST;
         path := API_PATH (lit "remove_subreddit_rule");
         params := None;
         data := Form {[ lit "r" :=
                           VStr (display_name (Rules.subreddit (self s)));
                         lit "short_name" := VStr n ]};
         objectify := true |} ].
Proof.
  intros Hlist Hin Hname Hself.
  assert (Hsub : rule_subreddit rule = Some (Rules.subreddit (self s))).
  { destruct s as [me t l]. revert Hlist.
    unfold Rules.__aiter__, Rules._rule_list, bind, get_self, reddit_get, call.
    cbn [self net log].
    destruct (send _ t) as [[e|[| | |listing| | |]] t']; try done.
    intros [= <- _]. apply in_map_iff in Hin as (r & <- & _). done. }
  destruct s2 as [me2 t2 l2]. cbn [self log] in *. subst me2.
  run_rules. rewrite Hsub. run_rules. rewrite Hname. run_rules.
  by destruct (send _ t2) as [[e|v] t'].
Qed.

Lemma listed_rules_can_be_deleted_witness :
  log (Rules.delete (on (listed (lit "r2")) [inr (RValue VNone)])).2
  = [ {| method := POST;
         path := lit "remove_subreddit_rule";
         params := None;
         data := Form {[ lit "r" := VStr (lit "test");
                         lit "short_name" := VStr (lit "r2") ]};
         objectify := true |} ].
Proof.
  refine (listed_rules_can_be_deleted playback test_rules
            (Rules.__aiter__ test_rules).2
            [listed (lit "r1"); listed (lit "r2"); listed (lit "r3")]
            (listed (lit "r2")) (lit "r2")
            (on (listed (lit "r2")) [inr (RValue VNone)]) eq_refl _ eq_refl eq_refl).
  right. by left.
Defined.

Lemma join_cons sep (x y : pystr) r :
  join sep (x :: y :: r) = x ++ sep ++ join sep (y :: r).
Proof. reflexivity. Qed.

(** A name with a comma joins as the two names around the comma do. *)
Lemma join_comma before a b after :
  join [comma] (before ++ (a ++ comma :: b) :: after)
  = join [comma] (before ++ a :: b :: after).
Proof.
  induction before as [|x before IH].
  - cbn [app]. rewrite join_cons. destruct after as [|y after].
    + reflexivity.
    + rewrite !join_cons, <- app_assoc. reflexivity.
  - cbn [app]. destruct before as [|z before].
    + cbn [app] in *. by rewrite !join_cons, IH.
    + cbn [app] in *. rewrite (join_cons _ x z), (join_cons _ x z). by rewrite IH.
Qed.

Lemma join_elem sep names name c :
  In name names -> In c name -> In c (join sep names).
Proof.
  induction names as [|x [|y r] IH]; [done| |].
  - intros [-> | []] Hc. exact Hc.
  - intros Hin Hc. rewrite join_cons. apply in_or_app.
    destruct Hin as [-> | Hin]; [by left|].
    right. apply in_or_app. right. by apply IH.
Qed.

(** A string with a surrogate cannot be encoded. *)
Lemma utf8_encode_surrogate s c :
  In c s -> (55296 <= c <= 57343)%N -> utf8_encode s = None.
Proof.
  intros Hin Hc. induction s as [|a r IH]; [done|].
  cbn [utf8_encode]. destruct Hin as [-> | Hin].
  - unfold utf8_encode_codepoint.
    destruct (N.ltb_spec c 128); [lia|].
    destruct (N.ltb_spec c 2048); [lia|].
    destruct (N.ltb_spec c 65536); [|lia].
    destruct (N.leb_spec 55296 c); [|lia].
    destruct (N.leb_spec c 57343); [|lia]. done.
  - rewrite (IH Hin). by destruct (utf8_encode_codepoint a).
Qed.

Section ReorderFacts.
Context {E : Env}.

(** [reorder] up to the escaping of the joined names. *)
Lemma reorder_by_names rule_list names (s : state Rules.SubredditRules) :
  Forall2 named rule_list names ->
  Rules.reorder rule_list s
  = (order <- need UnicodeEncodeError (quote [comma] (join [comma] names)) ;;
     answer <- reddit_post (API_PATH (lit "reorder_subreddit_rules")) None
                 (Form {[ lit "r" :=
                            VStr (display_name (Rules.subreddit (self s)));
                          lit "new_rule_order" := VStr order ]}) ;;
     rules <- as_rules answer ;;
     ret (List.map (Rules.set_rule_subreddit
                      (Some (Rules.subreddit (self s)))) rules)) s.
Proof.
  intros Hnames. destruct s as [me t l]. unfold Rules.reorder.
  unfold bind at 1. cbn [get_self self net log].
  unfold bind at 1. rewrite (short_names_run rule_list names _ Hnames).
  unfold bind at 1. rewrite as_str_run. reflexivity.
Qed.

Lemma short_names_missing {Self : Type} rule_list (s : state Self) :
  Exists (fun rule => rule_dict rule !! lit "short_name" = None) rule_list ->
  for_each (fun rule => Rules.rule_attr rule (lit "short_name")) rule_list s
  = (Raise AttributeError, s).
Proof.
  induction rule_list as [|rule rules IH]; intros Hex; [by inversion Hex|].
  cbn [for_each]. unfold bind at 1. unfold Rules.rule_attr at 1.
  destruct (rule_dict rule !! lit "short_name") as [v|] eqn:Hv; [|done].
  cbn [need ret]. unfold bind at 1. rewrite IH; [done|].
  inversion Hex as [? ? Hhere | ? ? Hthere]; subst; [congruence | done].
Qed.

End ReorderFacts.

(** X15.  [reorder] cannot tell a comma inside a short name from the comma
    between two names: a list of rules in which one rule is named [a,b]
    runs exactly as the list in which two rules named [a] and [b] stand at
    its place, with the same call and the same result. *)
Theorem reorder_cannot_tell_a_comma (E : Env) (rules1 rules2 : list Rule)
    (before after : list pystr) (a b : pystr)
    (s : state Rules.SubredditRules) :
  Forall2 named rules1 (before ++ (a ++ comma :: b) :: after) ->
  Forall2 named rules2 (before ++ a :: b :: after) ->
  Rules.reorder rules1 s = Rules.reorder rules2 s.
Proof.
  intros H1 H2.
  rewrite (reorder_by_names rules1 _ s H1), (reorder_by_names rules2 _ s H2).
  by rewrite join_comma.
Qed.

Lemma reorder_cannot_tell_a_comma_witness :
  Rules.reorder [rule_named (lit "r3"); rule_named (lit "r1,r2")] reordering
  = Rules.reorder [rule_named (lit "r3"); rule_named (lit "r1");
                   rule_named (lit "r2")] reordering.
Proof.
  apply (reorder_cannot_tell_a_comma playback _ _ [lit "r3"] []
           (lit "r1") (lit "r2") reordering); repeat constructor.
Defined.

(** X16.  [reorder] checks the rules before it calls: when a rule of the
    list has no short name it raises [AttributeError], and when a short
    name holds a surrogate, which cannot be encoded, it raises
    [UnicodeEncodeError]; in both cases nothing is sent. *)
Theorem reorder_checks_before_calling (E : Env) (rule_list : list Rule)
    (s : state Rules.SubredditRules) :
  (Exists (fun rule => rule_dict rule !! lit "short_name" = None) rule_list ->
   Rules.reorder rule_list s = (Raise AttributeError, s))
  /\ (forall names name c,
        Forall2 named rule_list names ->
        In name names -> In c name -> (55296 <= c <= 57343)%N ->
        Rules.reorder rule_list s = (Raise UnicodeEncodeError, s)).
Proof.
  split.
  - intros Hex. destruct s as [me t l]. unfold Rules.reorder.
    unfold bind at 1. cbn [get_self self net log].
    unfold bind at 1. by rewrite (short_names_missing rule_list _ Hex).
  - intros names name c Hnames Hname Hc Hsur.
    rewrite (reorder_by_names rule_list names s Hnames).
    unfold bind at 1. unfold quote.
    by rewrite (utf8_encode_surrogate _ c (join_elem _ _ _ _ Hname Hc) Hsur).
Qed.

Lemma reorder_checks_before_calling_witness :
  Rules.reorder [rule_named (lit "r1"); a_blank_rule] reordering
  = (Raise AttributeError, reordering)
  /\ Rules.reorder [rule_named [55357%N]] reordering
     = (Raise UnicodeEncodeError, reordering).
Proof.
  split.
  - apply (proj1 (reorder_checks_before_calling playback
                    [rule_named (lit "r1"); a_blank_rule] reordering)).
    right. left. reflexivity.
  - apply (proj2 (reorder_checks_before_calling playback
                    [rule_named [55357%N]] reordering)
             [[55357%N]] [55357%N] 55357%N).
    + repeat constructor.
    + by left.
    + by left.
    + lia.
Defined.

Lemma log2_below a n : (0 < n)%N -> (a < 2 ^ n)%N -> (N.log2 a < n)%N.
Proof.
  intros Hn Ha. destruct (N.eq_dec a 0%N) as [-> | Hne]; [done|].
  apply N.log2_lt_pow2; lia.
Qed.

Lemma lor_below a b n :
  (0 < n)%N -> (a < 2 ^ n)%N -> (b < 2 ^ n)%N -> (N.lor a b < 2 ^ n)%N.
Proof.
  intros Hn Ha Hb.
  destruct (N.eq_dec (N.lor a b) 0%N) as [-> | Hne]; [lia|].
  apply N.log2_lt_pow2; [lia|]. rewrite N.log2_lor.
  apply N.max_lub_lt; by apply log2_below.
Qed.

Lemma land_63 c : (N.land c 63 < 64)%N.
Proof.
  change 63%N with (N.ones 6). rewrite N.land_ones.
  apply N.mod_lt. done.
Qed.

Lemma byte_lor a b : (a < 256)%N -> (b < 256)%N -> (N.lor a b < 256)%N.
Proof. by apply (lor_below a b 8). Qed.

(** The encoding of a code point consists of bytes. *)
Lemma utf8_bytes c bs :
  utf8_encode_codepoint c = Some bs -> Forall (fun b => (b < 256)%N) bs.
Proof.
  unfold utf8_encode_codepoint.
  pose proof (land_63 c). pose proof (land_63 (N.shiftr c 6)).
  pose proof (land_63 (N.shiftr c 12)).
  destruct (N.ltb_spec c 128).
  { intros [= <-]. repeat constructor. lia. }
  destruct (N.ltb_spec c 2048).
  { intros [= <-]. repeat constructor; apply byte_lor; try lia.
    rewrite N.shiftr_div_pow2. apply N.Div0.div_lt_upper_bound.
    change (2 ^ 6)%N with 64%N. lia. }
  destruct (N.ltb_spec c 65536).
  { destruct (_ && _); [done|].
    intros [= <-]. repeat constructor; apply byte_lor; try lia.
    rewrite N.shiftr_div_pow2. apply N.Div0.div_lt_upper_bound.
    change (2 ^ 12)%N with 4096%N. lia. }
  destruct (N.ltb_spec c 1114112); [|done].
  intros [= <-]. repeat constructor; apply byte_lor; try lia.
  rewrite N.shiftr_div_pow2. apply N.Div0.div_lt_upper_bound.
  change (2 ^ 18)%N with 262144%N. lia.
Qed.

Lemma hex_digit_safe n : (n < 16)%N -> always_safe (hex_digit n) = true.
Proof.
  intros Hn. unfold hex_digit, always_safe, ascii_isalnum, ascii_isdigit,
    ascii_isupper, ascii_islower.
  destruct (N.ltb_spec n 10).
  - replace (48 <=? 48 + n)%N with true by (symmetry; apply N.leb_le; lia).
    replace (48 + n <=? 57)%N with true by (symmetry; apply N.leb_le; lia).
    done.
  - replace (65 <=? 55 + n)%N with true by (symmetry; apply N.leb_le; lia).
    replace (55 + n <=? 90)%N with true by (symmetry; apply N.leb_le; lia).
    by rewrite orb_true_r.
Qed.

Lemma quote_byte_safe b :
  (b < 256)%N -> Forall url_safe (quote_byte [comma] b).
Proof.
  intros Hb. unfold quote_byte.
  destruct (always_safe b) eqn:Hs.
  - constructor; [by left | constructor].
  - cbn [orb List.filter existsb].
    change (comma <? 128)%N with true. cbn [existsb orb].
    destruct (N.eqb_spec b comma) as [-> | Hne].
    + constructor; [right; by left | constructor].
    + cbn [orb]. constructor; [|constructor; [|constructor; [|constructor]]].
      * right. by right.
      * left. apply hex_digit_safe.
        apply N.Div0.div_lt_upper_bound. lia.
      * left. apply hex_digit_safe. apply N.mod_lt. done.
Qed.

Lemma always_safe_ascii c : always_safe c = true -> (c < 128)%N.
Proof.
  unfold always_safe, ascii_isalnum, ascii_isdigit, ascii_isupper, ascii_islower.
  rewrite !orb_true_iff, !andb_true_iff, !N.leb_le, !N.eqb_eq. lia.
Qed.

(** What is escaped consists of unreserved characters, commas and percent
    signs. *)
Lemma quote_url_safe s q : quote [comma] s = Some q -> Forall url_safe q.
Proof.
  unfold quote. destruct (utf8_encode s) as [bs|] eqn:Hbs; [|done].
  intros [= <-].
  assert (Hbytes : Forall (fun b => (b < 256)%N) bs).
  { revert bs Hbs. induction s as [|c r IH]; intros bs.
    - intros [= <-]. constructor.
    - cbn [utf8_encode].
      destruct (utf8_encode_codepoint c) as [b|] eqn:Hc; [|done].
      destruct (utf8_encode r) as [br|]; [|done].
      intros [= <-]. apply Forall_app. split; [by apply (utf8_bytes c) | by apply IH]. }
  clear Hbs. induction Hbytes as [|b bs Hb _ IH]; [constructor|].
  cbn [List.map List.concat]. apply Forall_app. split; [by apply quote_byte_safe | done].
Qed.

(** A string of unreserved characters and commas is left as it is. *)
Lemma quote_unreserved s :
  Forall (fun c => always_safe c = true \/ c = comma) s ->
  quote [comma] s = Some s.
Proof.
  intros Hs. induction Hs as [|c r Hc _ IH]; [done|].
  change (c :: r) with ([c] ++ r). rewrite quote_app, IH.
  assert (Hone : quote [comma] [c] = Some [c]); [|by rewrite Hone].
  unfold quote. cbn [utf8_encode]. unfold utf8_encode_codepoint.
  assert (Hlt : (c < 128)%N).
  { destruct Hc as [Hc | ->]; [by apply always_safe_ascii | done]. }
  destruct (N.ltb_spec c 128); [|lia].
  cbn [app List.map List.concat]. rewrite app_nil_r. unfold quote_byte.
  destruct Hc as [-> | ->]; [done|].
  done.
Qed.

(** X17.  The order string that [reorder] sends is made of unreserved
    characters (letters, digits and [_.-~]), commas and percent signs only,
    and it is the plain comma-join of the short names when these are made of
    unreserved characters. *)
Theorem reorder_sends_a_url_safe_order (E : Env) (rule_list : list Rule)
    (names : list pystr) (order : pystr) (s : state Rules.SubredditRules) :
  Forall2 named rule_list names ->
  log (Rules.reorder rule_list s).2
    = log s ++ [reorder_request (Rules.subreddit (self s)) order] ->
  Forall url_safe order
  /\ (Forall (Forall (fun c => always_safe c = true)) names ->
      order = join [comma] names).
Proof.
  intros Hnames Hlog.
  assert (Hquote : quote [comma] (join [comma] names) = Some order).
  { revert Hlog. rewrite (reorder_by_names rule_list names s Hnames).
    destruct s as [me t l]. unfold bind at 1. cbn [self log].
    destruct (quote [comma] (join [comma] names)) as [o|];
      [|by intros ?%no_call_logged].
    cbn [need ret]. unfold bind, reddit_post, call. cbn [self net log].
    fold (reorder_request (Rules.subreddit me) o).
    intros Hlog. f_equal.
    assert (Hreq : reorder_request (Rules.subreddit me) o
                   = reorder_request (Rules.subreddit me) order).
    { destruct (send _ t) as [[e|[| | |rules| | |]] t'];
        lazy beta iota zeta delta [snd log as_rules ret raise] in Hlog;
        apply app_inv_head in Hlog; congruence. }
    apply (f_equal data) in Hreq. cbn [reorder_request data] in Hreq.
    assert (Hdata : forall a b : gmap pystr pyval, Form a = Form b -> a = b)
      by (intros; congruence).
    apply Hdata in Hreq.
    apply (f_equal (fun d : gmap pystr pyval => d !! lit "new_rule_order"))
      in Hreq.
    rewrite !lookup_insert_ne, !lookup_singleton_eq in Hreq by key_neq.
    congruence. }
  split.
  - by apply (quote_url_safe (join [comma] names)).
  - intros Hsafe. rewrite quote_unreserved in Hquote; [by injection Hquote|].
    clear Hquote Hlog Hnames. induction Hsafe as [|x r Hx Hr IH]; [constructor|].
    destruct r as [|y r]; cbn [join].
    + eapply Forall_impl; [exact Hx | by left].
    + apply Forall_app. split; [eapply Forall_impl; [exact Hx | by left]|].
      apply Forall_app. split; [repeat constructor; by right | exact IH].
Qed.

Lemma reorder_sends_a_url_safe_order_witness :
  log (Rules.reorder [rule_named (lit "No spam"); rule_named (lit "r2")]
         reordering).2
  = [reorder_request (E := playback) r_test (lit "No%20spam,r2")]
  /\ Forall url_safe (lit "No%20spam,r2").
Proof.
  split; [vm_compute; reflexivity|].
  refine (proj1 (reorder_sends_a_url_safe_order playback
            [rule_named (lit "No spam"); rule_named (lit "r2")]
            [lit "No spam"; lit "r2"] (lit "No%20spam,r2") reordering _ _)).
  - repeat constructor.
  - vm_compute. reflexivity.
Defined.

(* ================================================================== *)
(** * Redditor: construction, gilding and fetching *)
(* ================================================================== *)

(** The end of a constructor returns the attributes or raises
    [ValueError]. *)
Lemma base_init_outcome STR_FIELD extra own d :
  (exists attributes, RedditBase__init__ STR_FIELD extra own d = Ok attributes)
  \/ RedditBase__init__ STR_FIELD extra own d = Raise ValueError.
Proof.
  unfold RedditBase__init__. destruct (bool_decide _); [left; by eexists|].
  destruct extra as [attribute|]; [|by right].
  destruct (bool_decide _); [left; by eexists | by right].
Qed.

(** X18.  The constructor of [Redditor] raises [TypeError] exactly when the
    number of arguments that are given, that is not [None], among [name],
    [fullname] and [_data] is not one; given a non-empty name alone it
    builds a redditor that is not fetched and whose [str] is that name;
    given data that is truthy and is no dict with a [name], it raises
    [AssertionError]; given the empty name, the empty fullname or falsy data
    alone, it raises [ValueError].  [from_data] answers [None] for the name
    of a deleted account and the redditor of that name for another
    non-empty name. *)
Theorem redditor_needs_exactly_one_argument (E : Env)
    (name fullname : option pystr) (_data : pyval) :
  (provided name fullname _data <> 1 <->
   Redditor.__init__ name fullname _data = Raise TypeError)
  /\ (forall n, name = Some n -> n <> [] -> fullname = None -> _data = VNone ->
      exists r,
        Redditor.__init__ name fullname _data = Ok r
        /\ redditor_fetched r = false
        /\ forall (s : state unit), Redditor.str r s = (Ok n, s))
  /\ (name = None -> fullname = None -> truthy _data = true ->
      (forall d, _data = VDict d -> d !! lit "name" = None) ->
      Redditor.__init__ name fullname _data
      = Raise (AssertionError data_has_name))
  /\ (provided name fullname _data = 1 ->
      name = Some [] \/ fullname = Some []
      \/ (_data <> VNone /\ truthy _data = false) ->
      Redditor.__init__ name fullname _data = Raise ValueError)
  /\ Redditor.from_data (lit "[deleted]") = Ok None
  /\ (forall n, n <> [] -> n <> lit "[deleted]" ->
      exists r,
        Redditor.from_data n = Ok (Some r)
        /\ forall (s : state unit), Redditor.str r s = (Ok n, s)).
Proof.
  split_and!; [| | | |reflexivity|].
  - unfold provided, Redditor.__init__.
    destruct name as [n|], fullname as [f|], _data as [|b|z|str|items|d];
      cbn [Nat.add Nat.eqb negb];
      first [ by split; [done | intros _; lia]
            | split; [lia|];
              destruct (_ && _); [discriminate|];
              match goal with
              | |- context [RedditBase__init__ ?sf ?ex ?own ?dt] =>
                  destruct (base_init_outcome sf ex own dt) as [[a Ha] | Ha];
                  rewrite Ha; discriminate
              end ].
  - intros n -> Hn -> ->. destruct n as [|c n]; [done|].
    exists {| redditor_dict := ∅ ∪ {[ lit "name" := VStr (c :: n) ]};
              redditor_fetched := false |}.
    split; [reflexivity|]. split; [reflexivity|].
    intros s. unfold Redditor.str, Redditor.attr, bind. cbn [redditor_dict].
    rewrite (left_id_L ∅ (∪)), lookup_singleton_eq. reflexivity.
  - intros -> -> Hv Hname. unfold Redditor.__init__. rewrite Hv.
    destruct _data as [|b|z|str|items|d]; try done.
    cbn [Nat.add Nat.eqb negb].
    rewrite (Hname d eq_refl). rewrite bool_decide_eq_false_2; [done|].
    by intros [? ?].
  - unfold provided. intros Hone Hempty.
    destruct name as [n|], fullname as [f|], _data as [|b|z|str|items|d];
      cbn [Nat.add] in Hone; try lia;
      destruct Hempty as [Hn | [Hf | [Hd Hfalsy]]]; try done;
      simplify_eq; try reflexivity;
      unfold Redditor.__init__; cbn [Nat.add Nat.eqb negb];
      rewrite Hfalsy; try reflexivity.
    cbn [truthy] in Hfalsy. apply negb_false_iff, bool_decide_eq_true in Hfalsy.
    subst d. reflexivity.
  - intros n Hn Hdeleted. unfold Redditor.from_data.
    rewrite bool_decide_eq_false_2 by done.
    destruct n as [|c n]; [done|].
    exists {| redditor_dict := ∅ ∪ {[ lit "name" := VStr (c :: n) ]};
              redditor_fetched := false |}.
    split; [reflexivity|].
    intros s. unfold Redditor.str, Redditor.attr, bind. cbn [redditor_dict].
    rewrite (left_id_L ∅ (∪)), lookup_singleton_eq. reflexivity.
Qed.

Lemma redditor_needs_exactly_one_argument_witness :
  Redditor.__init__ (Some (lit "spez")) (Some (lit "t2_1w72")) VNone
  = Raise TypeError
  /\ Redditor.__init__ None None VNone = Raise TypeError
  /\ Redditor.__init__ None None (VDict {[ lit "id" := VStr (lit "1w72") ]})
     = Raise (AssertionError data_has_name)
  /\ Redditor.__init__ (Some []) None VNone = Raise ValueError.
Proof.
  split_and!.
  - apply (proj1 (proj1 (redditor_needs_exactly_one_argument playback
                           (Some (lit "spez")) (Some (lit "t2_1w72")) VNone))).
    discriminate.
  - apply (proj1 (proj1 (redditor_needs_exactly_one_argument playback
                           None None VNone))).
    discriminate.
  - apply (proj1 (proj2 (proj2 (redditor_needs_exactly_one_argument playback
                    None None (VDict {[ lit "id" := VStr (lit "1w72") ]}))))
             eq_refl eq_refl).
    + reflexivity.
    + intros d [= <-]. reflexivity.
  - apply (proj1 (proj2 (proj2 (proj2 (redditor_needs_exactly_one_argument
                    playback (Some []) None VNone))))).
    + reflexivity.
    + by left.
Defined.

(** X19.  [gild] accepts 1 to 36 months: outside this range it raises
    [TypeError] without sending anything, for any redditor, and inside it,
    for a redditor with a name, it issues one POST to the gild path of that
    name with the number of months. *)
Theorem gild_checks_months (E : Env) (months : Z) (s : state Redditor) :
  ((months < 1 \/ 36 < months)%Z ->
   Redditor.gild months s = (Raise TypeError, s))
  /\ ((1 <= months <= 36)%Z ->
      forall n, redditor_dict (self s) !! lit "name" = Some (VStr n) ->
      log (Redditor.gild months s).2
      = log s ++
        [ {| method := POST;
             path := str_format (API_PATH (lit "gild_user"))
                       [(lit "username", n)];
             params := None;
             data := Form {[ lit "months" := VInt months ]};
             objectify := true |} ]).
Proof.
  destruct s as [me t l]. cbn [self log]. split.
  - intros Hm. unfold Redditor.gild.
    destruct (Z.ltb_spec months 1); [done|].
    destruct (Z.ltb_spec 36 months); [done | lia].
  - intros Hm n Hn. unfold Redditor.gild.
    destruct (Z.ltb_spec months 1); [lia|].
    destruct (Z.ltb_spec 36 months); [lia|].
    cbn [orb]. run_ops. rewrite Hn. run_ops.
    by destruct (send _ t) as [[e|v] t'].
Qed.

Lemma gild_checks_months_witness :
  Redditor.gild 37 (on spez [inr (RValue VNone)])
  = (Raise TypeError, on spez [inr (RValue VNone)])
  /\ log (Redditor.gild 36 (on spez [inr (RValue VNone)])).2
     = [ {| method := POST;
            path := lit "gild_user/spez";
            params := None;
            data := Form {[ lit "months" := VInt 36 ]};
            objectify := true |} ].
Proof.
  split.
  - apply (proj1 (gild_checks_months playback 37 (on spez [inr (RValue VNone)]))).
    lia.
  - apply (proj2 (gild_checks_months playback 36 (on spez [inr (RValue VNone)]))
             ltac:(lia) (lit "spez")).
    reflexivity.
Defined.

Ltac run_fetch :=
  repeat progress
    (lazy beta iota zeta delta
       [Redditor._fetch Redditor._fetch_data Redditor._fetch_info
        Redditor._fetch_username Redditor.attr Redditor.set_attr
        Multireddit._ensure_author_fetched Multireddit.set_author zoom lift
        reddit_get reddit_request call as_str as_dict need bind get_self
        modify_self ret raise self net log fst snd];
     cbn [redditor_dict redditor_fetched multi_dict _author multi_fetched
          List.map]).

Section FetchFacts.
Context {E : Env}.

(** What the constructor makes of fetched data that has a name. *)
Lemma init_from_data d :
  is_Some (d !! lit "name") ->
  Redditor.__init__ None None (VDict d)
  = Ok {| redditor_dict := d ∪ ∅; redditor_fetched := false |}.
Proof.
  intros Hname. unfold Redditor.__init__, RedditBase__init__.
  cbn [Nat.add Nat.eqb negb truthy].
  rewrite (bool_decide_eq_true_2 _ Hname), andb_false_r.
  rewrite bool_decide_eq_true_2; [done|].
  by rewrite (right_id_L ∅ (∪)).
Qed.

(** A fetch that returns has marked the redditor as fetched. *)
Lemma fetch_marks (s s1 : state Redditor) :
  Redditor._fetch s = (Ok tt, s1) -> redditor_fetched (self s1) = true.
Proof.
  destruct s as [me t l]. unfold Redditor._fetch. unfold bind at 1.
  destruct (Redditor._fetch_data _) as [[answer|e] s'] eqn:Hdata; [|done].
  destruct answer as [[| | | | |d]| | | | | |]; try done.
  unfold bind at 1.
  destruct (d !! lit "data") as [v|]; [|done]. cbn [need ret].
  unfold bind at 1. destruct (Redditor.__init__ None None v); [|done].
  cbn [lift]. unfold modify_self. by intros [= <-].
Qed.

End FetchFacts.

(** X20.  Fetching a redditor known by name issues one call, the raw GET of
    the about path of that name; when the answer holds data with a name,
    the redditor is marked as fetched and its attributes, [subreddit]
    apart, are those of the data, with the attributes it had before where
    the data has none. *)
Theorem fetch_by_name (E : Env) (s : state Redditor) (name : pyval)
    (answer d : gmap pystr pyval) (net' : transport) :
  redditor_dict (self s) !! lit "_fullname" = None ->
  redditor_dict (self s) !! lit "name" = Some name ->
  send (about_request (to_str name)) (net s)
    = (inr (RValue (VDict answer)), net') ->
  answer !! lit "data" = Some (VDict d) ->
  is_Some (d !! lit "name") ->
  exists attributes,
    Redditor._fetch s
    = (Ok tt,
       {| self := {| redditor_dict := attributes; redditor_fetched := true |};
          net := net';
          log := log s ++ [about_request (to_str name)] |})
    /\ forall k, k <> lit "subreddit" ->
         attributes !! k
         = match d !! k with
           | Some v => Some v
           | None => redditor_dict (self s) !! k
           end.
Proof.
  destruct s as [me t l]. cbn [self net log].
  intros Hfull Hname Hsend Hdata Hd.
  exists (d ∪ ∅ ∪ redditor_dict me). split.
  - run_fetch. rewrite Hfull. run_fetch. rewrite Hname. run_fetch.
    fold (about_request (to_str name)). rewrite Hsend. run_fetch.
    rewrite Hdata. run_fetch. rewrite (init_from_data d Hd). by run_fetch.
  - intros k _. rewrite (right_id_L ∅ (∪)), lookup_union.
    by destruct (d !! k), (redditor_dict me !! k).
Qed.

Lemma fetch_by_name_witness :
  exists attributes,
    Redditor._fetch (on spez [about_spez])
    = (Ok tt,
       {| self := {| redditor_dict := attributes; redditor_fetched := true |};
          net := recording [];
          log := [about_request (E := playback) (lit "spez")] |})
    /\ attributes !! lit "id" = Some (VStr (lit "1w72")).
Proof.
  destruct (fetch_by_name playback (on spez [about_spez]) (VStr (lit "spez"))
              {[ lit "data" :=
                   VDict {[ lit "name" := VStr (lit "spez");
                            lit "id" := VStr (lit "1w72") ]} ]}
              {[ lit "name" := VStr (lit "spez");
                 lit "id" := VStr (lit "1w72") ]}
              (recording []) eq_refl eq_refl eq_refl eq_refl
              ltac:(by eexists))
    as (attributes & Hrun & Hattr).
  exists attributes. split; [exact Hrun|].
  rewrite (Hattr (lit "id")); [reflexivity|].
  intros H. vm_compute in H. discriminate H.
Defined.

(** X21.  Fetching a redditor known by fullname issues two calls: the GET
    that looks up the name behind the fullname, then the raw GET of the
    about path of that name; afterwards the redditor is marked as fetched,
    it has the name, and its other attributes, [subreddit] apart, are those
    of the data, with the attributes it had before where the data has
    none. *)
Theorem fetch_by_fullname (E : Env) (s : state Redditor) (fullname : pystr)
    (names entry answer d : gmap pystr pyval) (name : pyval)
    (net1 net2 : transport) :
  redditor_dict (self s) !! lit "_fullname" = Some (VStr fullname) ->
  send (username_request (VStr fullname)) (net s)
    = (inr (RValue (VDict names)), net1) ->
  names !! fullname = Some (VDict entry) ->
  entry !! lit "name" = Some name ->
  send (about_request (to_str name)) net1
    = (inr (RValue (VDict answer)), net2) ->
  answer !! lit "data" = Some (VDict d) ->
  is_Some (d !! lit "name") ->
  exists attributes,
    Redditor._fetch s
    = (Ok tt,
       {| self := {| redditor_dict := attributes; redditor_fetched := true |};
          net := net2;
          log := log s ++ [username_request (VStr fullname);
                           about_request (to_str name)] |})
    /\ forall k, k <> lit "subreddit" ->
         attributes !! k
         = match d !! k with
           | Some v => Some v
           | None => if decide (k = lit "name") then Some name
                     else redditor_dict (self s) !! k
           end.
Proof.
  destruct s as [me t l]. cbn [self net log].
  intros Hfull Hsend1 Hnames Hentry Hsend2 Hdata Hd.
  exists (d ∪ ∅ ∪ <[ lit "name" := name ]> (redditor_dict me)). split.
  - run_fetch. rewrite Hfull. run_fetch.
    fold (username_request (VStr fullname)). rewrite Hsend1. run_fetch.
    rewrite Hnames. run_fetch. rewrite Hentry. run_fetch.
    rewrite lookup_insert_eq. run_fetch.
    fold (about_request (to_str name)). rewrite Hsend2. run_fetch.
    rewrite Hdata. run_fetch. rewrite (init_from_data d Hd). run_fetch.
    by rewrite <- app_assoc.
  - intros k _. rewrite (right_id_L ∅ (∪)), lookup_union.
    destruct (decide (k = lit "name")) as [-> | Hne].
    + rewrite lookup_insert_eq. by destruct (d !! lit "name").
    + rewrite lookup_insert_ne by done.
      by destruct (d !! k), (redditor_dict me !! k).
Qed.

Lemma fetch_by_fullname_witness :
  exists attributes,
    Redditor._fetch (on by_fullname [names_of_1w72; about_spez])
    = (Ok tt,
       {| self := {| redditor_dict := attributes; redditor_fetched := true |};
          net := recording [];
          log := [username_request (E := playback) (VStr (lit "t2_1w72"));
                  about_request (E := playback) (lit "spez")] |})
    /\ attributes !! lit "_fullname" = Some (VStr (lit "t2_1w72")).
Proof.
  destruct (fetch_by_fullname playback
              (on by_fullname [names_of_1w72; about_spez]) (lit "t2_1w72")
              {[ lit "t2_1w72" := VDict {[ lit "name" := VStr (lit "spez") ]} ]}
              {[ lit "name" := VStr (lit "spez") ]}
              {[ lit "data" :=
                   VDict {[ lit "name" := VStr (lit "spez");
                            lit "id" := VStr (lit "1w72") ]} ]}
              {[ lit "name" := VStr (lit "spez");
                 lit "id" := VStr (lit "1w72") ]}
              (VStr (lit "spez")) (recording [about_spez]) (recording [])
              eq_refl eq_refl eq_refl eq_refl eq_refl eq_refl
              ltac:(by eexists))
    as (attributes & Hrun & Hattr).
  exists attributes. split; [exact Hrun|].
  rewrite (Hattr (lit "_fullname")); [reflexivity|].
  intros H. vm_compute in H. discriminate H.
Defined.

(* ================================================================== *)
(** * Multireddit: the author, slugs and copies *)
(* ================================================================== *)

(** X22.  Once [_ensure_author_fetched] has returned, the author of the
    multireddit is fetched, and a further call returns at once: it sends
    nothing and changes nothing. *)
Theorem author_is_fetched_once (E : Env) (s s1 : state Multireddit) :
  Multireddit._ensure_author_fetched s = (Ok tt, s1) ->
  redditor_fetched (_author (self s1)) = true
  /\ Multireddit._ensure_author_fetched s1 = (Ok tt, s1).
Proof.
  intros Hrun.
  assert (Hfetched : redditor_fetched (_author (self s1)) = true).
  { destruct s as [me t l]. revert Hrun.
    unfold Multireddit._ensure_author_fetched. unfold bind at 1.
    cbn [get_self self].
    destruct (redditor_fetched (_author me)) eqn:Hf.
    - by intros [= <-].
    - unfold zoom. cbn [self net log].
      destruct (Redditor._fetch _) as [[[]|e] s'] eqn:Hfetch; [|done].
      intros [= <-]. cbn [self Multireddit.set_author _author].
      exact (fetch_marks _ _ Hfetch). }
  split; [exact Hfetched|].
  destruct s1 as [me1 t1 l1]. cbn [self] in Hfetched.
  unfold Multireddit._ensure_author_fetched, bind. cbn [get_self self].
  by rewrite Hfetched.
Qed.

Lemma author_is_fetched_once_witness :
  length (log (Multireddit._ensure_author_fetched
                 (on (bboe_test false) [about_spez])).2) = 1
  /\ Multireddit._ensure_author_fetched
       (Multireddit._ensure_author_fetched
          (on (bboe_test false) [about_spez])).2
     = (Ok tt,
        (Multireddit._ensure_author_fetched
           (on (bboe_test false) [about_spez])).2).
Proof.
  split; [reflexivity|].
  exact (proj2 (author_is_fetched_once playback
                  (on (bboe_test false) [about_spez])
                  (Multireddit._ensure_author_fetched
                     (on (bboe_test false) [about_spez])).2 eq_refl)).
Defined.

(** X27.  [add] and [remove] on a multireddit whose author is fetched reset
    the cached [subreddits] only after their call has succeeded: when the
    transport refuses the call the exception is passed on and the
    multireddit is as it was, and when it answers, whatever the answer, the
    result is that of [_reset_attributes] on the multireddit. *)
Theorem membership_resets_after_success (E : Env) (subreddit : Subreddit)
    (s : state Multireddit) (r : request) (net' : transport) :
  author_ready (self s) ->
  (log (Multireddit.add subreddit s).2 = log s ++ [r] ->
   (forall e, send r (net s) = (inl e, net') ->
      Multireddit.add subreddit s
      = (Raise (Upstream e),
         {| self := self s; net := net'; log := log s ++ [r] |}))
   /\ (forall v, send r (net s) = (inr v, net') ->
         Multireddit.add subreddit s
         = Multireddit.reset_attributes [lit "subreddits"]
             {| self := self s; net := net'; log := log s ++ [r] |}))
  /\ (log (Multireddit.remove subreddit s).2 = log s ++ [r] ->
      (forall e, send r (net s) = (inl e, net') ->
         Multireddit.remove subreddit s
         = (Raise (Upstream e),
            {| self := self s; net := net'; log := log s ++ [r] |}))
      /\ (forall v, send r (net s) = (inr v, net') ->
            Multireddit.remove subreddit s
            = Multireddit.reset_attributes [lit "subreddits"]
                {| self := self s; net := net'; log := log s ++ [r] |})).
Proof.
  intros (Hfetched & [author Hauthor] & [name Hname]).
  destruct s as [me t l]. cbn [self net log] in *.
  split.
  - repeat (run_ops; use_ready).
    match goal with |- context [send ?q t] => set (req := q) end.
    destruct (send req t) as [[e|v] t'] eqn:Hsend;
      run_ops; try destruct (_reset_attributes _ _);
      intros [= <-]%app_inv_head; split; intros ? Hs; rewrite Hsend in Hs;
      by simplify_eq.
  - repeat (run_ops; use_ready).
    match goal with |- context [send ?q t] => set (req := q) end.
    destruct (send req t) as [[e|v] t'] eqn:Hsend;
      run_ops; try destruct (_reset_attributes _ _);
      intros [= <-]%app_inv_head; split; intros ? Hs; rewrite Hsend in Hs;
      by simplify_eq.
Qed.

Lemma membership_resets_after_success_witness :
  Multireddit.add r_test (on (bboe_test true) [inl Forbidden])
  = (Raise (Upstream Forbidden),
     {| self := bboe_test true;
        net := recording [];
        log := [] ++
          [ {| method := PUT;
               path := lit "multireddit_update/test/bboe/test";
               params := None;
               data := Form {[ lit "model" := VStr (lit "{}") ]};
               objectify := true |} ] |}).
Proof.
  refine (proj1 (proj1 (membership_resets_after_success playback r_test
                          (on (bboe_test true) [inl Forbidden]) _ (recording []) _)
                   _) Forbidden _).
  - split_and!; [reflexivity | by exists (lit "bboe") | by eexists].
  - reflexivity.
  - reflexivity.
Defined.

Section SlugFixpoint.
Context {ud : UnicodeData} {laws : UnicodeLaws ud}.

Lemma slug_char_cases c :
  slug_char c ->
  c = underscore
  \/ (c <> underscore /\ is_ascii c /\ ascii_isalnum c = true
      /\ ascii_isupper c = false).
Proof.
  unfold slug_char. destruct (N.eqb_spec c underscore) as [-> | Hne]; [by left|].
  intros Hc. right.
  unfold is_ascii, ascii_isalnum, ascii_isdigit, ascii_isupper, ascii_islower in *.
  rewrite !orb_true_iff, !andb_true_iff, !N.leb_le in Hc.
  split_and!; [done | lia | |].
  - rewrite !orb_true_iff, !andb_true_iff, !N.leb_le. lia.
  - apply andb_false_iff. rewrite !N.leb_gt. lia.
Qed.

(** The substitution leaves a string of slug characters without doubled
    underscores as it is. *)
Lemma re_sub_runs_slug s :
  Forall slug_char s -> no_double s ->
  (head s <> Some underscore ->
   re_sub_runs RE_INVALID [underscore] true s = s)
  /\ re_sub_runs RE_INVALID [underscore] false s = s.
Proof.
  intros Hs. induction Hs as [|c r Hc _ IH]; [done|].
  intros Hd. destruct (IH (no_double_tail Hd)) as [IHt IHf].
  cbn [re_sub_runs].
  destruct (slug_char_cases c Hc) as [-> | (Hne & Hascii & Halnum & _)].
  - assert (Hinv : RE_INVALID underscore = true).
    { unfold RE_INVALID. by rewrite N.eqb_refl, orb_true_r. }
    rewrite Hinv. split; [done|]. cbn [app]. f_equal. apply IHt.
    destruct r as [|b r]; [done|]. destruct Hd as [Hb _].
    intros [= ->]. by apply Hb.
  - assert (Hinv : RE_INVALID c = false).
    { unfold RE_INVALID, re_word. rewrite (isalnum_ascii c Hascii), Halnum.
      by destruct (N.eqb_spec c underscore). }
    rewrite Hinv. split; [intros _|]; by rewrite IHf.
Qed.

Lemma lower_from_slug_id before s :
  Forall slug_char s -> lower_from before s = s.
Proof.
  intros Hs. revert before. induction Hs as [|c r Hc _ IH]; intros before; [done|].
  cbn [lower_from]. rewrite IH.
  destruct (slug_char_cases c Hc) as [-> | (_ & Hascii & _ & Hupper)].
  - by rewrite lower_underscore.
  - rewrite (lower_ascii before c r Hascii). unfold ascii_tolower.
    by rewrite Hupper.
Qed.

Lemma lstrip_id c s : head s <> Some c -> lstrip c s = s.
Proof.
  destruct s as [|a r]; [done|]. cbn [head lstrip].
  destruct (N.eqb_spec a c) as [-> | Hne]; done.
Qed.

Lemma strip_id c s :
  head s <> Some c -> last s <> Some c -> strip c s = s.
Proof.
  intros Hh Hl. unfold strip, rstrip. rewrite (lstrip_id c s Hh).
  rewrite lstrip_id by by rewrite head_reverse.
  apply reverse_involutive.
Qed.

(** A tidy slug is its own slug. *)
Lemma sluggify_tidy s :
  s <> [] -> length s <= 21 -> Forall slug_char s -> no_double s ->
  head s <> Some underscore -> last s <> Some underscore ->
  Multireddit.sluggify s = s.
Proof.
  intros Hne Hlen Hs Hd Hh Hl. rewrite sluggify_unfold.
  assert (Hclean : cleaned s = s).
  { unfold cleaned, re_sub, str_lower.
    rewrite (proj2 (re_sub_runs_slug s Hs Hd)), (strip_id _ s Hh Hl).
    by apply lower_from_slug_id. }
  rewrite Hclean. unfold truncated.
  destruct (Z.ltb_spec 21 (Z.of_nat (length s))); [lia|].
  by destruct s.
Qed.

Lemma truncated_no_double t : no_double t -> no_double (truncated t).
Proof.
  intros Hd. unfold truncated, slice_to.
  destruct (21 <? _)%Z; [|done].
  destruct (0 <? _)%Z; repeat apply no_double_take; done.
Qed.

End SlugFixpoint.

(** X23.  On a title of ASCII characters [sluggify] is idempotent: the slug
    of a slug is that slug. *)
Theorem sluggify_is_idempotent_on_ascii (ud : UnicodeData)
    (laws : UnicodeLaws ud) (title : pystr) :
  Forall is_ascii title ->
  Multireddit.sluggify (Multireddit.sluggify title)
  = Multireddit.sluggify title.
Proof.
  intros Hascii.
  destruct (cleaned_tidy title) as (Hh & Hl & Hd).
  destruct (truncated_tidy (cleaned title) Hh Hl Hd) as [Hh' Hl'].
  pose proof (truncated_length (cleaned title)) as Hlen.
  pose proof (truncated_slug _ (cleaned_slug title Hascii)) as Hslug.
  pose proof (truncated_no_double _ Hd) as Hd'.
  rewrite (sluggify_unfold title).
  destruct (truncated (cleaned title)) as [|c r] eqn:Ht.
  - rewrite sluggify_unfold. unfold cleaned, re_sub. cbn [re_sub_runs].
    assert (Hinv : RE_INVALID underscore = true).
    { unfold RE_INVALID. by rewrite N.eqb_refl, orb_true_r. }
    by rewrite Hinv.
  - by apply sluggify_tidy.
Qed.

Lemma sluggify_is_idempotent_on_ascii_witness :
  Multireddit.sluggify (ud := latin1) (lit "hello_world_this_is")
  = lit "hello_world_this_is".
Proof.
  change (lit "hello_world_this_is")
    with (Multireddit.sluggify (ud := latin1)
            (lit "Hello, World! This is a very long title")).
  apply (sluggify_is_idempotent_on_ascii latin1 latin1_laws).
  apply Forall_forall. intros c Hc. apply list_elem_of_In in Hc.
  vm_compute in Hc. unfold is_ascii.
  repeat (destruct Hc as [<- | Hc]; [lia|]). destruct Hc.
Defined.

(** X24.  [sluggify] keeps whole words.  With the cleaned title being the
    title after substitution, stripping and lower-casing: an empty cleaned
    title gives the single underscore; a cleaned title of at most 21
    characters is the slug; a longer one is cut in front of the last
    underscore among its first 21 characters (the slug, of at most 20
    characters, is followed by an underscore and no further underscore
    stands before the 22nd character), and after 21 characters only when
    there is no underscore among them. *)
Theorem sluggify_keeps_whole_words (ud : UnicodeData) (laws : UnicodeLaws ud)
    (title : pystr) :
  (cleaned title = [] /\ Multireddit.sluggify title = [underscore])
  \/ (cleaned title <> []
      /\ ((length (cleaned title) <= 21
           /\ Multireddit.sluggify title = cleaned title)
          \/ (21 < length (cleaned title)
              /\ ~ In underscore (take 21 (cleaned title))
              /\ Multireddit.sluggify title = take 21 (cleaned title))
          \/ (21 < length (cleaned title)
              /\ Multireddit.sluggify title <> []
              /\ length (Multireddit.sluggify title) <= 20
              /\ exists rest,
                   cleaned title
                   = Multireddit.sluggify title ++ underscore :: rest
                   /\ ~ In underscore
                        (take (20 - length (Multireddit.sluggify title)) rest)))).
Proof.
  destruct (cleaned_tidy title) as (Hh & _ & _).
  rewrite sluggify_unfold. unfold truncated, slice_to.
  destruct (cleaned title) as [|c0 t0] eqn:Hclean; [by left|].
  rewrite <- Hclean in *. right. split; [by rewrite Hclean|].
  assert (Hne : cleaned title <> []) by by rewrite Hclean.
  clear Hclean c0 t0.
  set (t := cleaned title) in *.
  destruct (Z.ltb_spec 21 (Z.of_nat (length t))) as [Hlong | Hshort].
  - right. change (Z.to_nat 21) with 21.
    unfold rfind.
    destruct (rfind_from_spec underscore (take 21 t) 0 (-1))
      as [[Hnot ->] | (p & q & Hpq & Hq & ->)].
    + left. change (0 <? -1)%Z with false. cbv iota.
      split_and!; [lia | done |].
      destruct (take 21 t) eqn:Htake; [|done].
      apply (f_equal length) in Htake. rewrite length_take in Htake.
      cbn [length] in Htake. lia.
    + destruct (Z.ltb_spec 0 (0 + Z.of_nat (length p))) as [Hpos | Hzero].
      * right.
        replace (Z.to_nat (0 + Z.of_nat (length p))) with (length p) by lia.
        rewrite Hpq, take_app_length.
        destruct p as [|a p']; [simpl in Hpos; lia|].
        cbv iota. set (p := a :: p') in *.
        assert (Hlen : length (take 21 t) = 21) by (rewrite length_take; lia).
        rewrite Hpq, length_app in Hlen. cbn [length] in Hlen.
        split_and!; [lia | done | lia |].
        exists (q ++ drop 21 t). split.
        -- rewrite <- (take_drop 21 t) at 1. rewrite Hpq.
           by rewrite <- app_assoc.
        -- replace (20 - length p) with (length q) by lia.
           by rewrite take_app_length.
      * exfalso. destruct p; [|simpl in Hzero; lia].
        cbn [app] in Hpq. apply Hh.
        destruct t as [|a t']; [done|]. cbn [take] in Hpq. by injection Hpq as ->.
  - left. split; [lia|]. by destruct t.
Qed.

Lemma sluggify_keeps_whole_words_witness :
  exists rest,
    cleaned (ud := latin1) (lit "Hello, World! This is a very long title")
    = Multireddit.sluggify (ud := latin1)
        (lit "Hello, World! This is a very long title")
      ++ underscore :: rest.
Proof.
  destruct (sluggify_keeps_whole_words latin1 latin1_laws
              (lit "Hello, World! This is a very long title"))
    as [[Hempty _]
       | (_ & [[Hshort _] | [(_ & Hnone & _) | (_ & _ & _ & rest & Hcut & _)]])].
  - vm_compute in Hempty. discriminate Hempty.
  - vm_compute in Hshort. lia.
  - exfalso. apply Hnone. vm_compute. tauto.
  - exists rest. exact Hcut.
Defined.

(** X25.  [copy] with a non-empty display name does not load the
    multireddit: whatever [load] would do, it issues one POST that names the
    copy by the slug of the display name, at most 21 characters long, under
    the authenticated user, or under ["None"] in read-only mode.  Without a
    display name, or with the empty one, it loads the multireddit first, and
    a failure of the load is the failure of the copy. *)
Theorem copy_names_the_copy (E : Env) (ud : UnicodeData)
    (user_me : forall Self : Type, M Self (option Redditor))
    (load : M Multireddit unit) (display_name : option pystr)
    (s : state Multireddit) :
  (forall d from user owner,
      display_name = Some d -> d <> [] ->
      multi_dict (self s) !! lit "path" = Some from ->
      user_me Multireddit s = (Ok user, s) ->
      match user with
      | Some r => redditor_dict r !! lit "name" = Some (VStr owner)
      | None => owner = lit "None"
      end ->
      log (Multireddit.copy load user_me display_name s).2
      = log s ++
        [ {| method := POST;
             path := API_PATH (lit "multireddit_copy");
             params := None;
             data := Form {[ lit "display_name" := VStr d;
                             lit "from" := from;
                             lit "to" :=
                               VStr (str_format (API_PATH (lit "multireddit"))
                                       [(lit "multi", Multireddit.sluggify d);
                                        (lit "user", owner)]) ]};
             objectify := true |} ]
      /\ length (Multireddit.sluggify d) <= 21)
  /\ (given display_name = false ->
      forall e s',
        load s = (Raise e, s') ->
        Multireddit.copy load user_me display_name s = (Raise e, s')).
Proof.
  split.
  - intros d from user owner -> Hd Hfrom Hme Howner. split.
    + destruct s as [me t l]. cbn [self log] in *.
      destruct d as [|c d]; [done|].
      unfold Multireddit.copy. cbn [given default].
      unfold bind at 1. cbn [ret]. unfold bind at 1. cbn [get_self self].
      unfold bind at 1. unfold Multireddit.attr at 1. rewrite Hfrom.
      cbn [need ret]. unfold bind at 1. rewrite Hme.
      destruct user as [r|].
      * unfold bind at 1. unfold Redditor.str, Redditor.attr. unfold bind at 1.
        rewrite Howner. cbn [need ret as_str fst snd to_str].
        unfold reddit_post, call. cbn [self net log].
        by destruct (send _ t) as [[e|v] t'].
      * subst owner. unfold bind at 1. cbn [ret fst snd to_str].
        unfold reddit_post, call. cbn [self net log].
        by destruct (send _ t) as [[e|v] t'].
    + rewrite sluggify_unfold.
      pose proof (truncated_length (cleaned d)) as Hlen.
      destruct (truncated (cleaned d)); simpl in *; lia.
  - intros Hgiven e s' Hload. unfold Multireddit.copy. rewrite Hgiven.
    unfold bind at 1. unfold bind at 1. by rewrite Hload.
Qed.

Lemma copy_names_the_copy_witness :
  log (Multireddit.copy (ud := latin1) refused me_cached
         (Some (lit "My Copy")) (on (bboe_test true) [inr (RValue VNone)])).2
  = [ {| method := POST;
         path := lit "multireddit_copy";
         params := None;
         data := Form {[ lit "display_name" := VStr (lit "My Copy");
                         lit "from" := VStr (lit "/user/bboe/m/test");
                         lit "to" := VStr (lit "multireddit/my_copy/bboe") ]};
         objectify := true |} ]
  /\ Multireddit.copy (ud := latin1) refused me_cached None
       (on (bboe_test true) [inr (RValue VNone)])
     = (Raise (Upstream Forbidden), on (bboe_test true) [inr (RValue VNone)]).
Proof.
  split.
  - exact (proj1 (proj1 (copy_names_the_copy playback latin1 me_cached refused
                           (Some (lit "My Copy"))
                           (on (bboe_test true) [inr (RValue VNone)]))
                    (lit "My Copy") (VStr (lit "/user/bboe/m/test"))
                    (Some (bboe true)) (lit "bboe")
                    eq_refl ltac:(discriminate) eq_refl eq_refl eq_refl)).
  - exact (proj2 (copy_names_the_copy playback latin1 me_cached refused None
                    (on (bboe_test true) [inr (RValue VNone)]))
             eq_refl (Upstream Forbidden)
             (on (bboe_test true) [inr (RValue VNone)]) eq_refl).
Defined.

(* ================================================================== *)
(** * MessageableMixin.message *)
(* ================================================================== *)

(** X26.  [message] issues one POST to the compose endpoint with the
    subject, the text and the recipient, which is the prefix of the class
    followed by [str] of the receiver; the field [from_sr] is there only
    when a subreddit or a non-empty subreddit name is given, and holds its
    name. *)
Theorem message_sender (E : Env) (A : Type) (MESSAGE_PREFIX : pystr)
    (str_self : A -> M A pystr) (subject text : pystr)
    (from_subreddit : option (pystr + Subreddit)) (s : state A) (to : pystr) :
  str_self (self s) s = (Ok to, s) ->
  exists data : gmap pystr pyval,
    log (Messageable.message MESSAGE_PREFIX str_self subject text
           from_subreddit s).2
    = log s ++
      [ {| method := POST;
           path := API_PATH (lit "compose");
           params := None;
           data := Form data;
           objectify := true |} ]
    /\ data !! lit "subject" = Some (VStr subject)
    /\ data !! lit "text" = Some (VStr text)
    /\ data !! lit "to" = Some (VStr (MESSAGE_PREFIX ++ to))
    /\ data !! lit "from_sr"
       = match from_subreddit with
         | Some (inl []) | None => None
         | Some (inl name) => Some (VStr name)
         | Some (inr sub) => Some (VStr (display_name sub))
         end.
Proof.
  destruct s as [me t l]. cbn [self log]. intros Hto.
  set (base := ({[ lit "subject" := VStr subject; lit "text" := VStr text;
                   lit "to" := VStr (MESSAGE_PREFIX ++ to) ]}
                : gmap pystr pyval)).
  exists (match from_subreddit with
          | Some (inl []) | None => base
          | Some (inl name) => <[ lit "from_sr" := VStr name ]> base
          | Some (inr sub) => <[ lit "from_sr" := VStr (display_name sub) ]> base
          end).
  split.
  - unfold Messageable.message. unfold bind at 1. cbn [get_self self].
    unfold bind at 1. rewrite Hto. fold base.
    destruct from_subreddit as [[[|c name]|sub]|]; cbn [given];
      unfold bind, reddit_post, call; cbn [self net log];
      by destruct (send _ t) as [[e|v] t'].
  - destruct from_subreddit as [[[|c name]|sub]|]; subst base; split_and!;
      rewrite ?lookup_insert_eq, ?(lookup_insert_ne _ (lit "from_sr")) by key_neq;
      first [ by rewrite lookup_insert_eq
            | by rewrite !lookup_insert_ne, lookup_insert_eq by key_neq
            | by rewrite !lookup_insert_ne, lookup_singleton_eq by key_neq
            | by rewrite !lookup_insert_ne, lookup_singleton_ne by key_neq
            | done ].
Qed.

Lemma message_sender_witness :
  exists data : gmap pystr pyval,
    log (Messageable.message (lit "u/") Redditor.str (lit "TEST")
           (lit "test message") (Some (inl [])) (on spez [inr (RValue VNone)])).2
    = [ {| method := POST;
           path := lit "compose";
           params := None;
           data := Form data;
           objectify := true |} ]
    /\ data !! lit "subject" = Some (VStr (lit "TEST"))
    /\ data !! lit "text" = Some (VStr (lit "test message"))
    /\ data !! lit "to" = Some (VStr (lit "u/spez"))
    /\ data !! lit "from_sr" = None.
Proof.
  exact (message_sender playback Redditor (lit "u/") Redditor.str (lit "TEST")
           (lit "test message") (Some (inl [])) (on spez [inr (RValue VNone)])
           (lit "spez") eq_refl).
Defined.
